(** * Knowledge graph and hybrid retrieval engine

    A shallow embedding of the graph client ([neo4j_client.py]), the graph
    builder ([graph_builder.py]), the embeddings generator
    ([embeddings_generator.py]), the hybrid retriever ([retriever.py]) and the
    progress tracker ([progress_tracker.py]).

    The property graph is a record of typed node tables and relationship
    tables.  Every Cypher text of the source is translated into a function on
    that record (its rows are computed clause by clause, in row order).  The
    Python methods are written in a state-and-exception monad over a [World]
    holding the graph, the backend's fault schedule, the clock behind
    [datetime()], the calls made to the embedding model and the printed
    messages. *)

From Stdlib Require Import String Ascii.
From Stdlib Require Import List ZArith Bool Lia PrimFloat Sorted Permutation.
Import ListNotations.

Set Implicit Arguments.

(** ** Data model *)

Definition node_id := nat.
Definition timestamp := nat.
Definition vector := list float.

Inductive label := Subject | Topic | Question | Chunk | Concept | User.

Record SubjectNode := mkSubject {
  s_id : node_id;
  s_name : string;
  s_description : string;
  s_updated_at : timestamp }.

Record TopicNode := mkTopic {
  t_id : node_id;
  t_name : string;
  t_subject : string;
  t_description : string;
  t_difficulty_level : Z;
  t_updated_at : timestamp }.

Record QuestionNode := mkQuestion {
  q_id : node_id;
  q_text : string;
  q_year : Z;
  q_paper_set : string;
  q_options : list string;
  q_answer : string;
  q_difficulty : Z;
  q_marks : Z;
  q_embedding : vector;
  q_created_at : timestamp }.

Record ChunkNode := mkChunk {
  c_id : node_id;
  c_text : string;
  c_source_file : string;
  c_source_type : string;
  c_page_number : Z;
  c_chunk_index : Z;
  c_embedding : vector;
  c_created_at : timestamp }.

Record ConceptNode := mkConcept {
  k_id : node_id;
  k_name : string;
  k_topic : string;
  k_subject : string;
  k_explanation : string;
  k_updated_at : timestamp }.

Record UserNode := mkUser {
  u_id : node_id;
  u_key : string;
  u_created_at : timestamp }.

(** The [ATTEMPTED] relationship and the properties [record_attempt] sets. *)
Record Attempted := mkAttempted {
  a_user : node_id;
  a_question : node_id;
  a_first_attempt : timestamp;
  a_last_attempt : option timestamp;
  a_attempt_count : Z;
  a_correct_count : Z;
  a_last_correct : option timestamp }.

Definition edge := (node_id * node_id)%type.

Record Graph := mkGraph {
  subjects : list SubjectNode;
  topics : list TopicNode;
  questions : list QuestionNode;
  chunks : list ChunkNode;
  concepts : list ConceptNode;
  users : list UserNode;
  has_topic : list edge;
  has_question : list edge;
  explained_by : list edge;
  has_concept : list edge;
  attempted : list Attempted;
  next_id : node_id }.

Definition empty_graph : Graph := mkGraph [] [] [] [] [] [] [] [] [] [] [] 0.

Definition with_subjects (l : list SubjectNode) (g : Graph) : Graph :=
  mkGraph l (topics g) (questions g) (chunks g) (concepts g) (users g)
    (has_topic g) (has_question g) (explained_by g) (has_concept g)
    (attempted g) (next_id g).

Definition with_topics (l : list TopicNode) (g : Graph) : Graph :=
  mkGraph (subjects g) l (questions g) (chunks g) (concepts g) (users g)
    (has_topic g) (has_question g) (explained_by g) (has_concept g)
    (attempted g) (next_id g).

Definition with_questions (l : list QuestionNode) (g : Graph) : Graph :=
  mkGraph (subjects g) (topics g) l (chunks g) (concepts g) (users g)
    (has_topic g) (has_question g) (explained_by g) (has_concept g)
    (attempted g) (next_id g).

Definition with_chunks (l : list ChunkNode) (g : Graph) : Graph :=
  mkGraph (subjects g) (topics g) (questions g) l (concepts g) (users g)
    (has_topic g) (has_question g) (explained_by g) (has_concept g)
    (attempted g) (next_id g).

Definition with_users (l : list UserNode) (g : Graph) : Graph :=
  mkGraph (subjects g) (topics g) (questions g) (chunks g) (concepts g) l
    (has_topic g) (has_question g) (explained_by g) (has_concept g)
    (attempted g) (next_id g).

Definition with_has_topic (l : list edge) (g : Graph) : Graph :=
  mkGraph (subjects g) (topics g) (questions g) (chunks g) (concepts g)
    (users g) l (has_question g) (explained_by g) (has_concept g)
    (attempted g) (next_id g).

Definition with_has_question (l : list edge) (g : Graph) : Graph :=
  mkGraph (subjects g) (topics g) (questions g) (chunks g) (concepts g)
    (users g) (has_topic g) l (explained_by g) (has_concept g)
    (attempted g) (next_id g).

Definition with_explained_by (l : list edge) (g : Graph) : Graph :=
  mkGraph (subjects g) (topics g) (questions g) (chunks g) (concepts g)
    (users g) (has_topic g) (has_question g) l (has_concept g)
    (attempted g) (next_id g).

Definition with_attempted (l : list Attempted) (g : Graph) : Graph :=
  mkGraph (subjects g) (topics g) (questions g) (chunks g) (concepts g)
    (users g) (has_topic g) (has_question g) (explained_by g) (has_concept g)
    l (next_id g).

(** A created node takes the next free identifier. *)
Definition bump_id (g : Graph) : Graph :=
  mkGraph (subjects g) (topics g) (questions g) (chunks g) (concepts g)
    (users g) (has_topic g) (has_question g) (explained_by g) (has_concept g)
    (attempted g) (S (next_id g)).

(** [MATCH (n:label) RETURN count(n)]. *)
Definition count_nodes (l : label) (g : Graph) : nat :=
  match l with
  | Subject => length (subjects g)
  | Topic => length (topics g)
  | Question => length (questions g)
  | Chunk => length (chunks g)
  | Concept => length (concepts g)
  | User => length (users g)
  end.

(** ** Ingestion records (the dictionaries handed to the builder)

    A field read with [d['k']] is mandatory; a field read with
    [d.get('k', default)] is optional and [None] stands for an absent key. *)

Record question_data := mkQuestionData {
  question_text : string;
  qd_subject : string;
  qd_topic : string;
  qd_year : option Z;
  qd_paper_set : option string;
  qd_options : option (list string);
  qd_answer : option string;
  qd_difficulty : option Z;
  qd_marks : option Z }.

Record chunk_data := mkChunkData {
  cd_text : string;
  cd_subject : string;
  cd_topic : string;
  cd_source_file : option string;
  cd_page_number : option Z;
  cd_chunk_index : option Z;
  cd_embedding : option vector }.

Record topic_entry := mkTopicEntry {
  te_name : string;
  te_description : option string;
  te_difficulty : option Z }.

Record subject_info := mkSubjectInfo {
  si_description : option string;
  si_topics : option (list topic_entry) }.

(** A syllabus dictionary, in insertion order. *)
Definition syllabus := list (string * subject_info).

(** [d.get(k, default)]. *)
Definition get {A : Type} (o : option A) (default : A) : A :=
  match o with
  | Some x => x
  | None => default
  end.

(** ** The world and the monad of the Python methods *)

Inductive message :=
| QueryExecutionError
| TopicNotFound (topic subject : string)
| ErrorGeneratingEmbedding
| LoadingSyllabus
| SyllabusLoaded (n_subjects n_topics : nat)
| LoadingPyqs
| ErrorLoadingQuestion
| LoadedQuestions (success_count failed_count : nat)
| VectorSearchError
| GraphSearchError
| QuestionRetrievalError
| QuestionOrderingError
| ErrorRecordingAttempt.

(** [faults] is the backend's schedule: its head tells whether the next
    query fails (connection lost, query refused); an exhausted schedule means
    the backend answers.  [embed_calls] lists the texts handed to
    [generate_embedding], oldest first. *)
Record World := mkWorld {
  graph : Graph;
  faults : list bool;
  clock : timestamp;
  embed_calls : list string;
  stdout : list message }.

Inductive exn := BackendError.

Inductive outcome (A : Type) :=
| Ok (a : A)
| Raise (e : exn).
Arguments Ok {A} a.
Arguments Raise {A} e.

Definition M (A : Type) : Type := World -> outcome A * World.

Definition ret {A : Type} (a : A) : M A := fun w => (Ok a, w).

Definition bind {A B : Type} (m : M A) (k : A -> M B) : M B :=
  fun w =>
    match m w with
    | (Ok a, w') => k a w'
    | (Raise e, w') => (Raise e, w')
    end.

Definition raise {A : Type} (e : exn) : M A := fun w => (Raise e, w).

(** [try: m  except Exception as e: h e]. *)
Definition try_except {A : Type} (m : M A) (h : exn -> M A) : M A :=
  fun w =>
    match m w with
    | (Ok a, w') => (Ok a, w')
    | (Raise e, w') => h e w'
    end.

Declare Scope py_scope.
Delimit Scope py_scope with py.
Notation "x <- m ;; k" := (bind m (fun x => k))
  (at level 61, m at next level, right associativity) : py_scope.
Notation "m ;; k" := (bind m (fun _ => k))
  (at level 61, right associativity) : py_scope.
Local Open Scope py_scope.

Definition print (msg : message) : M unit :=
  fun w =>
    (Ok tt, mkWorld (graph w) (faults w) (clock w) (embed_calls w)
              (stdout w ++ [msg])).

Definition log_embed (text : string) : M unit :=
  fun w =>
    (Ok tt, mkWorld (graph w) (faults w) (clock w) (embed_calls w ++ [text])
              (stdout w)).

(** The backend answers the next query. *)
Definition next_ok (w : World) : bool :=
  match faults w with
  | true :: _ => false
  | _ => true
  end.

(** The backend answers every query to come. *)
Definition healthy (w : World) : bool := forallb negb (faults w).

(** ** neo4j_client.py *)

(** The meaning of a Cypher text with its parameters: given the value of
    [datetime()] it updates the graph and yields its rows. *)
Definition Cypher (R : Type) : Type := timestamp -> Graph -> Graph * list R.

(** [Neo4jClient.run_query]: a failing query prints, changes nothing in the
    graph, and re-raises. *)
Definition run_query {R : Type} (query : Cypher R) : M (list R) :=
  fun w =>
    match faults w with
    | true :: rest =>
        (Raise BackendError,
         mkWorld (graph w) rest (clock w) (embed_calls w)
           (stdout w ++ [QueryExecutionError]))
    | _ =>
        let (g', rows) := query (clock w) (graph w) in
        (Ok rows,
         mkWorld g' (tl (faults w)) (S (clock w)) (embed_calls w) (stdout w))
    end.

Definition cypher_count (l : label) : Cypher nat :=
  fun _ g => (g, [count_nodes l g]).

(** [Neo4jClient.get_node_count]. *)
Definition get_node_count (l : label) : M nat :=
  result <- run_query (cypher_count l) ;;
  ret (match result with
       | r :: _ => r
       | [] => 0
       end).

(** ** embeddings_generator.py *)

(** The sentence-transformers model is a black box: [model_encode] is
    [self.model.encode(text).tolist()], [None] when the model raises;
    [dimension] is [self.dimension]. *)
Record EmbeddingsGenerator := mkEmbedder {
  model_encode : string -> option vector;
  dimension : nat }.

(** The model keeps its contract: it encodes into [self.dimension] floats. *)
Definition model_contract (E : EmbeddingsGenerator) : Prop :=
  forall text v, model_encode E text = Some v -> length v = dimension E.

(** [[0.0] * self.dimension]. *)
Definition zero_vector (d : nat) : vector := repeat 0%float d.

(** A Python [str] is held as its UTF-8 encoding, one [ascii] per byte.
    White space is what [str.strip()] strips: U+0009 to U+000D, U+001C to
    U+0020, U+0085, U+00A0, U+1680, U+2000 to U+200A, U+2028, U+2029, U+202F,
    U+205F and U+3000.  [is_space] holds of the ones that take one byte. *)
Definition is_space (c : ascii) : bool :=
  let n := nat_of_ascii c in
  ((9 <=? n) && (n <=? 13)) || ((28 <=? n) && (n <=? 32)).

(** U+0085 and U+00A0: the bytes C2 85 and C2 A0. *)
Definition is_space2 (c d : ascii) : bool :=
  (nat_of_ascii c =? 194)
  && ((nat_of_ascii d =? 133) || (nat_of_ascii d =? 160)).

(** U+1680 (E1 9A 80); U+2000 to U+200A, U+2028, U+2029 and U+202F
    (E2 80 80 to 8A, A8, A9, AF); U+205F (E2 81 9F); U+3000 (E3 80 80). *)
Definition is_space3 (c d e : ascii) : bool :=
  let c := nat_of_ascii c in
  let d := nat_of_ascii d in
  let e := nat_of_ascii e in
  ((c =? 225) && (d =? 154) && (e =? 128))
  || ((c =? 226) && (d =? 128)
      && (((128 <=? e) && (e <=? 138)) || (e =? 168) || (e =? 169)
          || (e =? 175)))
  || ((c =? 226) && (d =? 129) && (e =? 159))
  || ((c =? 227) && (d =? 128) && (e =? 128)).

(** [not text or not text.strip()]: the text is empty or made of white space
    only. *)
Fixpoint is_blank (text : string) : bool :=
  match text with
  | EmptyString => true
  | String c rest =>
      if is_space c then is_blank rest
      else
        match rest with
        | EmptyString => false
        | String d rest2 =>
            if is_space2 c d then is_blank rest2
            else
              match rest2 with
              | EmptyString => false
              | String e rest3 => is_space3 c d e && is_blank rest3
              end
        end
  end.

(** [EmbeddingsGenerator.generate_embedding]. *)
Definition generate_embedding (E : EmbeddingsGenerator) (text : string)
  : M vector :=
  log_embed text ;;
  if is_blank text then ret (zero_vector (dimension E))
  else
    match model_encode E text with
    | Some embedding => ret embedding
    | None =>
        print ErrorGeneratingEmbedding ;;
        ret (zero_vector (dimension E))
    end.

(** ** graph_builder.py *)

Definition newline : string := String (ascii_of_nat 10) EmptyString.

Definition subject_matches (name : string) (s : SubjectNode) : bool :=
  String.eqb (s_name s) name.

Definition topic_matches (name subject : string) (t : TopicNode) : bool :=
  String.eqb (t_name t) name && String.eqb (t_subject t) subject.

Definition edge_eqb (e1 e2 : edge) : bool :=
  Nat.eqb (fst e1) (fst e2) && Nat.eqb (snd e1) (snd e2).

(** [MERGE (a)-[:R]->(b)] for one row: the relationship is created unless
    one is already there. *)
Definition merge_edge (es : list edge) (e : edge) : list edge :=
  if existsb (edge_eqb e) es then es else es ++ [e].

Definition set_subject (description : string) (now : timestamp)
  (s : SubjectNode) : SubjectNode :=
  mkSubject (s_id s) (s_name s) description now.

(** [MERGE (s:Subject {name: $name})
     SET s.description = $description, s.updated_at = datetime()
     RETURN s] *)
Definition cypher_create_subject (name description : string)
  : Cypher SubjectNode :=
  fun now g =>
    let g1 :=
      if existsb (subject_matches name) (subjects g) then g
      else bump_id (with_subjects
             (subjects g ++ [mkSubject (next_id g) name description now]) g) in
    let g2 :=
      with_subjects
        (map (fun s => if subject_matches name s
                       then set_subject description now s else s)
           (subjects g1)) g1 in
    (g2, filter (subject_matches name) (subjects g2)).

(** [GraphBuilder.create_subject]. *)
Definition create_subject (name description : string)
  : M (option SubjectNode) :=
  result <- run_query (cypher_create_subject name description) ;;
  ret (hd_error result).

Definition set_topic (description : string) (difficulty : Z) (now : timestamp)
  (t : TopicNode) : TopicNode :=
  mkTopic (t_id t) (t_name t) (t_subject t) description difficulty now.

(** [MATCH (s:Subject {name: $subject_name})
     MERGE (t:Topic {name: $topic_name, subject: $subject_name})
     SET t.description = $description, t.difficulty_level = $difficulty,
         t.updated_at = datetime()
     MERGE (s)-[:HAS_TOPIC]->(t)
     RETURN t]
    Without a matching Subject there is no row and nothing is written.  The
    first row creates the Topic when none matches; every row then binds all
    matching Topics, so the rows are the pairs (subject, topic). *)
Definition cypher_create_topic (subject_name topic_name description : string)
  (difficulty : Z) : Cypher TopicNode :=
  fun now g =>
    match filter (subject_matches subject_name) (subjects g) with
    | [] => (g, [])
    | ss =>
        let g1 :=
          if existsb (topic_matches topic_name subject_name) (topics g) then g
          else bump_id (with_topics
                 (topics g ++ [mkTopic (next_id g) topic_name subject_name
                                 description difficulty now]) g) in
        let g2 :=
          with_topics
            (map (fun t => if topic_matches topic_name subject_name t
                           then set_topic description difficulty now t else t)
               (topics g1)) g1 in
        let ts := filter (topic_matches topic_name subject_name) (topics g2) in
        let rows := list_prod ss ts in
        let g3 :=
          with_has_topic
            (fold_left merge_edge
               (map (fun r => (s_id (fst r), t_id (snd r))) rows)
               (has_topic g2)) g2 in
        (g3, map snd rows)
    end.

(** [GraphBuilder.create_topic]. *)
Definition create_topic (subject_name topic_name description : string)
  (difficulty : Z) : M (option TopicNode) :=
  result <- run_query
              (cypher_create_topic subject_name topic_name description
                 difficulty) ;;
  ret (hd_error result).

Record GraphStatistics := mkStats {
  stat_subjects : nat;
  stat_topics : nat;
  stat_questions : nat;
  stat_chunks : nat;
  stat_concepts : nat }.

(** [GraphBuilder.get_graph_statistics]. *)
Definition get_graph_statistics : M GraphStatistics :=
  n_subjects <- get_node_count Subject ;;
  n_topics <- get_node_count Topic ;;
  n_questions <- get_node_count Question ;;
  n_chunks <- get_node_count Chunk ;;
  n_concepts <- get_node_count Concept ;;
  ret (mkStats n_subjects n_topics n_questions n_chunks n_concepts).

(** The inner loop of [load_syllabus] over [subject_info.get('topics', [])]. *)
Fixpoint load_topics (subject_name : string) (l : list topic_entry) : M unit :=
  match l with
  | [] => ret tt
  | topic :: rest =>
      create_topic subject_name (te_name topic)
        (get (te_description topic) EmptyString)
        (get (te_difficulty topic) 1%Z) ;;
      load_topics subject_name rest
  end.

(** The outer loop of [load_syllabus] over [syllabus_data.items()]. *)
Fixpoint load_subjects (l : syllabus) : M unit :=
  match l with
  | [] => ret tt
  | (subject_name, info) :: rest =>
      create_subject subject_name (get (si_description info) EmptyString) ;;
      load_topics subject_name (get (si_topics info) []) ;;
      load_subjects rest
  end.

(** [GraphBuilder.load_syllabus]. *)
Definition load_syllabus (syllabus_data : syllabus) : M unit :=
  print LoadingSyllabus ;;
  load_subjects syllabus_data ;;
  stats <- get_graph_statistics ;;
  print (SyllabusLoaded (stat_subjects stats) (stat_topics stats)).

(** [MATCH (t:Topic {name: $topic, subject: $subject}) RETURN t] *)
Definition cypher_match_topic (topic subject : string) : Cypher TopicNode :=
  fun _ g => (g, filter (topic_matches topic subject) (topics g)).

(** The text that is embedded for a question: the question text, then, when
    the record has a non-empty list of options, a newline and the options one
    per line. *)
Definition full_text (question : question_data) : string :=
  match qd_options question with
  | Some (o :: os) =>
      (question_text question ++ newline ++ String.concat newline (o :: os))%string
  | _ => question_text question
  end.

(** One row of the [CREATE (q:Question {...}) MERGE (t)-[:HAS_QUESTION]->(q)]
    clauses: a fresh Question and its link from the row's Topic. *)
Definition create_question_row (mk : node_id -> QuestionNode)
  (acc : Graph * list QuestionNode) (t : TopicNode)
  : Graph * list QuestionNode :=
  let (g, rows) := acc in
  let q := mk (next_id g) in
  (bump_id
     (with_has_question (merge_edge (has_question g) (t_id t, q_id q))
        (with_questions (questions g ++ [q]) g)),
   rows ++ [q]).

(** [MATCH (t:Topic {name: $topic, subject: $subject})
     CREATE (q:Question {text: $text, ..., embedding: $embedding,
                         created_at: datetime()})
     MERGE (t)-[:HAS_QUESTION]->(q)
     RETURN q] *)
Definition cypher_create_question (subject topic text : string) (year : Z)
  (paper_set : string) (options : list string) (answer : string)
  (difficulty marks : Z) (embedding : vector) : Cypher QuestionNode :=
  fun now g =>
    fold_left
      (create_question_row
         (fun id => mkQuestion id text year paper_set options answer
                      difficulty marks embedding now))
      (filter (topic_matches topic subject) (topics g)) (g, []).

(** [GraphBuilder.create_question]. *)
Definition create_question (E : EmbeddingsGenerator)
  (question : question_data) : M (option QuestionNode) :=
  topic_result <- run_query
                    (cypher_match_topic (qd_topic question)
                       (qd_subject question)) ;;
  match topic_result with
  | [] =>
      print (TopicNotFound (qd_topic question) (qd_subject question)) ;;
      ret None
  | _ :: _ =>
      embedding <- generate_embedding E (full_text question) ;;
      result <- run_query
                  (cypher_create_question (qd_subject question)
                     (qd_topic question) (question_text question)
                     (get (qd_year question) 0%Z)
                     (get (qd_paper_set question) "unknown"%string)
                     (get (qd_options question) [])
                     (get (qd_answer question) EmptyString)
                     (get (qd_difficulty question) 0%Z)
                     (get (qd_marks question) 1%Z)
                     embedding) ;;
      ret (hd_error result)
  end.

(** The loop of [load_pyqs]: each record runs under its own [try]. *)
Fixpoint load_pyqs_loop (E : EmbeddingsGenerator) (pyqs : list question_data)
  (success_count failed_count : nat) : M (nat * nat) :=
  match pyqs with
  | [] => ret (success_count, failed_count)
  | question :: rest =>
      loaded <- try_except
                  (result <- create_question E question ;;
                   ret (match result with Some _ => true | None => false end))
                  (fun _ => print ErrorLoadingQuestion ;; ret false) ;;
      if loaded : bool
      then load_pyqs_loop E rest (S success_count) failed_count
      else load_pyqs_loop E rest success_count (S failed_count)
  end.

(** [GraphBuilder.load_pyqs]; the counts are reported on the last printed
    line. *)
Definition load_pyqs (E : EmbeddingsGenerator) (pyqs_data : list question_data)
  : M unit :=
  print LoadingPyqs ;;
  counts <- load_pyqs_loop E pyqs_data 0 0 ;;
  print (LoadedQuestions (fst counts) (snd counts)).

Definition create_chunk_row (mk : node_id -> ChunkNode)
  (acc : Graph * list ChunkNode) (t : TopicNode) : Graph * list ChunkNode :=
  let (g, rows) := acc in
  let c := mk (next_id g) in
  (bump_id
     (with_explained_by (merge_edge (explained_by g) (t_id t, c_id c))
        (with_chunks (chunks g ++ [c]) g)),
   rows ++ [c]).

(** [MATCH (t:Topic {name: $topic, subject: $subject})
     CREATE (c:Chunk {text: $text, source_file: $source_file,
                      source_type: 'textbook', ..., embedding: $embedding,
                      created_at: datetime()})
     MERGE (t)-[:EXPLAINED_BY]->(c)
     RETURN c] *)
Definition cypher_create_chunk (subject topic text source_file : string)
  (page_number chunk_index : Z) (embedding : vector) : Cypher ChunkNode :=
  fun now g =>
    fold_left
      (create_chunk_row
         (fun id => mkChunk id text source_file "textbook"%string page_number
                      chunk_index embedding now))
      (filter (topic_matches topic subject) (topics g)) (g, []).

(** [GraphBuilder.create_chunk].  The embedding is taken from the record
    unless the key is absent or its value is empty; the source also writes
    the computed embedding back into the caller's dictionary. *)
Definition create_chunk (E : EmbeddingsGenerator) (chunk : chunk_data)
  : M (option ChunkNode) :=
  embedding <- match cd_embedding chunk with
               | Some (x :: v) => ret (x :: v)
               | _ => generate_embedding E (cd_text chunk)
               end ;;
  topic_result <- run_query
                    (cypher_match_topic (cd_topic chunk) (cd_subject chunk)) ;;
  match topic_result with
  | [] =>
      print (TopicNotFound (cd_topic chunk) (cd_subject chunk)) ;;
      ret None
  | _ :: _ =>
      result <- run_query
                  (cypher_create_chunk (cd_subject chunk) (cd_topic chunk)
                     (cd_text chunk)
                     (get (cd_source_file chunk) "unknown"%string)
                     (get (cd_page_number chunk) 0%Z)
                     (get (cd_chunk_index chunk) 0%Z)
                     embedding) ;;
      ret (hd_error result)
  end.

(** ** Clauses shared by the read queries *)

(** [ORDER BY]: a stable sort under the comparison [le]. *)
Fixpoint insert_by {A : Type} (le : A -> A -> bool) (x : A) (l : list A)
  : list A :=
  match l with
  | [] => [x]
  | y :: rest => if le x y then x :: y :: rest else y :: insert_by le x rest
  end.

Definition order_by {A : Type} (le : A -> A -> bool) (l : list A) : list A :=
  fold_right (insert_by le) [] l.

(** [DISTINCT]: the first occurrence of each value is kept. *)
Fixpoint distinct {A : Type} (eqb : A -> A -> bool) (l : list A) : list A :=
  match l with
  | [] => []
  | x :: rest => x :: filter (fun y => negb (eqb x y)) (distinct eqb rest)
  end.

(** [LIMIT $n]: the backend refuses a negative limit; every caller below
    turns that refusal into the empty list, which is what [firstn 0] gives. *)
Definition limit_rows {A : Type} (n : Z) (l : list A) : list A :=
  firstn (Z.to_nat n) l.

(** The identifiers reached from [src] along the relationships [es]. *)
Definition targets (es : list edge) (src : node_id) : list node_id :=
  map snd (filter (fun e => Nat.eqb (fst e) src) es).

Definition questions_of (g : Graph) (t : TopicNode) : list QuestionNode :=
  flat_map (fun id => filter (fun q => Nat.eqb (q_id q) id) (questions g))
    (targets (has_question g) (t_id t)).

Definition chunks_of (g : Graph) (t : TopicNode) : list ChunkNode :=
  flat_map (fun id => filter (fun c => Nat.eqb (c_id c) id) (chunks g))
    (targets (explained_by g) (t_id t)).

Definition concepts_of (g : Graph) (t : TopicNode) : list ConceptNode :=
  flat_map (fun id => filter (fun c => Nat.eqb (k_id c) id) (concepts g))
    (targets (has_concept g) (t_id t)).

(** A Python condition [if s:] on an optional string. *)
Definition truthy (s : option string) : bool :=
  match s with
  | Some (String _ _) => true
  | _ => false
  end.

(** ** retriever.py *)

Record ScoredChunk := mkScoredChunk {
  sc_text : string;
  sc_source : string;
  sc_page : Z;
  sc_score : float }.

(** [db.index.vector.queryNodes('chunk_embeddings', $top_k, $query_embedding)]
    is the backend's own nearest-neighbour primitive over floating-point
    vectors; the retriever is stated over any such primitive. *)
Definition VectorIndex : Type := Graph -> Z -> vector -> list (ChunkNode * float).

(** The query text [vector_search] assembles: the index call, then, when a
    subject or a topic is given, the [EXPLAINED_BY] match with its [WHERE]
    filters, then [ORDER BY score DESC LIMIT $top_k]. *)
Definition cypher_vector_search (index : VectorIndex) (query_embedding : vector)
  (top_k : Z) (subject topic : option string) : Cypher ScoredChunk :=
  fun _ g =>
    let hits := index g top_k query_embedding in
    let rows :=
      if truthy subject || truthy topic then
        flat_map
          (fun hit =>
             flat_map
               (fun e =>
                  if Nat.eqb (snd e) (c_id (fst hit)) then
                    map (fun _ => hit)
                      (filter
                         (fun t =>
                            Nat.eqb (t_id t) (fst e)
                            && (if truthy subject
                                then String.eqb (t_subject t)
                                       (get subject EmptyString)
                                else true)
                            && (if truthy topic
                                then String.eqb (t_name t)
                                       (get topic EmptyString)
                                else true))
                         (topics g))
                  else [])
               (explained_by g))
          hits
      else hits in
    (g, limit_rows top_k
          (order_by (fun a b => PrimFloat.leb (sc_score b) (sc_score a))
             (map (fun hit => mkScoredChunk (c_text (fst hit))
                                (c_source_file (fst hit))
                                (c_page_number (fst hit)) (snd hit))
                rows))).

(** [HybridRetriever.vector_search]. *)
Definition vector_search (E : EmbeddingsGenerator) (index : VectorIndex)
  (query : string) (top_k : Z) (subject topic : option string)
  : M (list ScoredChunk) :=
  query_embedding <- generate_embedding E query ;;
  try_except
    (run_query (cypher_vector_search index query_embedding top_k subject topic))
    (fun _ => print VectorSearchError ;; ret []).

(** The row of [graph_search]; [tc_concepts] is present only when concepts
    were asked for. *)
Record TopicContext := mkTopicContext {
  tc_topic : string;
  tc_description : string;
  tc_difficulty : Z;
  tc_sample_chunks : list string;
  tc_question_count : nat;
  tc_concepts : option (list string) }.

(** The rows of
    [MATCH (s:Subject {name: $subject})-[:HAS_TOPIC]->(t:Topic {name: $topic})]. *)
Definition topic_paths (g : Graph) (subject topic : string) : list TopicNode :=
  flat_map
    (fun s =>
       flat_map
         (fun id =>
            filter (fun t => Nat.eqb (t_id t) id && String.eqb (t_name t) topic)
              (topics g))
         (targets (has_topic g) (s_id s)))
    (filter (subject_matches subject) (subjects g)).

(** The grouping key of the [RETURN] clause: the three plain columns. *)
Definition group_key (t : TopicNode) : string * string * Z :=
  (t_name t, t_description t, t_difficulty_level t).

Definition group_key_eqb (k1 k2 : string * string * Z) : bool :=
  String.eqb (fst (fst k1)) (fst (fst k2))
  && String.eqb (snd (fst k1)) (snd (fst k2))
  && Z.eqb (snd k1) (snd k2).

(** The [MATCH ... OPTIONAL MATCH ... RETURN] text of [graph_search]: one row
    per grouping key, aggregated over the paths that share it. *)
Definition cypher_graph_search (subject topic : string)
  (include_concepts : bool) : Cypher TopicContext :=
  fun _ g =>
    let paths := topic_paths g subject topic in
    (g,
     map
       (fun key =>
          let group := filter (fun t => group_key_eqb key (group_key t)) paths in
          mkTopicContext (fst (fst key)) (snd (fst key)) (snd key)
            (firstn 5
               (distinct String.eqb (map c_text (flat_map (chunks_of g) group))))
            (length
               (distinct Nat.eqb (map q_id (flat_map (questions_of g) group))))
            (if include_concepts
             then Some (distinct String.eqb
                          (map k_name (flat_map (concepts_of g) group)))
             else None))
       (distinct group_key_eqb (map group_key paths))).

(** [HybridRetriever.graph_search]; [None] is the empty dictionary. *)
Definition graph_search (subject topic : string) (include_concepts : bool)
  : M (option TopicContext) :=
  try_except
    (results <- run_query (cypher_graph_search subject topic include_concepts) ;;
     ret (hd_error results))
    (fun _ => print GraphSearchError ;; ret None).


(** A returned question; [qr_paper_set] is a column of
    [get_questions_by_topic] only. *)
Record QuestionRow := mkQuestionRow {
  qr_question : string;
  qr_options : list string;
  qr_answer : string;
  qr_year : Z;
  qr_difficulty : Z;
  qr_marks : Z;
  qr_paper_set : option string }.

(** The rows of
    [MATCH (t:Topic {name: $topic, subject: $subject})-[:HAS_QUESTION]->(q:Question)]. *)
Definition topic_questions (g : Graph) (subject topic : string)
  : list QuestionNode :=
  flat_map (questions_of g) (filter (topic_matches topic subject) (topics g)).

(** The conditions [get_questions_by_topic] appends to [where_clauses]. *)
Inductive where_clause :=
| YearIs (year : Z)
| DifficultyIs (difficulty : Z).

Definition clause_holds (q : QuestionNode) (c : where_clause) : bool :=
  match c with
  | YearIs year => Z.eqb (q_year q) year
  | DifficultyIs difficulty => Z.eqb (q_difficulty q) difficulty
  end.

(** [ORDER BY q.year DESC, q.difficulty ASC]. *)
Definition year_desc_difficulty_asc (a b : QuestionRow) : bool :=
  Z.ltb (qr_year b) (qr_year a)
  || (Z.eqb (qr_year a) (qr_year b)
      && Z.leb (qr_difficulty a) (qr_difficulty b)).

(** The query text [get_questions_by_topic] assembles: the match, the
    [WHERE] clauses joined by [AND] when there are any, the seven columns,
    the order and the limit. *)
Definition cypher_questions_by_topic (subject topic : string)
  (where_clauses : list where_clause) (limit : Z) : Cypher QuestionRow :=
  fun _ g =>
    (g,
     limit_rows limit
       (order_by year_desc_difficulty_asc
          (map (fun q => mkQuestionRow (q_text q) (q_options q) (q_answer q)
                           (q_year q) (q_difficulty q) (q_marks q)
                           (Some (q_paper_set q)))
             (filter (fun q => forallb (clause_holds q) where_clauses)
                (topic_questions g subject topic))))).

(** [HybridRetriever.get_questions_by_topic]: [if year:] skips [None] and
    [0]; [if difficulty is not None:] skips [None] only. *)
Definition get_questions_by_topic (subject topic : string)
  (year difficulty : option Z) (limit : Z) : M (list QuestionRow) :=
  let where_clauses := [] in
  let where_clauses :=
    match year with
    | Some y => if Z.eqb y 0 then where_clauses
                else where_clauses ++ [YearIs y]
    | None => where_clauses
    end in
  let where_clauses :=
    match difficulty with
    | Some d => where_clauses ++ [DifficultyIs d]
    | None => where_clauses
    end in
  try_except
    (run_query (cypher_questions_by_topic subject topic where_clauses limit))
    (fun _ => print QuestionRetrievalError ;; ret []).

(** [ORDER BY q.difficulty ASC, q.year DESC]. *)
Definition difficulty_asc_year_desc (a b : QuestionRow) : bool :=
  Z.ltb (qr_difficulty a) (qr_difficulty b)
  || (Z.eqb (qr_difficulty a) (qr_difficulty b)
      && Z.leb (qr_year b) (qr_year a)).

(** [ORDER BY q.difficulty DESC, q.year DESC]. *)
Definition difficulty_desc_year_desc (a b : QuestionRow) : bool :=
  Z.ltb (qr_difficulty b) (qr_difficulty a)
  || (Z.eqb (qr_difficulty a) (qr_difficulty b)
      && Z.leb (qr_year b) (qr_year a)).

(** The query of [get_questions_ordered_by_difficulty], [order] being
    [ASC] or [DESC]. *)
Definition cypher_questions_ordered (subject topic : string)
  (ascending : bool) : Cypher QuestionRow :=
  fun _ g =>
    (g,
     order_by
       (if ascending then difficulty_asc_year_desc
        else difficulty_desc_year_desc)
       (map (fun q => mkQuestionRow (q_text q) (q_options q) (q_answer q)
                        (q_year q) (q_difficulty q) (q_marks q) None)
          (topic_questions g subject topic))).

(** [HybridRetriever.get_questions_ordered_by_difficulty]. *)
Definition get_questions_ordered_by_difficulty (subject topic : string)
  (ascending : bool) : M (list QuestionRow) :=
  try_except
    (run_query (cypher_questions_ordered subject topic ascending))
    (fun _ => print QuestionOrderingError ;; ret []).

(** ** progress_tracker.py *)

Definition default_user : string := "default_user".

(** [MERGE (u:User {id: 'default_user'})
     SET u.created_at = COALESCE(u.created_at, datetime())
     RETURN u] *)
Definition cypher_ensure_user : Cypher UserNode :=
  fun now g =>
    let g1 :=
      if existsb (fun u => String.eqb (u_key u) default_user) (users g) then g
      else bump_id (with_users
             (users g ++ [mkUser (next_id g) default_user now]) g) in
    (g1, filter (fun u => String.eqb (u_key u) default_user) (users g1)).

(** [ProgressTracker._ensure_progress_nodes]. *)
Definition _ensure_progress_nodes : M unit :=
  run_query cypher_ensure_user ;; ret tt.

(** The rows of the three [MATCH] clauses of [record_attempt]: the default
    user, the topic, and the topic's questions with the given text. *)
Definition attempt_rows (g : Graph) (subject topic question_text : string)
  : list (node_id * node_id) :=
  flat_map
    (fun u =>
       map (fun q => (u_id u, q_id q))
         (filter (fun q => String.eqb (q_text q) question_text)
            (topic_questions g subject topic)))
    (filter (fun u => String.eqb (u_key u) default_user) (users g)).

Definition attempt_between (u q : node_id) (a : Attempted) : bool :=
  Nat.eqb (a_user a) u && Nat.eqb (a_question a) q.

(** [CASE WHEN $is_correct THEN 1 ELSE 0 END]. *)
Definition one_if (is_correct : bool) : Z := if is_correct then 1%Z else 0%Z.

(** [ON CREATE SET]: [last_attempt] is left unset. *)
Definition on_create (u q : node_id) (is_correct : bool) (now : timestamp)
  : Attempted :=
  mkAttempted u q now None 1%Z (one_if is_correct)
    (if is_correct then Some now else None).

(** [ON MATCH SET]: [first_attempt] is not among the properties written. *)
Definition on_match (is_correct : bool) (now : timestamp) (a : Attempted)
  : Attempted :=
  mkAttempted (a_user a) (a_question a) (a_first_attempt a) (Some now)
    (a_attempt_count a + 1)%Z
    (a_correct_count a + one_if is_correct)%Z
    (if is_correct then Some now else a_last_correct a).

(** [MERGE (u)-[a:ATTEMPTED]->(q) ON CREATE SET ... ON MATCH SET ...] for one
    row. *)
Definition merge_attempted (is_correct : bool) (now : timestamp)
  (acc : list Attempted * list Attempted) (row : node_id * node_id)
  : list Attempted * list Attempted :=
  let (rels, out) := acc in
  let (u, q) := row in
  if existsb (attempt_between u q) rels then
    let rels' :=
      map (fun a => if attempt_between u q a
                    then on_match is_correct now a else a) rels in
    (rels', out ++ filter (attempt_between u q) rels')
  else
    (rels ++ [on_create u q is_correct now],
     out ++ [on_create u q is_correct now]).

(** The query of [record_attempt]. *)
Definition cypher_record_attempt (subject topic question_text : string)
  (is_correct : bool) : Cypher Attempted :=
  fun now g =>
    let (rels, out) :=
      fold_left (merge_attempted is_correct now)
        (attempt_rows g subject topic question_text) (attempted g, []) in
    (with_attempted rels g, out).

(** [ProgressTracker.record_attempt]. *)
Definition record_attempt (subject topic question_text : string)
  (is_correct : bool) : M unit :=
  try_except
    (run_query (cypher_record_attempt subject topic question_text is_correct) ;;
     ret tt)
    (fun _ => print ErrorRecordingAttempt).

(** The [ATTEMPTED] relationships from user [u] to question [q]. *)
Definition attempts_between (g : Graph) (u q : node_id) : list Attempted :=
  filter (attempt_between u q) (attempted g).

(** ** Sample data for the examples *)

(** A world with a healthy backend and nothing printed yet. *)
Definition world_of (g : Graph) : World := mkWorld g [] 0 [] [].

(** An embedder whose model answers every text with 384 ones. *)
Definition unit_embedder : EmbeddingsGenerator :=
  mkEmbedder (fun _ => Some (repeat 1%float 384)) 384.

(** An embedder whose model always raises. *)
Definition broken_embedder : EmbeddingsGenerator :=
  mkEmbedder (fun _ => None) 384.

Definition algorithms_syllabus : syllabus :=
  [("Algorithms"%string,
    mkSubjectInfo (Some "Design and analysis of algorithms"%string)
      (Some [mkTopicEntry "Sorting" (Some "Various sorting algorithms"%string)
               (Some 2%Z);
             mkTopicEntry "Searching" None None]))].

(** The graph holding the subject Algorithms and its topic Sorting. *)
Definition sorting_graph : Graph :=
  mkGraph [mkSubject 0 "Algorithms" "" 0]
    [mkTopic 1 "Sorting" "Algorithms" "" 2 1]
    [] [] [] [] [(0, 1)] [] [] [] [] 2.

Definition merge_sort_question : question_data :=
  mkQuestionData "What is merge sort?" "Algorithms" "Sorting" (Some 2023%Z)
    None (Some []) (Some "A divide-and-conquer algorithm"%string) None None.

Definition orphan_question : question_data :=
  mkQuestionData "What is a B-tree?" "Databases" "Indexing" None None None
    None None None.

(** ** Predicates of the statements *)

(** Some Topic node carries the pair (subject, topic). *)
Definition topic_exists (g : Graph) (subject topic : string) : bool :=
  existsb (topic_matches topic subject) (topics g).

(** The record fails the topic-existence precondition of [create_question]. *)
Definition precondition_fails (g : Graph) (question : question_data) : bool :=
  negb (topic_exists g (qd_subject question) (qd_topic question)).

(** The data model's key invariant on Topic nodes: (name, subject) is
    unique.  [setup_DB.py] declares it as a constraint and [create_topic]
    keeps it by merging on the pair. *)
Definition topic_keys_unique (g : Graph) : Prop :=
  NoDup (map (fun t => (t_name t, t_subject t)) (topics g)).

(** What [generate_embedding] returns, as a function of the text. *)
Definition embedding_of (E : EmbeddingsGenerator) (text : string) : vector :=
  if is_blank text then zero_vector (dimension E)
  else match model_encode E text with
       | Some v => v
       | None => zero_vector (dimension E)
       end.

(** The nodes of every label other than Question, and the Topic-side
    relationships, are the same in both graphs. *)
Definition same_but_questions (g g' : Graph) : Prop :=
  subjects g' = subjects g /\ topics g' = topics g /\ chunks g' = chunks g /\
  concepts g' = concepts g /\ users g' = users g.

Definition same_but_chunks (g g' : Graph) : Prop :=
  subjects g' = subjects g /\ topics g' = topics g /\
  questions g' = questions g /\ concepts g' = concepts g /\ users g' = users g.

(** The embedding [create_chunk] stores: the record's own when it carries a
    non-empty one, the embedding of its text otherwise. *)
Definition chunk_embedding (E : EmbeddingsGenerator) (chunk : chunk_data)
  : vector :=
  match cd_embedding chunk with
  | Some (x :: v) => x :: v
  | _ => embedding_of E (cd_text chunk)
  end.

(** The texts [create_chunk] hands to the embedder. *)
Definition chunk_embed_calls (chunk : chunk_data) : list string :=
  match cd_embedding chunk with
  | Some (_ :: _) => []
  | _ => [cd_text chunk]
  end.

(** A chunk record that brings its own one-float embedding. *)
Definition short_chunk : chunk_data :=
  mkChunkData "Merge sort splits the list." "Algorithms" "Sorting" None None
    None (Some [1%float]).

(** A chunk record whose embedding key holds the empty list. *)
Definition empty_embedding_chunk : chunk_data :=
  mkChunkData "Merge sort splits the list." "Algorithms" "Sorting" None None
    None (Some []).

(** A chunk record without an embedding and with blank text. *)
Definition blank_chunk : chunk_data :=
  mkChunkData "  " "Algorithms" "Sorting" None None None None.

(** A text of white space beyond ASCII: U+00A0 (no-break space), U+3000
    (ideographic space) and a plain space. *)
Definition unicode_blank : string :=
  String (ascii_of_nat 194) (String (ascii_of_nat 160)
    (String (ascii_of_nat 227) (String (ascii_of_nat 128)
       (String (ascii_of_nat 128) " ")))).

(** A vector index that holds nothing. *)
Definition empty_index : VectorIndex := fun _ _ _ => [].

(** A backend that refuses the next query. *)
Definition failing_world (g : Graph) : World := mkWorld g [true] 0 [] [].

(** Three questions under Sorting, of difficulties 2, 0 and 2 and years
    2021, 2023 and 2022, and an attempt already recorded on the first. *)
Definition practice_graph : Graph :=
  mkGraph [mkSubject 0 "Algorithms" "" 0]
    [mkTopic 1 "Sorting" "Algorithms" "" 2 1]
    [mkQuestion 2 "Q1" 2021 "set1" [] "" 2 1 [] 2;
     mkQuestion 3 "Q2" 2023 "set1" [] "" 0 1 [] 3;
     mkQuestion 4 "Q3" 2022 "set1" [] "" 2 1 [] 4]
    [] [] [mkUser 5 "default_user" 5]
    [(0, 1)] [(1, 2); (1, 3); (1, 4)] [] []
    [mkAttempted 5 2 6 None 1 0 None] 6.

(** Row [a] may come before row [b] in a list ordered by difficulty
    (upwards when [ascending], downwards otherwise) with ties broken by year,
    latest first. *)
Definition difficulty_order (ascending : bool) (a b : QuestionRow) : Prop :=
  (if ascending then (qr_difficulty a <= qr_difficulty b)%Z
   else (qr_difficulty b <= qr_difficulty a)%Z) /\
  (qr_difficulty a = qr_difficulty b -> (qr_year b <= qr_year a)%Z).

(** The columns [get_questions_ordered_by_difficulty] returns for a node. *)
Definition ordered_row (q : QuestionNode) : QuestionRow :=
  mkQuestionRow (q_text q) (q_options q) (q_answer q) (q_year q)
    (q_difficulty q) (q_marks q) None.

(** No Topic node is named [topic]. *)
Definition no_topic_named (g : Graph) (topic : string) : Prop :=
  existsb (fun t => String.eqb (t_name t) topic) (topics g) = false.

(** No Subject node is named [subject]. *)
Definition no_subject_named (g : Graph) (subject : string) : Prop :=
  existsb (subject_matches subject) (subjects g) = false.

(** None of the matched topics has a chunk or a question linked to it. *)
Definition nothing_ingested (g : Graph) (subject topic : string) : Prop :=
  forall t, In t (topic_paths g subject topic) ->
            chunks_of g t = [] /\ questions_of g t = [].

(** ** The calls [load_syllabus] makes, and what they do to the graph's keys *)

(** One call of the two loops of [load_syllabus]. *)
Inductive syllabus_op :=
| OpSubject (name description : string)
| OpTopic (subject_name topic_name description : string) (difficulty : Z).

Definition topic_ops (subject_name : string) (l : list topic_entry)
  : list syllabus_op :=
  map (fun topic => OpTopic subject_name (te_name topic)
                      (get (te_description topic) EmptyString)
                      (get (te_difficulty topic) 1%Z)) l.

(** The calls in the order the loops make them. *)
Fixpoint syllabus_ops (l : syllabus) : list syllabus_op :=
  match l with
  | [] => []
  | (subject_name, info) :: rest =>
      OpSubject subject_name (get (si_description info) EmptyString)
      :: topic_ops subject_name (get (si_topics info) [])
      ++ syllabus_ops rest
  end.

(** The graph after the query of one call, run at time [now]. *)
Definition apply_op (now : timestamp) (o : syllabus_op) (g : Graph) : Graph :=
  match o with
  | OpSubject name description =>
      fst (cypher_create_subject name description now g)
  | OpTopic subject_name topic_name description difficulty =>
      fst (cypher_create_topic subject_name topic_name description difficulty
             now g)
  end.

Fixpoint apply_ops (now : timestamp) (os : list syllabus_op) (g : Graph)
  : Graph :=
  match os with
  | [] => g
  | o :: rest => apply_ops (S now) rest (apply_op now o g)
  end.

(** The world after [n] answered queries that left the graph [g]. *)
Definition advance (n : nat) (g : Graph) (w : World) : World :=
  mkWorld g (skipn n (faults w)) (n + clock w) (embed_calls w) (stdout w).

(** The identity of the curriculum part of a graph: which Subject and Topic
    nodes there are (identifier and key), the [HAS_TOPIC] relationships, and
    the next free identifier.  Descriptions, difficulty levels and update
    times are left out. *)
Record Skeleton := mkSkeleton {
  sk_subjects : list (node_id * string);
  sk_topics : list (node_id * (string * string));
  sk_edges : list edge;
  sk_next : node_id }.

Definition skeleton (g : Graph) : Skeleton :=
  mkSkeleton (map (fun s => (s_id s, s_name s)) (subjects g))
    (map (fun t => (t_id t, (t_name t, t_subject t))) (topics g))
    (has_topic g) (next_id g).

Definition subject_key_matches (name : string) (k : node_id * string) : bool :=
  String.eqb (snd k) name.

Definition topic_key_matches (name subject : string)
  (k : node_id * (string * string)) : bool :=
  String.eqb (fst (snd k)) name && String.eqb (snd (snd k)) subject.

(** [create_subject] on the skeleton. *)
Definition skel_subject (name : string) (k : Skeleton) : Skeleton :=
  if existsb (subject_key_matches name) (sk_subjects k) then k
  else mkSkeleton (sk_subjects k ++ [(sk_next k, name)]) (sk_topics k)
         (sk_edges k) (S (sk_next k)).

(** [create_topic] on the skeleton. *)
Definition skel_topic (subject_name topic_name : string) (k : Skeleton)
  : Skeleton :=
  match filter (subject_key_matches subject_name) (sk_subjects k) with
  | [] => k
  | ss =>
      let k1 :=
        if existsb (topic_key_matches topic_name subject_name) (sk_topics k)
        then k
        else mkSkeleton (sk_subjects k)
               (sk_topics k ++ [(sk_next k, (topic_name, subject_name))])
               (sk_edges k) (S (sk_next k)) in
      mkSkeleton (sk_subjects k1) (sk_topics k1)
        (fold_left merge_edge
           (list_prod (map fst ss)
              (map fst (filter (topic_key_matches topic_name subject_name)
                          (sk_topics k1))))
           (sk_edges k1))
        (sk_next k1)
  end.

Definition skel_op (o : syllabus_op) (k : Skeleton) : Skeleton :=
  match o with
  | OpSubject name _ => skel_subject name k
  | OpTopic subject_name topic_name _ _ => skel_topic subject_name topic_name k
  end.

Definition skel_ops (os : list syllabus_op) (k : Skeleton) : Skeleton :=
  fold_left (fun k o => skel_op o k) os k.

Definition has_subject (name : string) (k : Skeleton) : Prop :=
  exists id, In (id, name) (sk_subjects k).

Definition has_topic_key (subject_name topic_name : string) (k : Skeleton)
  : Prop :=
  exists id, In (id, (topic_name, subject_name)) (sk_topics k).

(** Every Subject named [subject_name] is linked to every Topic keyed
    ([topic_name], [subject_name]). *)
Definition edges_complete (subject_name topic_name : string) (k : Skeleton)
  : Prop :=
  forall sid tid,
    In (sid, subject_name) (sk_subjects k) ->
    In (tid, (topic_name, subject_name)) (sk_topics k) ->
    existsb (edge_eqb (sid, tid)) (sk_edges k) = true.

(** The call finds everything it would write already there. *)
Definition settled (o : syllabus_op) (k : Skeleton) : Prop :=
  match o with
  | OpSubject name _ => has_subject name k
  | OpTopic subject_name topic_name _ _ =>
      has_subject subject_name k /\
      has_topic_key subject_name topic_name k /\
      edges_complete subject_name topic_name k
  end.

(** The later call [o'] writes the properties that the call [o] wrote. *)
Definition rewrites (o o' : syllabus_op) : Prop :=
  match o, o' with
  | OpSubject name _, OpSubject name' _ => name = name'
  | OpTopic subject_name topic_name _ _, OpTopic subject_name' topic_name' _ _ =>
      subject_name = subject_name' /\ topic_name = topic_name'
  | _, _ => False
  end.

(** The nodes the call [o] addresses carry the properties it sets. *)
Definition written (o : syllabus_op) (g : Graph) : Prop :=
  match o with
  | OpSubject name description =>
      forall s, In s (subjects g) -> subject_matches name s = true ->
                s_description s = description
  | OpTopic subject_name topic_name description difficulty =>
      forall t, In t (topics g) ->
                topic_matches topic_name subject_name t = true ->
                t_description t = description /\
                t_difficulty_level t = difficulty
  end.

(** ** Further methods of the builder, the retriever and the tracker *)

Definition with_concepts (l : list ConceptNode) (g : Graph) : Graph :=
  mkGraph (subjects g) (topics g) (questions g) (chunks g) l (users g)
    (has_topic g) (has_question g) (explained_by g) (has_concept g)
    (attempted g) (next_id g).

Definition with_has_concept (l : list edge) (g : Graph) : Graph :=
  mkGraph (subjects g) (topics g) (questions g) (chunks g) (concepts g)
    (users g) (has_topic g) (has_question g) (explained_by g) l
    (attempted g) (next_id g).

Definition concept_matches (name topic subject : string) (c : ConceptNode)
  : bool :=
  String.eqb (k_name c) name && String.eqb (k_topic c) topic
  && String.eqb (k_subject c) subject.

Definition set_concept (explanation : string) (now : timestamp)
  (c : ConceptNode) : ConceptNode :=
  mkConcept (k_id c) (k_name c) (k_topic c) (k_subject c) explanation now.

(** [MATCH (t:Topic {name: $topic, subject: $subject})
     MERGE (c:Concept {name: $name, topic: $topic, subject: $subject})
     SET c.explanation = $explanation, c.updated_at = datetime()
     MERGE (t)-[:HAS_CONCEPT]->(c)
     RETURN c] *)
Definition cypher_create_concept (name explanation topic subject : string)
  : Cypher ConceptNode :=
  fun now g =>
    match filter (topic_matches topic subject) (topics g) with
    | [] => (g, [])
    | ts =>
        let g1 :=
          if existsb (concept_matches name topic subject) (concepts g) then g
          else bump_id (with_concepts
                 (concepts g ++ [mkConcept (next_id g) name topic subject
                                   explanation now]) g) in
        let g2 :=
          with_concepts
            (map (fun c => if concept_matches name topic subject c
                           then set_concept explanation now c else c)
               (concepts g1)) g1 in
        let cs := filter (concept_matches name topic subject) (concepts g2) in
        let rows := list_prod ts cs in
        let g3 :=
          with_has_concept
            (fold_left merge_edge
               (map (fun r => (t_id (fst r), k_id (snd r))) rows)
               (has_concept g2)) g2 in
        (g3, map snd rows)
    end.

(** [GraphBuilder.create_concept]. *)
Definition create_concept (name explanation topic_name subject_name : string)
  : M (option ConceptNode) :=
  result <- run_query
              (cypher_create_concept name explanation topic_name
                 subject_name) ;;
  ret (hd_error result).

(** [MATCH (s:Subject) RETURN s.name AS name ORDER BY name]; names are
    compared character by character. *)
Definition cypher_all_subjects : Cypher string :=
  fun _ g => (g, order_by String.leb (map s_name (subjects g))).

(** [HybridRetriever.get_all_subjects]: no [try] around the query. *)
Definition get_all_subjects : M (list string) :=
  results <- run_query cypher_all_subjects ;;
  ret results.

(** A row of [get_topics_for_subject]. *)
Record TopicSummary := mkTopicSummary {
  ts_name : string;
  ts_description : string;
  ts_difficulty : Z;
  ts_question_count : nat }.

(** The rows of [MATCH (s:Subject {name: $subject})-[:HAS_TOPIC]->(t:Topic)]. *)
Definition subject_topics (g : Graph) (subject : string) : list TopicNode :=
  flat_map
    (fun s =>
       flat_map (fun id => filter (fun t => Nat.eqb (t_id t) id) (topics g))
         (targets (has_topic g) (s_id s)))
    (filter (subject_matches subject) (subjects g)).

(** [MATCH (s:Subject {name: $subject})-[:HAS_TOPIC]->(t:Topic)
     OPTIONAL MATCH (t)-[:HAS_QUESTION]->(q:Question)
     RETURN t.name AS name, t.description AS description,
            t.difficulty_level AS difficulty,
            count(DISTINCT q) AS question_count
     ORDER BY t.name] *)
Definition cypher_topics_for_subject (subject : string) : Cypher TopicSummary :=
  fun _ g =>
    let paths := subject_topics g subject in
    (g,
     order_by (fun a b => String.leb (ts_name a) (ts_name b))
       (map
          (fun key =>
             let group :=
               filter (fun t => group_key_eqb key (group_key t)) paths in
             mkTopicSummary (fst (fst key)) (snd (fst key)) (snd key)
               (length
                  (distinct Nat.eqb
                     (map q_id (flat_map (questions_of g) group)))))
          (distinct group_key_eqb (map group_key paths)))).

(** [HybridRetriever.get_topics_for_subject]: no [try] around the query. *)
Definition get_topics_for_subject (subject : string) : M (list TopicSummary) :=
  results <- run_query (cypher_topics_for_subject subject) ;;
  ret results.

(** The dictionary [get_user_stats] returns. *)
Record UserStats := mkUserStats {
  us_attempted : Z;
  us_correct : Z;
  us_accuracy : float }.

(** The rows of
    [MATCH (u:User {id: 'default_user'})-[a:ATTEMPTED]->(q:Question)],
    followed, when a filter on the topic is given, by
    [MATCH (q)<-[:HAS_QUESTION]-(t:Topic {...})]; each row is kept as its
    relationship [a]. *)
Definition stat_rows (g : Graph) (topic_filter : option (TopicNode -> bool))
  : list Attempted :=
  flat_map
    (fun u =>
       flat_map
         (fun a =>
            if Nat.eqb (a_user a) (u_id u) then
              flat_map
                (fun q =>
                   if Nat.eqb (q_id q) (a_question a) then
                     match topic_filter with
                     | None => [a]
                     | Some keep =>
                         flat_map
                           (fun e =>
                              if Nat.eqb (snd e) (q_id q) then
                                map (fun _ => a)
                                  (filter
                                     (fun t => Nat.eqb (t_id t) (fst e)
                                               && keep t)
                                     (topics g))
                              else [])
                           (has_question g)
                     end
                   else [])
                (questions g)
            else [])
         (attempted g))
    (filter (fun u => String.eqb (u_key u) default_user) (users g)).

(** [sum(...)] over rows. *)
Definition zsum (l : list Z) : Z := fold_right Z.add 0%Z l.

(** The three queries of [get_user_stats] share their tail:
    [WITH sum(a.attempt_count) AS total_attempts,
          sum(a.correct_count) AS total_correct
     RETURN total_attempts, total_correct,
            CASE WHEN total_attempts > 0
                 THEN toFloat(total_correct) / total_attempts * 100
                 ELSE 0 END AS accuracy]
    The floating-point quotient, rounded by Python's [round(_, 1)], is the
    parameter [percentage]. *)
Definition cypher_user_stats (percentage : Z -> Z -> float)
  (topic_filter : option (TopicNode -> bool)) : Cypher UserStats :=
  fun _ g =>
    let rows := stat_rows g topic_filter in
    let total_attempts := zsum (map a_attempt_count rows) in
    let total_correct := zsum (map a_correct_count rows) in
    (g,
     [mkUserStats total_attempts total_correct
        (if Z.ltb 0 total_attempts
         then percentage total_correct total_attempts
         else 0%float)]).

(** [ProgressTracker.get_user_stats]: the topic is looked at only together
    with a subject; no [try] around the query. *)
Definition get_user_stats (percentage : Z -> Z -> float)
  (subject topic : option string) : M UserStats :=
  result <-
    (if truthy topic && truthy subject then
       run_query
         (cypher_user_stats percentage
            (Some (topic_matches (get topic EmptyString)
                     (get subject EmptyString))))
     else if truthy subject then
       run_query
         (cypher_user_stats percentage
            (Some (fun t => String.eqb (t_subject t)
                              (get subject EmptyString))))
     else
       run_query (cypher_user_stats percentage None)) ;;
  ret (match result with
       | r :: _ => r
       | [] => mkUserStats 0 0 0%float
       end).

(** The concept keyed ([name], [topic], [subject]) is there and linked from
    every Topic node keyed ([topic], [subject]). *)
Definition concept_settled (name topic subject : string) (g : Graph) : Prop :=
  existsb (concept_matches name topic subject) (concepts g) = true /\
  forall t c,
    In t (topics g) -> topic_matches topic subject t = true ->
    In c (concepts g) -> concept_matches name topic subject c = true ->
    existsb (edge_eqb (t_id t, k_id c)) (has_concept g) = true.

(** Row [a] may come before row [b] in a list ordered by year, latest
    first, with equal years ordered by difficulty, easiest first. *)
Definition year_order (a b : QuestionRow) : Prop :=
  (qr_year b <= qr_year a)%Z /\
  (qr_year a = qr_year b -> (qr_difficulty a <= qr_difficulty b)%Z).

(** The columns [get_questions_by_topic] returns for a node. *)
Definition topic_row (q : QuestionNode) : QuestionRow :=
  mkQuestionRow (q_text q) (q_options q) (q_answer q) (q_year q)
    (q_difficulty q) (q_marks q) (Some (q_paper_set q)).

(** The counters of an [ATTEMPTED] relationship make sense: at least one
    attempt, and between none and all of them correct. *)
Definition counts_ok (a : Attempted) : Prop :=
  (1 <= a_attempt_count a)%Z /\
  (0 <= a_correct_count a)%Z /\
  (a_correct_count a <= a_attempt_count a)%Z.

Definition is_default_user (u : UserNode) : bool :=
  String.eqb (u_key u) default_user.

(** A call of the loops of [load_syllabus] as the method it stands for, its
    result dropped as the loops drop it. *)
Definition run_op (o : syllabus_op) : M unit :=
  match o with
  | OpSubject name description =>
      create_subject name description ;; ret tt
  | OpTopic subject_name topic_name description difficulty =>
      create_topic subject_name topic_name description difficulty ;; ret tt
  end.

Fixpoint run_ops (os : list syllabus_op) : M unit :=
  match os with
  | [] => ret tt
  | o :: rest => run_op o ;; run_ops rest
  end.

(** The computation [m] keeps the property [P] of the graph, whatever it
    returns or raises. *)
Definition preserves {A : Type} (P : Graph -> Prop) (m : M A) : Prop :=
  forall w : World, P (graph w) -> P (graph (snd (m w))).

(** A row of [get_topic_progress]. *)
Record TopicProgress := mkTopicProgress {
  tp_topic : string;
  tp_difficulty : Z;
  tp_total_questions : nat;
  tp_attempts : Z;
  tp_correct : Z;
  tp_accuracy : float }.

(** The rows of
    [OPTIONAL MATCH (t)-[:HAS_QUESTION]->(q:Question)
                    <-[a:ATTEMPTED]-(u:User {id: 'default_user'})]
    for the topic [t]: the pattern is matched as a whole, so a question comes
    with an attempt on it or not at all. *)
Definition attempt_paths (g : Graph) (t : TopicNode)
  : list (QuestionNode * Attempted) :=
  flat_map
    (fun e =>
       if Nat.eqb (fst e) (t_id t) then
         flat_map
           (fun q =>
              if Nat.eqb (q_id q) (snd e) then
                flat_map
                  (fun a =>
                     if Nat.eqb (a_question a) (q_id q) then
                       map (fun _ => (q, a))
                         (filter
                            (fun u => Nat.eqb (u_id u) (a_user a)
                                      && String.eqb (u_key u) default_user)
                            (users g))
                     else [])
                  (attempted g)
              else [])
           (questions g)
       else [])
    (has_question g).

(** [MATCH (t:Topic {subject: $subject})
     OPTIONAL MATCH (t)-[:HAS_QUESTION]->(q:Question)
                    <-[a:ATTEMPTED]-(u:User {id: 'default_user'})
     WITH t, count(DISTINCT q) AS total_questions,
          sum(a.attempt_count) AS attempts, sum(a.correct_count) AS correct
     RETURN t.name AS topic, t.difficulty_level AS difficulty,
            total_questions, COALESCE(attempts, 0) AS attempts,
            COALESCE(correct, 0) AS correct,
            CASE WHEN attempts > 0 THEN toFloat(correct) / attempts * 100
                 ELSE 0 END AS accuracy
     ORDER BY t.name]
    One row per Topic node; the floating-point quotient is the parameter
    [percentage]. *)
Definition cypher_topic_progress (percentage : Z -> Z -> float)
  (subject : string) : Cypher TopicProgress :=
  fun _ g =>
    (g,
     order_by (fun a b => String.leb (tp_topic a) (tp_topic b))
       (map
          (fun t =>
             let paths := attempt_paths g t in
             let attempts := zsum (map (fun p => a_attempt_count (snd p)) paths) in
             let correct := zsum (map (fun p => a_correct_count (snd p)) paths) in
             mkTopicProgress (t_name t) (t_difficulty_level t)
               (length (distinct Nat.eqb (map (fun p => q_id (fst p)) paths)))
               attempts correct
               (if Z.ltb 0 attempts then percentage correct attempts
                else 0%float))
          (filter (fun t => String.eqb (t_subject t) subject) (topics g)))).

(** [ProgressTracker.get_topic_progress].  The handler prints a line of its
    own and returns the empty list; it is the parameter [on_error]. *)
Definition get_topic_progress (percentage : Z -> Z -> float)
  (on_error : exn -> M (list TopicProgress)) (subject : string)
  : M (list TopicProgress) :=
  try_except (run_query (cypher_topic_progress percentage subject)) on_error.

(** * Properties *)

Unset Implicit Arguments.

(** ** The client *)

Lemma run_query_ok (R : Type) (query : Cypher R) (w : World) :
  next_ok w = true ->
  run_query query w =
    (Ok (snd (query (clock w) (graph w))),
     mkWorld (fst (query (clock w) (graph w))) (tl (faults w)) (S (clock w))
       (embed_calls w) (stdout w)).
Proof.
  unfold next_ok, run_query. intros H.
  destruct (faults w) as [|[|] rest]; try discriminate;
    destruct (query (clock w) (graph w)); reflexivity.
Qed.

Lemma run_query_fault (R : Type) (query : Cypher R) (w : World) :
  next_ok w = false ->
  run_query query w =
    (Raise BackendError,
     mkWorld (graph w) (tl (faults w)) (clock w) (embed_calls w)
       (stdout w ++ [QueryExecutionError])).
Proof.
  unfold next_ok, run_query. intros H.
  destruct (faults w) as [|[|] rest]; try discriminate. reflexivity.
Qed.

Lemma healthy_next_ok (w : World) : healthy w = true -> next_ok w = true.
Proof.
  unfold healthy, next_ok. destruct (faults w) as [|[|] rest]; simpl; auto.
Qed.

Lemma healthy_tl (g : Graph) (w : World) (c : timestamp) (e : list string)
  (out : list message) :
  healthy w = true -> healthy (mkWorld g (tl (faults w)) c e out) = true.
Proof.
  unfold healthy. simpl. destruct (faults w) as [|b rest]; simpl; auto.
  intros H. apply andb_true_iff in H. apply H.
Qed.

Lemma existsb_false_filter (A : Type) (f : A -> bool) (l : list A) :
  existsb f l = false -> filter f l = [].
Proof.
  induction l as [|x l IH]; simpl; auto.
  destruct (f x); simpl; [discriminate | exact IH].
Qed.

Lemma existsb_true_filter (A : Type) (f : A -> bool) (l : list A) :
  existsb f l = true -> filter f l <> [].
Proof.
  induction l as [|x l IH]; simpl; [discriminate|].
  destruct (f x); simpl; [discriminate | exact IH].
Qed.

(** ** The embedder *)

Lemma generate_embedding_run (E : EmbeddingsGenerator) (text : string)
  (w : World) :
  exists out,
    generate_embedding E text w =
      (Ok (embedding_of E text),
       mkWorld (graph w) (faults w) (clock w) (embed_calls w ++ [text]) out).
Proof.
  unfold generate_embedding, embedding_of, bind, log_embed, print, ret.
  destruct (is_blank text); [eexists; reflexivity|].
  destruct (model_encode E text); eexists; reflexivity.
Qed.

Lemma embedding_of_length (E : EmbeddingsGenerator) (text : string) :
  model_contract E -> length (embedding_of E text) = dimension E.
Proof.
  intros Hc. unfold embedding_of, zero_vector.
  destruct (is_blank text); [apply repeat_length|].
  destruct (model_encode E text) eqn:He; [apply (Hc _ _ He) | apply repeat_length].
Qed.

Lemma embedding_of_zero (E : EmbeddingsGenerator) (text : string) :
  is_blank text = true \/ model_encode E text = None ->
  embedding_of E text = zero_vector (dimension E).
Proof.
  unfold embedding_of. intros [H|H]; rewrite H; [reflexivity|].
  destruct (is_blank text); reflexivity.
Qed.

(** ** Creating questions and chunks *)

Lemma create_question_rows (mk : node_id -> QuestionNode) (ts : list TopicNode) :
  forall (g : Graph) (rows : list QuestionNode),
  exists new,
    snd (fold_left (create_question_row mk) ts (g, rows)) = rows ++ new /\
    questions (fst (fold_left (create_question_row mk) ts (g, rows))) =
      questions g ++ new /\
    length new = length ts /\
    Forall (fun q => exists id, q = mk id) new /\
    same_but_questions g (fst (fold_left (create_question_row mk) ts (g, rows))).
Proof.
  induction ts as [|t ts IH]; intros g rows; simpl.
  - exists []. rewrite !app_nil_r. repeat split; auto.
  - match goal with |- context [fold_left _ ts (?g1, ?r1)] =>
      destruct (IH g1 r1) as (new & Hr & Hq & Hl & Hf & Hs) end.
    exists (mk (next_id g) :: new). rewrite Hr, Hq. simpl.
    rewrite <- !app_assoc. simpl. repeat split; auto.
    + constructor; [eexists; reflexivity | exact Hf].
    + apply Hs.
    + apply Hs.
    + apply Hs.
    + apply Hs.
    + apply Hs.
Qed.

Lemma create_chunk_rows (mk : node_id -> ChunkNode) (ts : list TopicNode) :
  forall (g : Graph) (rows : list ChunkNode),
  exists new,
    snd (fold_left (create_chunk_row mk) ts (g, rows)) = rows ++ new /\
    chunks (fst (fold_left (create_chunk_row mk) ts (g, rows))) =
      chunks g ++ new /\
    length new = length ts /\
    Forall (fun c => exists id, c = mk id) new /\
    same_but_chunks g (fst (fold_left (create_chunk_row mk) ts (g, rows))).
Proof.
  induction ts as [|t ts IH]; intros g rows; simpl.
  - exists []. rewrite !app_nil_r. repeat split; auto.
  - match goal with |- context [fold_left _ ts (?g1, ?r1)] =>
      destruct (IH g1 r1) as (new & Hr & Hq & Hl & Hf & Hs) end.
    exists (mk (next_id g) :: new). rewrite Hr, Hq. simpl.
    rewrite <- !app_assoc. simpl. repeat split; auto.
    + constructor; [eexists; reflexivity | exact Hf].
    + apply Hs.
    + apply Hs.
    + apply Hs.
    + apply Hs.
    + apply Hs.
Qed.

Lemma unique_topic_at_most_one (name subject : string) (l : list TopicNode) :
  NoDup (map (fun t => (t_name t, t_subject t)) l) ->
  length (filter (topic_matches name subject) l) <= 1.
Proof.
  induction l as [|t l IH]; simpl; intros Hnd; [lia|].
  inversion Hnd as [|k ks Hnotin Hnd']; subst.
  destruct (topic_matches name subject t) eqn:Ht; [|auto].
  simpl. enough (filter (topic_matches name subject) l = []) as -> by (simpl; lia).
  apply existsb_false_filter.
  destruct (existsb (topic_matches name subject) l) eqn:Hex; [|reflexivity].
  exfalso. apply Hnotin. apply existsb_exists in Hex as (t' & Hin & Ht').
  unfold topic_matches in Ht, Ht'.
  apply andb_true_iff in Ht as [Hn Hs]. apply andb_true_iff in Ht' as [Hn' Hs'].
  apply String.eqb_eq in Hn, Hs, Hn', Hs'.
  apply in_map_iff. exists t'. split; [|exact Hin]. congruence.
Qed.

(** C1.  When no Topic node carries the record's (subject, topic) pair,
    [create_question] leaves the graph as it was, so the node count of every
    label is unchanged, and it never returns a created node: it returns
    [None] after printing the missing topic when the backend answers the
    look-up, and raises the backend's error otherwise. *)
Theorem create_question_unknown_topic_rejected
  (E : EmbeddingsGenerator) (question : question_data) (w : World) :
  topic_exists (graph w) (qd_subject question) (qd_topic question) = false ->
  graph (snd (create_question E question w)) = graph w /\
  (forall l, count_nodes l (graph (snd (create_question E question w)))
             = count_nodes l (graph w)) /\
  (forall q, fst (create_question E question w) <> Ok (Some q)) /\
  fst (create_question E question w)
    = (if next_ok w then Ok None else Raise BackendError) /\
  (next_ok w = true ->
   stdout (snd (create_question E question w))
     = stdout w ++ [TopicNotFound (qd_topic question) (qd_subject question)]).
Proof.
  intros Hno. unfold topic_exists in Hno.
  apply existsb_false_filter in Hno.
  unfold create_question, bind.
  destruct (next_ok w) eqn:Hok.
  - rewrite run_query_ok by exact Hok. unfold cypher_match_topic. simpl.
    rewrite Hno. simpl. repeat split; auto; discriminate.
  - rewrite run_query_fault by exact Hok. simpl.
    repeat split; auto; discriminate.
Qed.

Lemma create_question_unknown_topic_rejected_witness :
  topic_exists (graph (world_of sorting_graph)) (qd_subject orphan_question)
    (qd_topic orphan_question) = false /\
  graph (snd (create_question unit_embedder orphan_question
                (world_of sorting_graph))) = sorting_graph.
Proof.
  split; [reflexivity|].
  apply (create_question_unknown_topic_rejected unit_embedder orphan_question
           (world_of sorting_graph)).
  reflexivity.
Defined.

(** ** The batch loader *)

Lemma create_question_healthy (E : EmbeddingsGenerator)
  (question : question_data) (w : World) :
  healthy w = true -> topic_keys_unique (graph w) ->
  healthy (snd (create_question E question w)) = true /\
  same_but_questions (graph w) (graph (snd (create_question E question w))) /\
  if precondition_fails (graph w) question
  then fst (create_question E question w) = Ok None /\
       questions (graph (snd (create_question E question w)))
         = questions (graph w)
  else exists q,
       fst (create_question E question w) = Ok (Some q) /\
       questions (graph (snd (create_question E question w)))
         = questions (graph w) ++ [q].
Proof.
  intros Hh Hu. unfold precondition_fails, topic_exists.
  unfold create_question, bind.
  rewrite run_query_ok by (apply healthy_next_ok; exact Hh).
  unfold cypher_match_topic at 1 2 3 4 5. simpl.
  pose proof (unique_topic_at_most_one (qd_topic question)
                (qd_subject question) (topics (graph w)) Hu) as Hle.
  destruct (existsb (topic_matches (qd_topic question) (qd_subject question))
              (topics (graph w))) eqn:Hex; simpl.
  - apply existsb_true_filter in Hex.
    destruct (filter (topic_matches (qd_topic question) (qd_subject question))
                (topics (graph w))) as [|t ts] eqn:Hf; [congruence|].
    destruct ts as [|t' ts]; [|simpl in Hle; lia].
    match goal with |- context [generate_embedding E ?txt ?w0] =>
      destruct (generate_embedding_run E txt w0) as (out & Hg); rewrite Hg end.
    simpl.
    rewrite run_query_ok by
      (apply healthy_next_ok; simpl; apply (healthy_tl _ w); exact Hh).
    unfold cypher_create_question. simpl. rewrite Hf. simpl.
    repeat split; try reflexivity.
    + unfold healthy in *. simpl.
      destruct (faults w) as [|b [|b' r]]; simpl in *; auto.
      apply andb_true_iff in Hh as [_ Hh].
      apply andb_true_iff in Hh as [_ Hh]. exact Hh.
    + eexists. split; reflexivity.
  - apply existsb_false_filter in Hex. rewrite Hex. simpl.
    repeat split; try reflexivity.
    apply (healthy_tl _ w). exact Hh.
Qed.

Lemma load_pyqs_loop_cons (E : EmbeddingsGenerator) (question : question_data)
  (rest : list question_data) (s f : nat) (w : World) :
  load_pyqs_loop E (question :: rest) s f w =
    match create_question E question w with
    | (Ok (Some _), w1) => load_pyqs_loop E rest (S s) f w1
    | (Ok None, w1) => load_pyqs_loop E rest s (S f) w1
    | (Raise _, w1) =>
        load_pyqs_loop E rest s (S f)
          (mkWorld (graph w1) (faults w1) (clock w1) (embed_calls w1)
             (stdout w1 ++ [ErrorLoadingQuestion]))
    end.
Proof.
  simpl. unfold bind at 1. unfold try_except, bind at 1.
  destruct (create_question E question w) as [[[q|]|e] w1]; reflexivity.
Qed.

Lemma load_pyqs_loop_healthy (E : EmbeddingsGenerator)
  (pyqs : list question_data) :
  forall (w : World) (s f : nat),
  healthy w = true -> topic_keys_unique (graph w) ->
  fst (load_pyqs_loop E pyqs s f w)
    = Ok (s + (length pyqs - length (filter (precondition_fails (graph w)) pyqs)),
          f + length (filter (precondition_fails (graph w)) pyqs)) /\
  healthy (snd (load_pyqs_loop E pyqs s f w)) = true /\
  length (questions (graph (snd (load_pyqs_loop E pyqs s f w))))
    = length (questions (graph w))
      + (length pyqs - length (filter (precondition_fails (graph w)) pyqs)) /\
  same_but_questions (graph w) (graph (snd (load_pyqs_loop E pyqs s f w))).
Proof.
  induction pyqs as [|question rest IH]; intros w s f Hh Hu.
  - simpl. rewrite !Nat.add_0_r. repeat split; auto.
  - pose proof (filter_length_le (precondition_fails (graph w)) rest) as Hle.
    destruct (create_question_healthy E question w Hh Hu) as (Hh1 & Hs1 & Hcase).
    assert (Hu1 : topic_keys_unique (graph (snd (create_question E question w)))).
    { unfold topic_keys_unique.
      destruct Hs1 as (_ & Ht & _). rewrite Ht. exact Hu. }
    assert (Hpf : filter (precondition_fails (graph (snd (create_question E question w)))) rest
                  = filter (precondition_fails (graph w)) rest).
    { unfold precondition_fails, topic_exists.
      destruct Hs1 as (_ & Ht & _). rewrite Ht. reflexivity. }
    rewrite load_pyqs_loop_cons.
    destruct (create_question E question w) as [r w1] eqn:Hc.
    cbn [fst snd] in *. cbn [filter].
    destruct (precondition_fails (graph w) question) eqn:Hp; cbn [length].
    + destruct Hcase as [Ho Hq]. subst r.
      destruct (IH w1 s (S f) Hh1 Hu1) as (Hr & Hh2 & Hl & Hs2).
      rewrite Hpf in Hr, Hl. rewrite Hr, Hl, Hq.
      destruct Hs1 as (? & ? & ? & ? & ?), Hs2 as (? & ? & ? & ? & ?).
      repeat split; try congruence.
      apply f_equal. apply f_equal2; lia.
    + destruct Hcase as (q & Ho & Hq). subst r.
      destruct (IH w1 (S s) f Hh1 Hu1) as (Hr & Hh2 & Hl & Hs2).
      rewrite Hpf in Hr, Hl. rewrite Hr, Hl, Hq, length_app. cbn [length].
      destruct Hs1 as (? & ? & ? & ? & ?), Hs2 as (? & ? & ? & ? & ?).
      repeat split; try congruence; try lia.
      apply f_equal. apply f_equal2; lia.
Qed.

(** Whatever the backend does, the loop goes through the whole batch and
    counts every record once. *)
Lemma load_pyqs_loop_total (E : EmbeddingsGenerator)
  (pyqs : list question_data) :
  forall (w : World) (s f : nat),
  exists s' f',
    fst (load_pyqs_loop E pyqs s f w) = Ok (s', f') /\
    s' + f' = s + f + length pyqs.
Proof.
  induction pyqs as [|question rest IH]; intros w s f.
  - exists s, f. simpl. split; [reflexivity | lia].
  - rewrite load_pyqs_loop_cons.
    destruct (create_question E question w) as [[[q|]|e] w1].
    + destruct (IH w1 (S s) f) as (s' & f' & H1 & H2).
      exists s', f'. split; [exact H1 | simpl; lia].
    + destruct (IH w1 s (S f)) as (s' & f' & H1 & H2).
      exists s', f'. split; [exact H1 | simpl; lia].
    + match goal with |- context [load_pyqs_loop E rest s (S f) ?w2] =>
        destruct (IH w2 s (S f)) as (s' & f' & H1 & H2) end.
      exists s', f'. split; [exact H1 | simpl; lia].
Qed.

Lemma load_pyqs_unfold (E : EmbeddingsGenerator)
  (pyqs_data : list question_data) (w : World) :
  load_pyqs E pyqs_data w =
    match load_pyqs_loop E pyqs_data 0 0
            (mkWorld (graph w) (faults w) (clock w) (embed_calls w)
               (stdout w ++ [LoadingPyqs])) with
    | (Ok counts, w1) =>
        (Ok tt,
         mkWorld (graph w1) (faults w1) (clock w1) (embed_calls w1)
           (stdout w1 ++ [LoadedQuestions (fst counts) (snd counts)]))
    | (Raise e, w1) => (Raise e, w1)
    end.
Proof. reflexivity. Qed.

(** The loop over a batch is the loop over its first part followed by the
    loop over the rest, from the counts and the world the first part left. *)
Lemma load_pyqs_loop_app (E : EmbeddingsGenerator)
  (before after : list question_data) :
  forall (w : World) (s f : nat),
  load_pyqs_loop E (before ++ after) s f w =
    match load_pyqs_loop E before s f w with
    | (Ok counts, w1) => load_pyqs_loop E after (fst counts) (snd counts) w1
    | (Raise e, w1) => (Raise e, w1)
    end.
Proof.
  induction before as [|question before IH]; intros w s f; [reflexivity|].
  cbn [app]. rewrite !load_pyqs_loop_cons.
  destruct (create_question E question w) as [[[q|]|e] w1]; apply IH.
Qed.

(** What [load_pyqs] leaves: the world the loop left, and the closing line. *)
Lemma load_pyqs_run (E : EmbeddingsGenerator) (pyqs_data : list question_data)
  (w : World) :
  exists s f wm,
    load_pyqs_loop E pyqs_data 0 0
      (mkWorld (graph w) (faults w) (clock w) (embed_calls w)
         (stdout w ++ [LoadingPyqs])) = (Ok (s, f), wm) /\
    load_pyqs E pyqs_data w =
      (Ok tt,
       mkWorld (graph wm) (faults wm) (clock wm) (embed_calls wm)
         (stdout wm ++ [LoadedQuestions s f])).
Proof.
  rewrite load_pyqs_unfold.
  set (w0 := mkWorld (graph w) (faults w) (clock w) (embed_calls w)
               (stdout w ++ [LoadingPyqs])).
  destruct (load_pyqs_loop_total E pyqs_data w0 0 0) as (s & f & Hr & _).
  destruct (load_pyqs_loop E pyqs_data 0 0 w0) as [r wm].
  cbn [fst] in Hr. subst r. exists s, f, wm. split; reflexivity.
Qed.

(** Whatever happened to the first part of a batch, once the backend answers
    the rest is loaded as a batch of its own, on top of the counts so far. *)
Lemma load_pyqs_resumes (E : EmbeddingsGenerator)
  (before after : list question_data) (w : World) :
  healthy (snd (load_pyqs E before w)) = true ->
  topic_keys_unique (graph (snd (load_pyqs E before w))) ->
  exists s1 f1,
    last (stdout (snd (load_pyqs E before w))) LoadingPyqs
      = LoadedQuestions s1 f1 /\
    s1 + f1 = length before /\
    last (stdout (snd (load_pyqs E (before ++ after) w))) LoadingPyqs
      = LoadedQuestions
          (s1 + (length after
                 - length (filter (precondition_fails
                                     (graph (snd (load_pyqs E before w))))
                             after)))
          (f1 + length (filter (precondition_fails
                                  (graph (snd (load_pyqs E before w))))
                          after)) /\
    count_nodes Question (graph (snd (load_pyqs E (before ++ after) w)))
      = count_nodes Question (graph (snd (load_pyqs E before w)))
        + (length after
           - length (filter (precondition_fails
                               (graph (snd (load_pyqs E before w))))
                       after)).
Proof.
  rewrite (load_pyqs_unfold E (before ++ after)).
  destruct (load_pyqs_run E before w) as (s1 & f1 & wm & Hloop & ->).
  cbn [snd graph stdout]. intros Hh Hu.
  assert (Hhm : healthy wm = true) by exact Hh.
  pose proof (load_pyqs_loop_total E before
                (mkWorld (graph w) (faults w) (clock w) (embed_calls w)
                   (stdout w ++ [LoadingPyqs])) 0 0) as (s' & f' & Hr & Hsum).
  rewrite Hloop in Hr. cbn [fst] in Hr. injection Hr as <- <-.
  exists s1, f1. rewrite last_last. split; [reflexivity|].
  split; [cbn [length] in Hsum; lia|].
  rewrite load_pyqs_loop_app, Hloop. cbn [fst snd].
  destruct (load_pyqs_loop_healthy E after wm s1 f1 Hhm Hu)
    as (Hr & _ & Hl & _).
  destruct (load_pyqs_loop E after s1 f1 wm) as [r w2].
  cbn [fst snd] in Hr, Hl. subst r. cbn [fst snd stdout graph].
  rewrite last_last. split; [reflexivity | exact Hl].
Qed.

(** A record whose look-up the backend refuses is counted as failed, after
    the line of the handler; the graph is as it was. *)
Lemma load_pyqs_refused_record (E : EmbeddingsGenerator)
  (question : question_data) (w : World) :
  next_ok w = false ->
  load_pyqs E [question] w =
    (Ok tt,
     mkWorld (graph w) (tl (faults w)) (clock w) (embed_calls w)
       (stdout w ++ [LoadingPyqs; QueryExecutionError; ErrorLoadingQuestion;
                     LoadedQuestions 0 1])).
Proof.
  intros Hf. rewrite load_pyqs_unfold, load_pyqs_loop_cons.
  unfold create_question, bind.
  rewrite run_query_fault by exact Hf.
  cbn [load_pyqs_loop ret fst snd graph faults clock embed_calls stdout].
  rewrite <- !app_assoc. reflexivity.
Qed.

(** C2, the claim as stated fails.  The counts are not handed to the caller:
    [load_pyqs] returns the same nothing for a batch that loads and for one
    that fails, and only its last printed line tells them apart.  Nor do the
    counts depend on the precondition alone: of two records that both name an
    existing topic, the one whose look-up the backend refuses is reported as
    failed, and one Question node is added, not two. *)
Lemma load_pyqs_counts_only_printed :
  fst (load_pyqs unit_embedder [merge_sort_question] (world_of sorting_graph))
    = Ok tt /\
  fst (load_pyqs unit_embedder [orphan_question] (world_of sorting_graph))
    = Ok tt /\
  last (stdout (snd (load_pyqs unit_embedder [merge_sort_question]
                       (world_of sorting_graph)))) LoadingPyqs
    = LoadedQuestions 1 0 /\
  last (stdout (snd (load_pyqs unit_embedder [orphan_question]
                       (world_of sorting_graph)))) LoadingPyqs
    = LoadedQuestions 0 1 /\
  filter (precondition_fails sorting_graph)
    [merge_sort_question; merge_sort_question] = [] /\
  last (stdout (snd (load_pyqs unit_embedder
                       [merge_sort_question; merge_sort_question]
                       (failing_world sorting_graph)))) LoadingPyqs
    = LoadedQuestions 1 1 /\
  count_nodes Question
    (graph (snd (load_pyqs unit_embedder
                   [merge_sort_question; merge_sort_question]
                   (failing_world sorting_graph))))
    = count_nodes Question sorting_graph + 1.
Proof. repeat split; vm_compute; reflexivity. Qed.

(** C2, amended.  [load_pyqs] goes through the whole batch whatever happens
    to a record: it never raises, it returns nothing, and the two counts on
    its last printed line add up to the batch size N.  Each record is handled
    on its own: whatever happened to the first records of a batch, missing
    topics or backend errors in any number, once the backend answers the
    remaining records are loaded as a batch of their own, on top of the
    counts so far.  On a backend that answers, with Topic keys unique, if M
    records of the batch fail the topic-existence precondition then the line
    reports N - M loaded and M failed, exactly N - M Question nodes are
    added, and no other label's count changes.  A record whose look-up the
    backend refuses is counted as failed after the handler's line, and leaves
    the graph as it was. *)
Theorem load_pyqs_partial_failure (E : EmbeddingsGenerator)
  (pyqs_data : list question_data) (w : World) :
  (fst (load_pyqs E pyqs_data w) = Ok tt /\
   exists s f,
     last (stdout (snd (load_pyqs E pyqs_data w))) LoadingPyqs
       = LoadedQuestions s f /\
     s + f = length pyqs_data) /\
  (healthy w = true -> topic_keys_unique (graph w) ->
   let m := length (filter (precondition_fails (graph w)) pyqs_data) in
   let n := length pyqs_data in
   last (stdout (snd (load_pyqs E pyqs_data w))) LoadingPyqs
     = LoadedQuestions (n - m) m /\
   count_nodes Question (graph (snd (load_pyqs E pyqs_data w)))
     = count_nodes Question (graph w) + (n - m) /\
   (forall l, l <> Question ->
      count_nodes l (graph (snd (load_pyqs E pyqs_data w)))
        = count_nodes l (graph w))) /\
  (forall before after,
   pyqs_data = before ++ after ->
   let w1 := snd (load_pyqs E before w) in
   healthy w1 = true -> topic_keys_unique (graph w1) ->
   let m := length (filter (precondition_fails (graph w1)) after) in
   let n := length after in
   exists s1 f1,
     last (stdout w1) LoadingPyqs = LoadedQuestions s1 f1 /\
     s1 + f1 = length before /\
     last (stdout (snd (load_pyqs E pyqs_data w))) LoadingPyqs
       = LoadedQuestions (s1 + (n - m)) (f1 + m) /\
     count_nodes Question (graph (snd (load_pyqs E pyqs_data w)))
       = count_nodes Question (graph w1) + (n - m)) /\
  (forall question,
   next_ok w = false ->
   graph (snd (load_pyqs E [question] w)) = graph w /\
   stdout (snd (load_pyqs E [question] w))
     = stdout w ++ [LoadingPyqs; QueryExecutionError; ErrorLoadingQuestion;
                    LoadedQuestions 0 1]).
Proof.
  split; [|split; [|split]].
  - rewrite load_pyqs_unfold.
    set (w0 := mkWorld (graph w) (faults w) (clock w) (embed_calls w)
                 (stdout w ++ [LoadingPyqs])).
    destruct (load_pyqs_loop_total E pyqs_data w0 0 0) as (s & f & Hr & Hsum).
    destruct (load_pyqs_loop E pyqs_data 0 0 w0) as [r w1].
    cbn [fst] in Hr. subst r. cbn [fst snd stdout].
    split; [reflexivity|]. exists s, f. rewrite last_last. auto.
  - rewrite load_pyqs_unfold.
    set (w0 := mkWorld (graph w) (faults w) (clock w) (embed_calls w)
                 (stdout w ++ [LoadingPyqs])).
    intros Hh Hu m n.
    destruct (load_pyqs_loop_healthy E pyqs_data w0 0 0 Hh Hu)
      as (Hr & _ & Hl & Hs).
    destruct (load_pyqs_loop E pyqs_data 0 0 w0) as [r w1].
    cbn [fst snd graph w0] in *. subst r. cbn [fst snd stdout graph].
    rewrite last_last. repeat split.
    + exact Hl.
    + intros l Hne. destruct Hs as (? & ? & ? & ? & ?).
      destruct l; cbn [count_nodes]; congruence.
  - intros before after -> w1 Hh Hu m n.
    apply (load_pyqs_resumes E before after w Hh Hu).
  - intros question Hf. rewrite load_pyqs_refused_record by exact Hf.
    split; reflexivity.
Qed.

Lemma load_pyqs_partial_failure_witness :
  healthy (snd (load_pyqs unit_embedder [merge_sort_question]
                  (failing_world sorting_graph))) = true /\
  topic_keys_unique
    (graph (snd (load_pyqs unit_embedder [merge_sort_question]
                   (failing_world sorting_graph)))) /\
  exists s1 f1,
    last (stdout (snd (load_pyqs unit_embedder [merge_sort_question]
                         (failing_world sorting_graph)))) LoadingPyqs
      = LoadedQuestions s1 f1 /\
    s1 + f1 = 1 /\
    last (stdout (snd (load_pyqs unit_embedder
                         [merge_sort_question; merge_sort_question;
                          orphan_question; merge_sort_question]
                         (failing_world sorting_graph)))) LoadingPyqs
      = LoadedQuestions (s1 + (3 - 1)) (f1 + 1) /\
    count_nodes Question
      (graph (snd (load_pyqs unit_embedder
                     [merge_sort_question; merge_sort_question;
                      orphan_question; merge_sort_question]
                     (failing_world sorting_graph))))
      = 0 + (3 - 1).
Proof.
  assert (Hu : topic_keys_unique
                 (graph (snd (load_pyqs unit_embedder [merge_sort_question]
                                (failing_world sorting_graph))))).
  { unfold topic_keys_unique. cbn.
    constructor; [intros [] | constructor]. }
  split; [reflexivity | split; [exact Hu|]].
  apply (proj1 (proj2 (proj2 (load_pyqs_partial_failure unit_embedder
                  [merge_sort_question; merge_sort_question; orphan_question;
                   merge_sort_question]
                  (failing_world sorting_graph))))
           [merge_sort_question]
           [merge_sort_question; orphan_question; merge_sort_question]
           eq_refl eq_refl Hu).
Defined.

(** ** Stored embeddings *)

Ltac step_query :=
  match goal with
  | |- context [run_query ?q ?w0] =>
      let Hok := fresh "Hok" in
      destruct (next_ok w0) eqn:Hok;
      [ rewrite (run_query_ok _ q w0 Hok)
      | rewrite (run_query_fault _ q w0 Hok) ]
  end.

Ltac step_embedding E :=
  match goal with
  | |- context [generate_embedding E ?txt ?w0] =>
      let out := fresh "out" in
      let Hg := fresh "Hg" in
      destruct (generate_embedding_run E txt w0) as (out & Hg); rewrite Hg
  end.

Lemma hd_error_in (A : Type) (l : list A) (x : A) :
  hd_error l = Some x -> In x l.
Proof. destruct l; simpl; [discriminate|]. intros [= ->]. now left. Qed.

(** The Question nodes a call adds all carry the embedding of the record's
    full text; a returned node is one of them. *)
Lemma create_question_new (E : EmbeddingsGenerator) (question : question_data)
  (w : World) :
  exists new,
    questions (graph (snd (create_question E question w)))
      = questions (graph w) ++ new /\
    (forall q, fst (create_question E question w) = Ok (Some q) -> In q new) /\
    Forall (fun q => q_embedding q = embedding_of E (full_text question)) new.
Proof.
  unfold create_question, bind, ret.
  step_query; cbn [fst snd cypher_match_topic graph clock faults embed_calls stdout].
  - destruct (filter (topic_matches (qd_topic question) (qd_subject question))
                (topics (graph w))) as [|t ts] eqn:Hf.
    + exists []. cbn. rewrite app_nil_r. repeat split; auto; intros; discriminate.
    + step_embedding E. step_query; cbn [fst snd graph clock faults embed_calls stdout].
      * unfold cypher_create_question. rewrite Hf. cbn [fst snd graph clock faults embed_calls stdout].
        match goal with |- context [fold_left (create_question_row ?mk) ?l (?g, [])] =>
          destruct (create_question_rows mk l g []) as (new & Hr & Hq & _ & Hall & _)
        end.
        exists new. rewrite Hr, Hq. cbn [app]. repeat split; auto.
        -- intros q [= Hq']. apply hd_error_in. exact Hq'.
        -- eapply Forall_impl; [|exact Hall].
           intros q [id ->]. reflexivity.
      * exists []. rewrite app_nil_r. repeat split; auto; intros; discriminate.
  - exists []. rewrite app_nil_r. repeat split; auto; intros; discriminate.
Qed.

Lemma create_chunk_new (E : EmbeddingsGenerator) (chunk : chunk_data)
  (w : World) :
  exists new,
    chunks (graph (snd (create_chunk E chunk w))) = chunks (graph w) ++ new /\
    (forall c, fst (create_chunk E chunk w) = Ok (Some c) -> In c new) /\
    Forall (fun c => c_embedding c = chunk_embedding E chunk) new /\
    embed_calls (snd (create_chunk E chunk w))
      = embed_calls w ++ chunk_embed_calls chunk /\
    (healthy w = true ->
     topic_exists (graph w) (cd_subject chunk) (cd_topic chunk) = true ->
     exists c, fst (create_chunk E chunk w) = Ok (Some c)).
Proof.
  unfold create_chunk, chunk_embedding, chunk_embed_calls, topic_exists.
  unfold bind, ret.
  assert (Hemb : exists out,
    (match cd_embedding chunk with
     | Some (x :: v) => fun w0 : World => (Ok (x :: v), w0)
     | _ => generate_embedding E (cd_text chunk)
     end) w
    = (Ok (match cd_embedding chunk with
           | Some (x :: v) => x :: v
           | _ => embedding_of E (cd_text chunk)
           end),
       mkWorld (graph w) (faults w) (clock w)
         (embed_calls w ++ match cd_embedding chunk with
                           | Some (_ :: _) => []
                           | _ => [cd_text chunk]
                           end) out)).
  { destruct (cd_embedding chunk) as [[|x v]|];
      try apply generate_embedding_run.
    exists (stdout w). rewrite app_nil_r. destruct w; reflexivity. }
  destruct Hemb as (out & Hemb). rewrite Hemb.
  set (emb := match cd_embedding chunk with
              | Some (x :: v) => x :: v
              | _ => embedding_of E (cd_text chunk)
              end).
  step_query; cbn [fst snd cypher_match_topic graph clock faults embed_calls stdout].
  - destruct (filter (topic_matches (cd_topic chunk) (cd_subject chunk))
                (topics (graph w))) as [|t ts] eqn:Hf.
    + exists []. cbn. rewrite app_nil_r. repeat split; auto; try (intros; discriminate).
      intros _ Hex. apply existsb_true_filter in Hex. congruence.
    + step_query; cbn [fst snd graph clock faults embed_calls stdout].
      * unfold cypher_create_chunk. rewrite Hf. cbn [fst snd graph clock faults embed_calls stdout].
        match goal with |- context [fold_left (create_chunk_row ?mk) ?l (?g, [])] =>
          destruct (create_chunk_rows mk l g []) as (new & Hr & Hq & Hl & Hall & _)
        end.
        exists new. rewrite Hr, Hq. cbn [app]. repeat split; auto.
        -- intros c [= Hc']. apply hd_error_in. exact Hc'.
        -- eapply Forall_impl; [|exact Hall].
           intros c [id ->]. reflexivity.
        -- intros _ _. destruct new as [|c new]; [discriminate|].
           exists c. reflexivity.
      * exists []. rewrite app_nil_r. repeat split; auto; try (intros; discriminate).
        intros Hh _. exfalso.
        unfold next_ok, healthy in *. cbn [faults] in *.
        destruct (faults w) as [|b [|[|] r]]; cbn in *; try discriminate.
        rewrite andb_false_r in Hh. discriminate.
  - exists []. rewrite app_nil_r. repeat split; auto; try (intros; discriminate).
    intros Hh _. apply healthy_next_ok in Hh.
    unfold next_ok in *. cbn [faults] in *. congruence.
Qed.

Lemma unit_embedder_contract : model_contract unit_embedder.
Proof. intros text v [= <-]. reflexivity. Qed.

(** C3, the claim as stated fails: a chunk record that carries its own
    embedding of one float is stored with that one-float vector, although the
    embedder's dimension is 384. *)
Lemma short_chunk_embedding_stored :
  model_contract unit_embedder /\
  dimension unit_embedder = 384 /\
  exists c,
    fst (create_chunk unit_embedder short_chunk (world_of sorting_graph))
      = Ok (Some c) /\
    In c (chunks (graph (snd (create_chunk unit_embedder short_chunk
                                (world_of sorting_graph))))) /\
    length (c_embedding c) = 1.
Proof.
  split; [exact unit_embedder_contract|]. split; [reflexivity|].
  eexists. split; [vm_compute; reflexivity|]. split; [|reflexivity].
  vm_compute. left. reflexivity.
Qed.

(** C3, amended.  With a model that encodes into [self.dimension] floats,
    every Question node [create_question] adds, and every Chunk node
    [create_chunk] adds for a record whose embedding is absent, empty or of
    length [self.dimension], stores an embedding of exactly that length; when
    the embedded text is blank or the model raises, the embedding computed by
    the builder is the all-zero vector of that length.  A non-empty embedding
    that comes with a chunk record is stored as it is, whatever its length. *)
Theorem stored_embedding_dimension (E : EmbeddingsGenerator) (w : World) :
  model_contract E ->
  (forall question,
   exists new,
     questions (graph (snd (create_question E question w)))
       = questions (graph w) ++ new /\
     (forall q, fst (create_question E question w) = Ok (Some q) -> In q new) /\
     Forall (fun q =>
               length (q_embedding q) = dimension E /\
               (is_blank (full_text question) = true \/
                model_encode E (full_text question) = None ->
                q_embedding q = zero_vector (dimension E))) new) /\
  (forall chunk,
   cd_embedding chunk = None \/ cd_embedding chunk = Some [] \/
   (exists v, cd_embedding chunk = Some v /\ length v = dimension E) ->
   exists new,
     chunks (graph (snd (create_chunk E chunk w))) = chunks (graph w) ++ new /\
     (forall c, fst (create_chunk E chunk w) = Ok (Some c) -> In c new) /\
     Forall (fun c =>
               length (c_embedding c) = dimension E /\
               (cd_embedding chunk = None \/ cd_embedding chunk = Some [] ->
                is_blank (cd_text chunk) = true \/
                model_encode E (cd_text chunk) = None ->
                c_embedding c = zero_vector (dimension E))) new) /\
  (forall chunk x v,
   cd_embedding chunk = Some (x :: v) ->
   exists new,
     chunks (graph (snd (create_chunk E chunk w))) = chunks (graph w) ++ new /\
     (forall c, fst (create_chunk E chunk w) = Ok (Some c) -> In c new) /\
     Forall (fun c => c_embedding c = x :: v) new).
Proof.
  intros Hc. split; [|split].
  - intros question.
    destruct (create_question_new E question w) as (new & Hq & Hin & Hall).
    exists new. repeat split; auto.
    eapply Forall_impl; [|exact Hall]. cbv beta. intros q ->. split.
    + apply embedding_of_length. exact Hc.
    + apply embedding_of_zero.
  - intros chunk Hcase.
    destruct (create_chunk_new E chunk w) as (new & Hq & Hin & Hall & _).
    exists new. repeat split; auto.
    eapply Forall_impl; [|exact Hall]. cbv beta. intros c ->.
    unfold chunk_embedding. split.
    + destruct Hcase as [-> | [-> | (v & -> & Hv)]].
      * apply embedding_of_length. exact Hc.
      * apply embedding_of_length. exact Hc.
      * destruct v; [apply embedding_of_length; exact Hc | exact Hv].
    + intros [-> | ->] Hz; apply embedding_of_zero; exact Hz.
  - intros chunk x v Hsupplied.
    destruct (create_chunk_new E chunk w) as (new & Hq & Hin & Hall & _).
    exists new. unfold chunk_embedding in Hall. rewrite Hsupplied in Hall.
    auto.
Qed.

Lemma stored_embedding_dimension_witness :
  model_contract unit_embedder /\
  exists new,
    chunks (graph (snd (create_chunk unit_embedder blank_chunk
                          (world_of sorting_graph)))) = [] ++ new /\
    (forall c,
       fst (create_chunk unit_embedder blank_chunk (world_of sorting_graph))
         = Ok (Some c) -> In c new) /\
    Forall (fun c =>
              length (c_embedding c) = 384 /\
              (cd_embedding blank_chunk = None \/
               cd_embedding blank_chunk = Some [] ->
               is_blank (cd_text blank_chunk) = true \/
               model_encode unit_embedder (cd_text blank_chunk) = None ->
               c_embedding c = zero_vector 384)) new.
Proof.
  split; [exact unit_embedder_contract|].
  apply (proj1 (proj2 (stored_embedding_dimension unit_embedder
                         (world_of sorting_graph) unit_embedder_contract))
           blank_chunk).
  left. reflexivity.
Defined.

(** White space beyond ASCII is blank too: the model is not asked, although
    it would answer. *)
Example unicode_blank_zero_vector :
  is_blank unicode_blank = true /\
  model_encode unit_embedder unicode_blank = Some (repeat 1%float 384) /\
  exists c,
    fst (create_chunk unit_embedder
           (mkChunkData unicode_blank "Algorithms" "Sorting" None None None
              None) (world_of sorting_graph)) = Ok (Some c) /\
    c_embedding c = zero_vector 384.
Proof.
  split; [reflexivity|]. split; [reflexivity|].
  eexists. split; vm_compute; reflexivity.
Qed.

Example blank_chunk_zero_vector :
  exists c,
    fst (create_chunk broken_embedder blank_chunk (world_of sorting_graph))
      = Ok (Some c) /\
    c_embedding c = zero_vector 384.
Proof. eexists. split; vm_compute; reflexivity. Qed.

Example question_embedding_length :
  exists q,
    fst (create_question unit_embedder merge_sort_question
           (world_of sorting_graph)) = Ok (Some q) /\
    length (q_embedding q) = 384.
Proof. eexists. split; vm_compute; reflexivity. Qed.

(** C7, the claim as stated fails: a record whose embedding key holds the
    empty list does carry the key, yet [create_chunk] hands its text to the
    embedder and stores the computed vector, not the supplied one. *)
Lemma empty_embedding_recomputed :
  cd_embedding empty_embedding_chunk = Some [] /\
  embed_calls (snd (create_chunk unit_embedder empty_embedding_chunk
                      (world_of sorting_graph)))
    = [cd_text empty_embedding_chunk] /\
  exists c,
    fst (create_chunk unit_embedder empty_embedding_chunk
           (world_of sorting_graph)) = Ok (Some c) /\
    c_embedding c = repeat 1%float 384.
Proof.
  split; [reflexivity|]. split; [reflexivity|].
  eexists. split; vm_compute; reflexivity.
Qed.

(** C7, amended.  [create_chunk] hands the record's text to the embedder,
    once, exactly when the record's embedding is absent or empty, and every
    Chunk node it then adds stores the vector the embedder returns for that
    text; when the record carries a non-empty embedding the embedder is not
    called and every Chunk node added stores the supplied vector unchanged.
    With a backend that answers and an existing topic a node is returned. *)
Theorem create_chunk_embedding_source (E : EmbeddingsGenerator)
  (chunk : chunk_data) (w : World) :
  exists new,
    chunks (graph (snd (create_chunk E chunk w))) = chunks (graph w) ++ new /\
    (forall c, fst (create_chunk E chunk w) = Ok (Some c) -> In c new) /\
    (cd_embedding chunk = None \/ cd_embedding chunk = Some [] ->
     embed_calls (snd (create_chunk E chunk w))
       = embed_calls w ++ [cd_text chunk] /\
     Forall (fun c => forall w0,
               fst (generate_embedding E (cd_text chunk) w0)
                 = Ok (c_embedding c)) new) /\
    (forall x v, cd_embedding chunk = Some (x :: v) ->
     embed_calls (snd (create_chunk E chunk w)) = embed_calls w /\
     Forall (fun c => c_embedding c = x :: v) new) /\
    (healthy w = true ->
     topic_exists (graph w) (cd_subject chunk) (cd_topic chunk) = true ->
     exists c, fst (create_chunk E chunk w) = Ok (Some c)).
Proof.
  destruct (create_chunk_new E chunk w) as (new & Hq & Hin & Hall & Hlog & Hex).
  exists new. unfold chunk_embedding, chunk_embed_calls in *.
  repeat split; auto.
  - destruct H as [H | H]; rewrite H in Hlog; exact Hlog.
  - eapply Forall_impl; [|exact Hall]. cbv beta. intros c Hc w0.
    destruct (generate_embedding_run E (cd_text chunk) w0) as (out & ->).
    cbn [fst]. destruct H as [H | H]; rewrite H in Hc; congruence.
  - rewrite H, app_nil_r in Hlog. exact Hlog.
  - rewrite H in Hall. exact Hall.
Qed.

Lemma create_chunk_embedding_source_witness :
  exists new,
    chunks (graph (snd (create_chunk unit_embedder short_chunk
                          (world_of sorting_graph)))) = [] ++ new /\
    embed_calls (snd (create_chunk unit_embedder short_chunk
                        (world_of sorting_graph))) = [] /\
    Forall (fun c => c_embedding c = [1%float]) new /\
    exists c,
      fst (create_chunk unit_embedder short_chunk (world_of sorting_graph))
        = Ok (Some c).
Proof.
  destruct (create_chunk_embedding_source unit_embedder short_chunk
              (world_of sorting_graph))
    as (new & Hq & _ & _ & Hsupplied & Hex).
  exists new. split; [exact Hq|].
  destruct (Hsupplied 1%float [] eq_refl) as [Hlog Hall].
  split; [exact Hlog|]. split; [exact Hall|].
  apply Hex; reflexivity.
Defined.

(** ** Loading the syllabus *)

Lemma existsb_map (A B : Type) (f : B -> bool) (g : A -> B) (l : list A) :
  existsb f (map g l) = existsb (fun x => f (g x)) l.
Proof. induction l as [|x l IH]; simpl; [reflexivity | now rewrite IH]. Qed.

Lemma filter_map_comm (A B : Type) (f : B -> bool) (g : A -> B) (l : list A) :
  filter f (map g l) = map g (filter (fun x => f (g x)) l).
Proof.
  induction l as [|x l IH]; simpl; [reflexivity|].
  destruct (f (g x)); simpl; now rewrite IH.
Qed.

Lemma map_list_prod (A B C D : Type) (f : A -> C) (g : B -> D)
  (a : list A) (b : list B) :
  map (fun r => (f (fst r), g (snd r))) (list_prod a b)
  = list_prod (map f a) (map g b).
Proof.
  induction a as [|x a IH]; simpl; [reflexivity|].
  rewrite map_app, IH, !map_map. reflexivity.
Qed.

Lemma map_set_subject_keys (name description : string) (now : timestamp)
  (l : list SubjectNode) :
  map (fun s => (s_id s, s_name s))
    (map (fun s => if subject_matches name s
                   then set_subject description now s else s) l)
  = map (fun s => (s_id s, s_name s)) l.
Proof.
  rewrite map_map. apply map_ext. intros s.
  destruct (subject_matches name s); reflexivity.
Qed.

Lemma map_set_topic_keys (name subject description : string) (difficulty : Z)
  (now : timestamp) (l : list TopicNode) :
  map (fun t => (t_id t, (t_name t, t_subject t)))
    (map (fun t => if topic_matches name subject t
                   then set_topic description difficulty now t else t) l)
  = map (fun t => (t_id t, (t_name t, t_subject t))) l.
Proof.
  rewrite map_map. apply map_ext. intros t.
  destruct (topic_matches name subject t); reflexivity.
Qed.

Lemma filter_set_topic (name subject description : string) (difficulty : Z)
  (now : timestamp) (l : list TopicNode) :
  map t_id
    (filter (topic_matches name subject)
       (map (fun t => if topic_matches name subject t
                      then set_topic description difficulty now t else t) l))
  = map fst
      (filter (topic_key_matches name subject)
         (map (fun t => (t_id t, (t_name t, t_subject t))) l)).
Proof.
  induction l as [|t l IH]; simpl; [reflexivity|].
  unfold topic_key_matches at 1. simpl.
  fold (topic_matches name subject t).
  destruct (topic_matches name subject t) eqn:Ht; simpl.
  - unfold topic_matches at 1. simpl. fold (topic_matches name subject t).
    rewrite Ht. simpl. now rewrite IH.
  - rewrite Ht. exact IH.
Qed.

Lemma edge_rows (name subject description : string) (difficulty : Z)
  (now : timestamp) (ss : list SubjectNode) (l : list TopicNode) :
  map (fun r => (s_id (fst r), t_id (snd r)))
    (list_prod ss
       (filter (topic_matches name subject)
          (map (fun t => if topic_matches name subject t
                         then set_topic description difficulty now t else t)
             l)))
  = list_prod (map fst (map (fun s => (s_id s, s_name s)) ss))
      (map fst
         (filter (topic_key_matches name subject)
            (map (fun t => (t_id t, (t_name t, t_subject t))) l))).
Proof.
  rewrite map_list_prod, filter_set_topic, map_map. reflexivity.
Qed.

(** The query of a call acts on the skeleton as [skel_op] says. *)
Lemma skeleton_apply_op (now : timestamp) (o : syllabus_op) (g : Graph) :
  skeleton (apply_op now o g) = skel_op o (skeleton g).
Proof.
  destruct o as [name description | sn tn description difficulty]; simpl.
  - unfold cypher_create_subject, skel_subject, skeleton. simpl.
    rewrite existsb_map.
    change (fun x : SubjectNode => subject_key_matches name (s_id x, s_name x))
      with (subject_matches name).
    destruct (existsb (subject_matches name) (subjects g)); simpl.
    + rewrite map_set_subject_keys. reflexivity.
    + rewrite map_set_subject_keys, map_app. reflexivity.
  - assert (Hs : filter (subject_key_matches sn) (sk_subjects (skeleton g))
                 = map (fun s => (s_id s, s_name s))
                     (filter (subject_matches sn) (subjects g)))
      by apply filter_map_comm.
    assert (Ht : existsb (topic_key_matches tn sn) (sk_topics (skeleton g))
                 = existsb (topic_matches tn sn) (topics g))
      by apply existsb_map.
    unfold cypher_create_topic, skel_topic. rewrite Hs, Ht.
    destruct (filter (subject_matches sn) (subjects g)) as [|s ss] eqn:Hss;
      [reflexivity|].
    destruct (existsb (topic_matches tn sn) (topics g));
      unfold skeleton; cbn -[list_prod fold_left filter];
      rewrite map_set_topic_keys, edge_rows.
    + reflexivity.
    + rewrite !map_app. reflexivity.
Qed.

Lemma skeleton_apply_ops (os : list syllabus_op) :
  forall (now : timestamp) (g : Graph),
  skeleton (apply_ops now os g) = skel_ops os (skeleton g).
Proof.
  induction os as [|o os IH]; intros now g; simpl; [reflexivity|].
  rewrite IH, skeleton_apply_op. reflexivity.
Qed.

(** *** Calls on the skeleton *)

Lemma edge_eqb_refl (e : edge) : edge_eqb e e = true.
Proof. unfold edge_eqb. now rewrite !Nat.eqb_refl. Qed.

Lemma has_subject_existsb (name : string) (k : Skeleton) :
  existsb (subject_key_matches name) (sk_subjects k) = true <-> has_subject name k.
Proof.
  unfold has_subject. rewrite existsb_exists. split.
  - intros ([id n] & Hin & Hm). unfold subject_key_matches in Hm.
    apply String.eqb_eq in Hm. simpl in Hm. subst n. now exists id.
  - intros (id & Hin). exists (id, name). split; [exact Hin|].
    unfold subject_key_matches. apply String.eqb_refl.
Qed.

Lemma topic_key_matches_iff (name subject : string)
  (k : node_id * (string * string)) :
  topic_key_matches name subject k = true <-> snd k = (name, subject).
Proof.
  destruct k as [id [n s]]. unfold topic_key_matches. simpl.
  rewrite andb_true_iff, !String.eqb_eq. split.
  - intros [-> ->]. reflexivity.
  - intros [= -> ->]. auto.
Qed.

Lemma has_topic_key_existsb (subject_name topic_name : string) (k : Skeleton) :
  existsb (topic_key_matches topic_name subject_name) (sk_topics k) = true
  <-> has_topic_key subject_name topic_name k.
Proof.
  unfold has_topic_key. rewrite existsb_exists. split.
  - intros ([id key] & Hin & Hm). apply topic_key_matches_iff in Hm.
    simpl in Hm. subst key. now exists id.
  - intros (id & Hin). exists (id, (topic_name, subject_name)).
    split; [exact Hin|]. now apply topic_key_matches_iff.
Qed.

Lemma merge_edge_keeps (es : list edge) (e e' : edge) :
  existsb (edge_eqb e') es = true ->
  existsb (edge_eqb e') (merge_edge es e) = true.
Proof.
  unfold merge_edge. intros H.
  destruct (existsb (edge_eqb e) es); [exact H|].
  rewrite existsb_app, H. reflexivity.
Qed.

Lemma merge_edge_adds (es : list edge) (e : edge) :
  existsb (edge_eqb e) (merge_edge es e) = true.
Proof.
  unfold merge_edge. destruct (existsb (edge_eqb e) es) eqn:H; [exact H|].
  rewrite existsb_app. simpl. rewrite edge_eqb_refl. apply orb_true_r.
Qed.

Lemma fold_merge_keeps (pairs : list edge) :
  forall (es : list edge) (e : edge),
  existsb (edge_eqb e) es = true ->
  existsb (edge_eqb e) (fold_left merge_edge pairs es) = true.
Proof.
  induction pairs as [|p pairs IH]; intros es e H; simpl; [exact H|].
  apply IH. apply merge_edge_keeps. exact H.
Qed.

Lemma fold_merge_adds (pairs : list edge) :
  forall (es : list edge) (e : edge),
  In e pairs -> existsb (edge_eqb e) (fold_left merge_edge pairs es) = true.
Proof.
  induction pairs as [|p pairs IH]; intros es e Hin; simpl; [destruct Hin|].
  destruct Hin as [-> | Hin].
  - apply fold_merge_keeps. apply merge_edge_adds.
  - apply IH. exact Hin.
Qed.

Lemma fold_merge_present (pairs : list edge) (es : list edge) :
  (forall e, In e pairs -> existsb (edge_eqb e) es = true) ->
  fold_left merge_edge pairs es = es.
Proof.
  induction pairs as [|p pairs IH]; intros H; simpl; [reflexivity|].
  unfold merge_edge at 2. rewrite (H p) by now left.
  apply IH. intros e He. apply H. now right.
Qed.

Lemma in_subject_ids (name : string) (l : list (node_id * string))
  (id : node_id) :
  In id (map fst (filter (subject_key_matches name) l)) <-> In (id, name) l.
Proof.
  rewrite in_map_iff. split.
  - intros ([id' n] & <- & Hin). apply filter_In in Hin as [Hin Hm].
    unfold subject_key_matches in Hm. apply String.eqb_eq in Hm.
    simpl in *. now subst n.
  - intros Hin. exists (id, name). split; [reflexivity|].
    apply filter_In. split; [exact Hin|].
    unfold subject_key_matches. apply String.eqb_refl.
Qed.

Lemma in_topic_ids (name subject : string)
  (l : list (node_id * (string * string))) (id : node_id) :
  In id (map fst (filter (topic_key_matches name subject) l))
  <-> In (id, (name, subject)) l.
Proof.
  rewrite in_map_iff. split.
  - intros ([id' key] & <- & Hin). apply filter_In in Hin as [Hin Hm].
    apply topic_key_matches_iff in Hm. simpl in *. now subst key.
  - intros Hin. exists (id, (name, subject)). split; [reflexivity|].
    apply filter_In. split; [exact Hin|]. now apply topic_key_matches_iff.
Qed.

(** A call that finds its subject leaves the skeleton alone. *)
Lemma skel_subject_settled (name : string) (k : Skeleton) :
  has_subject name k -> skel_subject name k = k.
Proof.
  intros H. apply has_subject_existsb in H. unfold skel_subject.
  now rewrite H.
Qed.

Lemma skel_subject_settles (name : string) (k : Skeleton) :
  has_subject name (skel_subject name k).
Proof.
  unfold skel_subject.
  destruct (existsb (subject_key_matches name) (sk_subjects k)) eqn:H.
  - now apply has_subject_existsb.
  - exists (sk_next k). simpl. apply in_or_app. right. now left.
Qed.

Lemma skel_topic_settled (subject_name topic_name : string) (k : Skeleton) :
  has_subject subject_name k ->
  has_topic_key subject_name topic_name k ->
  edges_complete subject_name topic_name k ->
  skel_topic subject_name topic_name k = k.
Proof.
  intros Hs Ht He. unfold skel_topic.
  apply has_topic_key_existsb in Ht. rewrite Ht.
  destruct (filter (subject_key_matches subject_name) (sk_subjects k))
    as [|s ss] eqn:Hf; [reflexivity|].
  rewrite <- Hf. rewrite fold_merge_present; [destruct k; reflexivity|].
  intros [sid tid] Hin. apply in_prod_iff in Hin as [Hsid Htid].
  apply in_subject_ids in Hsid. apply in_topic_ids in Htid.
  apply He; assumption.
Qed.

Lemma skel_topic_settles (subject_name topic_name : string) (k : Skeleton) :
  has_subject subject_name k ->
  has_subject subject_name (skel_topic subject_name topic_name k) /\
  has_topic_key subject_name topic_name (skel_topic subject_name topic_name k) /\
  edges_complete subject_name topic_name (skel_topic subject_name topic_name k).
Proof.
  intros Hs. unfold skel_topic.
  destruct (filter (subject_key_matches subject_name) (sk_subjects k))
    as [|s ss] eqn:Hf.
  - exfalso. apply has_subject_existsb in Hs.
    apply existsb_true_filter in Hs. congruence.
  - rewrite <- Hf. clear Hf s ss.
    set (k1 := if existsb (topic_key_matches topic_name subject_name)
                    (sk_topics k)
               then k
               else mkSkeleton (sk_subjects k)
                      (sk_topics k ++ [(sk_next k, (topic_name, subject_name))])
                      (sk_edges k) (S (sk_next k))).
    assert (Hsub : sk_subjects k1 = sk_subjects k)
      by (unfold k1; destruct (existsb _ (sk_topics k)); reflexivity).
    assert (Htop : has_topic_key subject_name topic_name k1).
    { unfold k1.
      destruct (existsb (topic_key_matches topic_name subject_name)
                  (sk_topics k)) eqn:Hex.
      - now apply has_topic_key_existsb.
      - exists (sk_next k). simpl. apply in_or_app. right. now left. }
    split; [|split].
    + destruct Hs as (id & Hin). exists id. simpl. rewrite Hsub. exact Hin.
    + exact Htop.
    + intros sid tid Hsid Htid. simpl in *. rewrite Hsub in Hsid.
      apply fold_merge_adds. apply in_prod_iff. split.
      * rewrite <- Hsub. apply in_subject_ids. rewrite Hsub. exact Hsid.
      * apply in_topic_ids. exact Htid.
Qed.

(** *** What a call has settled stays settled *)

Lemma skel_subject_grows (name : string) (k : Skeleton) :
  sk_topics (skel_subject name k) = sk_topics k /\
  sk_edges (skel_subject name k) = sk_edges k /\
  (sk_subjects (skel_subject name k) = sk_subjects k \/
   (~ has_subject name k /\
    sk_subjects (skel_subject name k) = sk_subjects k ++ [(sk_next k, name)])).
Proof.
  unfold skel_subject.
  destruct (existsb (subject_key_matches name) (sk_subjects k)) eqn:H; simpl.
  - auto.
  - repeat split; auto. right. split; [|reflexivity].
    intros Hs. apply has_subject_existsb in Hs. congruence.
Qed.

Lemma skel_topic_grows (subject_name topic_name : string) (k : Skeleton) :
  sk_subjects (skel_topic subject_name topic_name k) = sk_subjects k /\
  (forall e, existsb (edge_eqb e) (sk_edges k) = true ->
             existsb (edge_eqb e)
               (sk_edges (skel_topic subject_name topic_name k)) = true) /\
  (sk_topics (skel_topic subject_name topic_name k) = sk_topics k \/
   (~ has_topic_key subject_name topic_name k /\
    sk_topics (skel_topic subject_name topic_name k)
      = sk_topics k ++ [(sk_next k, (topic_name, subject_name))])).
Proof.
  unfold skel_topic.
  destruct (filter (subject_key_matches subject_name) (sk_subjects k))
    as [|s ss]; [auto|].
  destruct (existsb (topic_key_matches topic_name subject_name) (sk_topics k))
    eqn:H; simpl.
  - repeat split; auto. intros e He. now apply fold_merge_keeps.
  - repeat split; auto.
    + intros e He. now apply fold_merge_keeps.
    + right. split; [|reflexivity].
      intros Ht. apply has_topic_key_existsb in Ht. congruence.
Qed.

Lemma has_subject_kept (o : syllabus_op) (name : string) (k : Skeleton) :
  has_subject name k -> has_subject name (skel_op o k).
Proof.
  intros (id & Hin). exists id. destruct o as [n d | sn tn d df]; simpl.
  - destruct (skel_subject_grows n k) as (_ & _ & [-> | [_ ->]]);
      [exact Hin | apply in_or_app; now left].
  - destruct (skel_topic_grows sn tn k) as (-> & _). exact Hin.
Qed.

Lemma has_topic_key_kept (o : syllabus_op) (subject_name topic_name : string)
  (k : Skeleton) :
  has_topic_key subject_name topic_name k ->
  has_topic_key subject_name topic_name (skel_op o k).
Proof.
  intros (id & Hin). exists id. destruct o as [n d | sn tn d df]; simpl.
  - destruct (skel_subject_grows n k) as (-> & _). exact Hin.
  - destruct (skel_topic_grows sn tn k) as (_ & _ & [-> | [_ ->]]);
      [exact Hin | apply in_or_app; now left].
Qed.

Lemma edges_complete_kept (o : syllabus_op) (subject_name topic_name : string)
  (k : Skeleton) :
  has_subject subject_name k ->
  has_topic_key subject_name topic_name k ->
  edges_complete subject_name topic_name k ->
  edges_complete subject_name topic_name (skel_op o k).
Proof.
  intros Hs Ht He sid tid Hsid Htid.
  destruct o as [n d | sn tn d df]; simpl in *.
  - destruct (skel_subject_grows n k) as (Htop & Hedges & Hsub).
    rewrite Htop in Htid. rewrite Hedges. apply He; [|exact Htid].
    destruct Hsub as [Hsub | [Hno Hsub]]; rewrite Hsub in Hsid;
      [exact Hsid|].
    apply in_app_or in Hsid as [Hsid | [[= _ <-] | []]]; [exact Hsid|].
    contradiction.
  - destruct (skel_topic_grows sn tn k) as (Hsub & Hedges & Htop).
    rewrite Hsub in Hsid. apply Hedges. apply He; [exact Hsid|].
    destruct Htop as [Htop | [Hno Htop]]; rewrite Htop in Htid;
      [exact Htid|].
    apply in_app_or in Htid as [Htid | [[= _ <- <-] | []]]; [exact Htid|].
    contradiction.
Qed.

Lemma settled_kept (o' o : syllabus_op) (k : Skeleton) :
  settled o k -> settled o (skel_op o' k).
Proof.
  destruct o as [n d | sn tn d df]; simpl.
  - apply has_subject_kept.
  - intros (Hs & Ht & He). split; [|split].
    + now apply has_subject_kept.
    + now apply has_topic_key_kept.
    + now apply edges_complete_kept.
Qed.

Lemma settled_kept_ops (os : list syllabus_op) :
  forall (o : syllabus_op) (k : Skeleton),
  settled o k -> settled o (skel_ops os k).
Proof.
  induction os as [|o' os IH]; intros o k H; simpl; [exact H|].
  apply IH. apply settled_kept. exact H.
Qed.

Lemma skel_ops_app (a b : list syllabus_op) (k : Skeleton) :
  skel_ops (a ++ b) k = skel_ops b (skel_ops a k).
Proof. apply fold_left_app. Qed.

(** After the calls of a subject's topics, each of them is settled. *)
Lemma topic_ops_settle (subject_name : string) (l : list topic_entry) :
  forall k : Skeleton,
  has_subject subject_name k ->
  Forall (fun o => settled o (skel_ops (topic_ops subject_name l) k))
    (topic_ops subject_name l).
Proof.
  induction l as [|topic l IH]; intros k Hs; simpl; [constructor|].
  destruct (skel_topic_settles subject_name (te_name topic) k Hs)
    as (Hs1 & Ht1 & He1).
  constructor.
  - apply settled_kept_ops. simpl. auto.
  - apply IH. exact Hs1.
Qed.

(** After the calls of a whole syllabus, each of them is settled. *)
Lemma syllabus_ops_settle (l : syllabus) :
  forall k : Skeleton,
  Forall (fun o => settled o (skel_ops (syllabus_ops l) k)) (syllabus_ops l).
Proof.
  induction l as [|[name info] l IH]; intros k; simpl; [constructor|].
  rewrite skel_ops_app. constructor; [|apply Forall_app; split].
  - apply settled_kept_ops. apply settled_kept_ops. simpl.
    apply skel_subject_settles.
  - eapply Forall_impl;
      [|apply (topic_ops_settle name (get (si_topics info) [])
                 (skel_subject name k) (skel_subject_settles name k))].
    intros o Ho. apply settled_kept_ops. exact Ho.
  - apply IH.
Qed.

(** Calls that are all settled change nothing in the skeleton. *)
Lemma skel_ops_settled (os : list syllabus_op) (k : Skeleton) :
  Forall (fun o => settled o k) os -> skel_ops os k = k.
Proof.
  induction os as [|o os IH]; intros H; simpl; [reflexivity|].
  inversion H as [|o' os' Ho Hos]; subst.
  assert (Hk : skel_op o k = k).
  { destruct o as [n d | sn tn d df]; simpl in *.
    - now apply skel_subject_settled.
    - destruct Ho as (Hs & Ht & He). now apply skel_topic_settled. }
  rewrite Hk. apply IH. exact Hos.
Qed.

Lemma skel_ops_idempotent (l : syllabus) (k : Skeleton) :
  skel_ops (syllabus_ops l) (skel_ops (syllabus_ops l) k)
  = skel_ops (syllabus_ops l) k.
Proof. apply skel_ops_settled. apply syllabus_ops_settle. Qed.

(** *** The loops on a backend that answers *)

Lemma advance_advance (m n : nat) (g g' : Graph) (w : World) :
  advance m g' (advance n g w) = advance (n + m) g' w.
Proof.
  unfold advance. simpl. f_equal.
  - rewrite skipn_skipn. f_equal. lia.
  - lia.
Qed.

Lemma healthy_advance (n : nat) (g : Graph) (w : World) :
  healthy w = true -> healthy (advance n g w) = true.
Proof.
  unfold healthy, advance. simpl. generalize (faults w). clear w.
  induction n as [|n IH]; intros l H; [exact H|].
  destruct l as [|b l]; [reflexivity|]. simpl in *.
  apply andb_true_iff in H as [_ H]. apply IH. exact H.
Qed.

Lemma run_query_healthy (R : Type) (query : Cypher R) (w : World) :
  healthy w = true ->
  run_query query w =
    (Ok (snd (query (clock w) (graph w))),
     advance 1 (fst (query (clock w) (graph w))) w).
Proof.
  intros H. rewrite run_query_ok by (apply healthy_next_ok; exact H).
  unfold advance. destruct (faults w); reflexivity.
Qed.

Lemma load_topics_healthy (subject_name : string) (l : list topic_entry) :
  forall w : World,
  healthy w = true ->
  load_topics subject_name l w =
    (Ok tt,
     advance (length l)
       (apply_ops (clock w) (topic_ops subject_name l) (graph w)) w).
Proof.
  induction l as [|topic l IH]; intros w H.
  - simpl. unfold ret, advance. destruct w; reflexivity.
  - cbn [load_topics topic_ops map apply_ops apply_op length].
    unfold bind at 1. unfold create_topic, bind at 1.
    rewrite run_query_healthy by exact H. unfold ret at 1.
    rewrite IH by (apply healthy_advance; exact H).
    rewrite advance_advance. reflexivity.
Qed.

Lemma apply_ops_app (a b : list syllabus_op) :
  forall (now : timestamp) (g : Graph),
  apply_ops now (a ++ b) g = apply_ops (length a + now) b (apply_ops now a g).
Proof.
  induction a as [|o a IH]; intros now g; simpl; [reflexivity|].
  rewrite IH. f_equal. lia.
Qed.

Lemma topic_ops_length (subject_name : string) (l : list topic_entry) :
  length (topic_ops subject_name l) = length l.
Proof. apply length_map. Qed.

Lemma load_subjects_healthy (l : syllabus) :
  forall w : World,
  healthy w = true ->
  load_subjects l w =
    (Ok tt,
     advance (length (syllabus_ops l))
       (apply_ops (clock w) (syllabus_ops l) (graph w)) w).
Proof.
  induction l as [|[name info] l IH]; intros w H.
  - simpl. unfold ret, advance. destruct w; reflexivity.
  - cbn [load_subjects syllabus_ops apply_ops apply_op length].
    unfold bind at 1. unfold create_subject, bind at 1.
    rewrite run_query_healthy by exact H. unfold ret at 1.
    unfold bind at 1.
    rewrite load_topics_healthy by (apply healthy_advance; exact H).
    rewrite advance_advance.
    rewrite IH by (apply healthy_advance; exact H).
    rewrite advance_advance, apply_ops_app, length_app, topic_ops_length.
    cbn [advance clock graph].
    replace (1 + length (get (si_topics info) []) + length (syllabus_ops l))
      with (S (length (get (si_topics info) []) + length (syllabus_ops l)))
      by lia.
    replace (1 + length (get (si_topics info) []) + clock w)
      with (length (get (si_topics info) []) + S (clock w)) by lia.
    reflexivity.
Qed.

Lemma get_node_count_healthy (l : label) (w : World) :
  healthy w = true ->
  get_node_count l w = (Ok (count_nodes l (graph w)), advance 1 (graph w) w).
Proof.
  intros H. unfold get_node_count, bind.
  rewrite run_query_healthy by exact H. reflexivity.
Qed.

Lemma get_graph_statistics_healthy (w : World) :
  healthy w = true ->
  get_graph_statistics w =
    (Ok (mkStats (count_nodes Subject (graph w)) (count_nodes Topic (graph w))
           (count_nodes Question (graph w)) (count_nodes Chunk (graph w))
           (count_nodes Concept (graph w))),
     advance 5 (graph w) w).
Proof.
  intros H. unfold get_graph_statistics.
  unfold bind at 1. rewrite get_node_count_healthy by exact H.
  unfold bind at 1.
  rewrite get_node_count_healthy by (apply healthy_advance; exact H).
  rewrite advance_advance.
  unfold bind at 1.
  rewrite get_node_count_healthy by (apply healthy_advance; exact H).
  rewrite advance_advance.
  unfold bind at 1.
  rewrite get_node_count_healthy by (apply healthy_advance; exact H).
  rewrite advance_advance.
  unfold bind at 1.
  rewrite get_node_count_healthy by (apply healthy_advance; exact H).
  rewrite advance_advance. reflexivity.
Qed.

(** On a backend that answers, [load_syllabus] returns and leaves the graph
    its calls produce one after the other. *)
Lemma load_syllabus_healthy (syllabus_data : syllabus) (w : World) :
  healthy w = true ->
  exists w1,
    load_syllabus syllabus_data w = (Ok tt, w1) /\
    healthy w1 = true /\
    graph w1 = apply_ops (clock w) (syllabus_ops syllabus_data) (graph w) /\
    last (stdout w1) LoadingSyllabus
      = SyllabusLoaded (count_nodes Subject (graph w1))
          (count_nodes Topic (graph w1)).
Proof.
  intros H. unfold load_syllabus.
  unfold bind at 1. unfold print at 1.
  set (w0 := mkWorld (graph w) (faults w) (clock w) (embed_calls w)
               (stdout w ++ [LoadingSyllabus])).
  assert (H0 : healthy w0 = true) by exact H.
  unfold bind at 1.
  rewrite (load_subjects_healthy syllabus_data w0 H0).
  unfold bind.
  rewrite get_graph_statistics_healthy by (apply healthy_advance; exact H0).
  rewrite advance_advance.
  eexists. split; [reflexivity|].
  cbn [fst snd print graph stdout advance faults].
  repeat split.
  - exact (healthy_advance _ (graph w) w0 H0).
  - rewrite last_last. reflexivity.
Qed.

(** *** The properties a call writes *)

Lemma create_subject_topics (name description : string) (now : timestamp)
  (g : Graph) :
  topics (fst (cypher_create_subject name description now g)) = topics g.
Proof.
  unfold cypher_create_subject. cbn [fst].
  destruct (existsb (subject_matches name) (subjects g)); reflexivity.
Qed.

Lemma create_topic_subjects (sn tn description : string) (difficulty : Z)
  (now : timestamp) (g : Graph) :
  subjects (fst (cypher_create_topic sn tn description difficulty now g))
  = subjects g.
Proof.
  unfold cypher_create_topic.
  destruct (filter (subject_matches sn) (subjects g)); [reflexivity|].
  cbn [fst]. destruct (existsb (topic_matches tn sn) (topics g)); reflexivity.
Qed.

Lemma in_create_subject (name description : string) (now : timestamp)
  (g : Graph) (s : SubjectNode) :
  In s (subjects (fst (cypher_create_subject name description now g))) ->
  (subject_matches name s = true /\ s_description s = description) \/
  (subject_matches name s = false /\ In s (subjects g)).
Proof.
  unfold cypher_create_subject. cbn [fst].
  set (l := subjects (if existsb (subject_matches name) (subjects g) then g
                      else bump_id (with_subjects
                             (subjects g ++ [mkSubject (next_id g) name
                                               description now]) g))).
  assert (Hl : forall s0, In s0 l ->
                 In s0 (subjects g) \/ subject_matches name s0 = true).
  { unfold l. destruct (existsb (subject_matches name) (subjects g));
      cbn; intros s0 H0; [now left|].
    apply in_app_or in H0 as [H0 | [<- | []]]; [now left | right].
    unfold subject_matches. apply String.eqb_refl. }
  cbn [subjects with_subjects]. intros Hin.
  apply in_map_iff in Hin as (s0 & <- & H0).
  destruct (subject_matches name s0) eqn:Hm.
  - left. split; [exact Hm | reflexivity].
  - right. split; [exact Hm|].
    destruct (Hl s0 H0) as [H | H]; [exact H | congruence].
Qed.

Lemma in_create_topic (sn tn description : string) (difficulty : Z)
  (now : timestamp) (g : Graph) (t : TopicNode) :
  In t (topics (fst (cypher_create_topic sn tn description difficulty now g))) ->
  (topic_matches tn sn t = true /\
   (filter (subject_matches sn) (subjects g) <> [] ->
    t_description t = description /\ t_difficulty_level t = difficulty)) \/
  (topic_matches tn sn t = false /\ In t (topics g)).
Proof.
  unfold cypher_create_topic.
  destruct (filter (subject_matches sn) (subjects g)) as [|s ss] eqn:Hss.
  - cbn [fst]. intros Hin. destruct (topic_matches tn sn t) eqn:Hm.
    + left. split; [reflexivity | congruence].
    + right. auto.
  - cbn [fst].
    set (l := topics (if existsb (topic_matches tn sn) (topics g) then g
                      else bump_id (with_topics
                             (topics g ++ [mkTopic (next_id g) tn sn
                                             description difficulty now]) g))).
    assert (Hl : forall t0, In t0 l ->
                   In t0 (topics g) \/ topic_matches tn sn t0 = true).
    { unfold l. destruct (existsb (topic_matches tn sn) (topics g));
        cbn; intros t0 H0; [now left|].
      apply in_app_or in H0 as [H0 | [<- | []]]; [now left | right].
      unfold topic_matches. cbn. now rewrite !String.eqb_refl. }
    cbn [topics with_topics with_has_topic]. intros Hin.
    apply in_map_iff in Hin as (t0 & <- & H0).
    destruct (topic_matches tn sn t0) eqn:Hm.
    + left. split; [exact Hm|]. intros _. split; reflexivity.
    + right. split; [exact Hm|].
      destruct (Hl t0 H0) as [H | H]; [exact H | congruence].
Qed.

Lemma has_subject_filter (name : string) (g : Graph) :
  has_subject name (skeleton g) ->
  filter (subject_matches name) (subjects g) <> [].
Proof.
  intros H. apply has_subject_existsb in H.
  unfold skeleton in H. cbn [sk_subjects] in H. rewrite existsb_map in H.
  apply existsb_true_filter. exact H.
Qed.

(** A settled call writes its properties on the nodes it addresses. *)
Lemma apply_op_writes (now : timestamp) (o : syllabus_op) (g : Graph) :
  settled o (skeleton g) -> written o (apply_op now o g).
Proof.
  destruct o as [n d | sn tn d df]; cbn [settled written apply_op].
  - intros _ s Hin Hm.
    apply in_create_subject in Hin as [[_ Hd] | [Hno _]]; congruence.
  - intros (Hs & _) t Hin Hm.
    apply in_create_topic in Hin as [[_ Hd] | [Hno _]]; [|congruence].
    apply Hd. now apply has_subject_filter.
Qed.

Lemma string_eqb_true (a b : string) : String.eqb a b = true -> a = b.
Proof. apply String.eqb_eq. Qed.

(** A call that addresses other nodes leaves them. *)
Lemma written_kept (now : timestamp) (o o' : syllabus_op) (g : Graph) :
  ~ rewrites o o' -> written o g -> written o (apply_op now o' g).
Proof.
  destruct o as [n d | sn tn d df], o' as [n' d' | sn' tn' d' df'];
    cbn [rewrites written apply_op]; intros Hne Hw.
  - intros s Hin Hm.
    apply in_create_subject in Hin as [[Hm' _] | [_ Hin]]; [|now apply Hw].
    exfalso. apply Hne. unfold subject_matches in Hm, Hm'.
    apply string_eqb_true in Hm, Hm'. congruence.
  - intros s Hin Hm. rewrite create_topic_subjects in Hin. now apply Hw.
  - intros t Hin Hm. rewrite create_subject_topics in Hin. now apply Hw.
  - intros t Hin Hm.
    apply in_create_topic in Hin as [[Hm' _] | [_ Hin]]; [|now apply Hw].
    exfalso. apply Hne. unfold topic_matches in Hm, Hm'.
    apply andb_true_iff in Hm as [H1 H2], Hm' as [H3 H4].
    apply string_eqb_true in H1, H2, H3, H4. split; congruence.
Qed.

Lemma written_kept_ops (o : syllabus_op) (os : list syllabus_op) :
  forall (now : timestamp) (g : Graph),
  Forall (fun o' => ~ rewrites o o') os ->
  written o g -> written o (apply_ops now os g).
Proof.
  induction os as [|o' os IH]; intros now g Hall Hw; [exact Hw|].
  inversion Hall as [|x xs Hne Hrest]; subst. cbn [apply_ops].
  apply IH; [exact Hrest|]. apply written_kept; assumption.
Qed.

(** In a graph where all the calls are settled, each call that no later
    call overwrites has its properties in the final graph. *)
Lemma apply_ops_written (before after : list syllabus_op) (o : syllabus_op)
  (now : timestamp) (g : Graph) :
  settled o (skeleton g) ->
  Forall (fun o' => ~ rewrites o o') after ->
  written o (apply_ops now (before ++ o :: after) g).
Proof.
  intros Hs Hall. rewrite apply_ops_app. cbn [apply_ops].
  apply written_kept_ops; [exact Hall|]. apply apply_op_writes.
  rewrite skeleton_apply_ops. apply settled_kept_ops. exact Hs.
Qed.

(** C4.  On a backend that answers, running [load_syllabus] a second time
    with the same syllabus returns as the first run does and leaves the
    number of Subject nodes, the number of Topic nodes and the number of
    [HAS_TOPIC] relationships as the first run left them; indeed the same
    nodes (identifier and key) and the same relationships are there, and no
    identifier is consumed.  What the second run does is rewrite properties
    in place: after it, the nodes addressed by a call of the syllabus that no
    later call of the syllabus overwrites carry that call's description (and
    difficulty, for a topic). *)
Theorem load_syllabus_idempotent (syllabus_data : syllabus) (w : World) :
  healthy w = true ->
  exists w1 w2,
    load_syllabus syllabus_data w = (Ok tt, w1) /\
    load_syllabus syllabus_data w1 = (Ok tt, w2) /\
    count_nodes Subject (graph w2) = count_nodes Subject (graph w1) /\
    count_nodes Topic (graph w2) = count_nodes Topic (graph w1) /\
    length (has_topic (graph w2)) = length (has_topic (graph w1)) /\
    skeleton (graph w2) = skeleton (graph w1) /\
    (forall before o after,
       syllabus_ops syllabus_data = before ++ o :: after ->
       Forall (fun o' => ~ rewrites o o') after ->
       written o (graph w2)).
Proof.
  intros H.
  destruct (load_syllabus_healthy syllabus_data w H) as (w1 & Hr1 & H1 & Hg1 & _).
  destruct (load_syllabus_healthy syllabus_data w1 H1) as (w2 & Hr2 & _ & Hg2 & _).
  exists w1, w2.
  assert (Hsk : skeleton (graph w2) = skeleton (graph w1)).
  { rewrite Hg2, skeleton_apply_ops, Hg1, skeleton_apply_ops.
    apply skel_ops_idempotent. }
  repeat split; auto.
  - change (length (subjects (graph w2)) = length (subjects (graph w1))).
    rewrite <- (length_map (fun s => (s_id s, s_name s)) (subjects (graph w2))).
    rewrite <- (length_map (fun s => (s_id s, s_name s)) (subjects (graph w1))).
    change (length (sk_subjects (skeleton (graph w2)))
            = length (sk_subjects (skeleton (graph w1)))).
    now rewrite Hsk.
  - change (length (topics (graph w2)) = length (topics (graph w1))).
    rewrite <- (length_map (fun t => (t_id t, (t_name t, t_subject t)))
                  (topics (graph w2))).
    rewrite <- (length_map (fun t => (t_id t, (t_name t, t_subject t)))
                  (topics (graph w1))).
    change (length (sk_topics (skeleton (graph w2)))
            = length (sk_topics (skeleton (graph w1)))).
    now rewrite Hsk.
  - change (length (sk_edges (skeleton (graph w2)))
            = length (sk_edges (skeleton (graph w1)))).
    now rewrite Hsk.
  - intros before o after Hsplit Hlast. rewrite Hg2, Hsplit.
    apply apply_ops_written; [|exact Hlast].
    rewrite Hg1, skeleton_apply_ops.
    pose proof (syllabus_ops_settle syllabus_data (skeleton (graph w))) as Hall.
    rewrite Forall_forall in Hall. apply Hall.
    rewrite Hsplit. apply in_elt.
Qed.

Lemma load_syllabus_idempotent_witness :
  healthy (world_of empty_graph) = true /\
  exists w1 w2,
    load_syllabus algorithms_syllabus (world_of empty_graph) = (Ok tt, w1) /\
    load_syllabus algorithms_syllabus w1 = (Ok tt, w2) /\
    count_nodes Subject (graph w2) = count_nodes Subject (graph w1) /\
    count_nodes Topic (graph w2) = count_nodes Topic (graph w1) /\
    length (has_topic (graph w2)) = length (has_topic (graph w1)) /\
    skeleton (graph w2) = skeleton (graph w1).
Proof.
  split; [reflexivity|].
  destruct (load_syllabus_idempotent algorithms_syllabus (world_of empty_graph)
              eq_refl)
    as (w1 & w2 & H1 & H2 & Hs & Ht & He & Hk & _).
  exists w1, w2. repeat split; assumption.
Defined.

Example load_syllabus_twice_counts :
  let w1 := snd (load_syllabus algorithms_syllabus (world_of empty_graph)) in
  let w2 := snd (load_syllabus algorithms_syllabus w1) in
  count_nodes Subject (graph w1) = 1 /\ count_nodes Topic (graph w1) = 2 /\
  count_nodes Subject (graph w2) = 1 /\ count_nodes Topic (graph w2) = 2 /\
  has_topic (graph w2) = [(0, 1); (0, 2)] /\
  map t_updated_at (topics (graph w1)) = [1; 2] /\
  map t_updated_at (topics (graph w2)) = [9; 10] /\
  map t_description (topics (graph w2)) = ["Various sorting algorithms"; ""]%string /\
  map t_difficulty_level (topics (graph w2)) = [2; 1]%Z.
Proof. vm_compute. repeat split. Qed.

(** ** Backend errors *)

(** C5, the claim as stated fails: with a backend that refuses the query,
    [vector_search] returns the empty list, exactly what it returns when the
    backend answers and nothing matches; [graph_search] and the two question
    look-ups do the same. *)
Lemma vector_search_swallows_backend_error :
  next_ok (failing_world sorting_graph) = false /\
  fst (vector_search unit_embedder empty_index "process scheduling" 3 None None
         (failing_world sorting_graph)) = Ok [] /\
  fst (vector_search unit_embedder empty_index "process scheduling" 3 None None
         (world_of sorting_graph)) = Ok [] /\
  fst (graph_search "Algorithms" "Sorting" true (failing_world sorting_graph))
    = Ok None /\
  fst (graph_search "Databases" "Indexing" true (world_of sorting_graph))
    = Ok None /\
  fst (get_questions_by_topic "Algorithms" "Sorting" None None 10
         (failing_world sorting_graph)) = Ok [] /\
  fst (get_questions_by_topic "Algorithms" "Sorting" None None 10
         (world_of sorting_graph)) = Ok [].
Proof. repeat split. Qed.

(** The second query of [create_question], the [CREATE], is refused. *)
Lemma create_question_refused_create (E : EmbeddingsGenerator)
  (question : question_data) (w : World) (rest : list bool) :
  faults w = false :: true :: rest ->
  topic_exists (graph w) (qd_subject question) (qd_topic question) = true ->
  fst (create_question E question w) = Raise BackendError /\
  graph (snd (create_question E question w)) = graph w /\
  last (stdout (snd (create_question E question w))) LoadingPyqs
    = QueryExecutionError.
Proof.
  intros Hf Hex. unfold topic_exists in Hex. apply existsb_true_filter in Hex.
  unfold create_question, bind.
  rewrite run_query_ok by (unfold next_ok; now rewrite Hf).
  cbn [cypher_match_topic fst snd].
  destruct (filter (topic_matches (qd_topic question) (qd_subject question))
              (topics (graph w))) as [|t ts]; [congruence|].
  step_embedding E.
  rewrite run_query_fault by (unfold next_ok; cbn [faults]; now rewrite Hf).
  cbn [fst snd graph stdout]. rewrite last_last. auto.
Qed.

(** The second query of [create_chunk], the [CREATE], is refused. *)
Lemma create_chunk_refused_create (E : EmbeddingsGenerator)
  (chunk : chunk_data) (w : World) (rest : list bool) :
  faults w = false :: true :: rest ->
  topic_exists (graph w) (cd_subject chunk) (cd_topic chunk) = true ->
  fst (create_chunk E chunk w) = Raise BackendError /\
  graph (snd (create_chunk E chunk w)) = graph w /\
  last (stdout (snd (create_chunk E chunk w))) LoadingPyqs
    = QueryExecutionError.
Proof.
  intros Hf Hex. unfold topic_exists in Hex. apply existsb_true_filter in Hex.
  unfold create_chunk, bind.
  assert (Hemb : exists v out,
    (match cd_embedding chunk with
     | Some (x :: v) => ret (x :: v)
     | _ => generate_embedding E (cd_text chunk)
     end) w
    = (Ok v, mkWorld (graph w) (faults w) (clock w)
               (embed_calls w ++ match cd_embedding chunk with
                                 | Some (_ :: _) => []
                                 | _ => [cd_text chunk]
                                 end) out)).
  { destruct (cd_embedding chunk) as [[|x v]|].
    - destruct (generate_embedding_run E (cd_text chunk) w) as (out & ->).
      eexists. eexists. reflexivity.
    - exists (x :: v), (stdout w). rewrite app_nil_r. destruct w. reflexivity.
    - destruct (generate_embedding_run E (cd_text chunk) w) as (out & ->).
      eexists. eexists. reflexivity. }
  destruct Hemb as (v & out & ->).
  rewrite run_query_ok by (unfold next_ok; cbn [faults]; now rewrite Hf).
  cbn [cypher_match_topic fst snd graph clock].
  destruct (filter (topic_matches (cd_topic chunk) (cd_subject chunk))
              (topics (graph w))) as [|t ts]; [congruence|].
  rewrite run_query_fault by (unfold next_ok; cbn [faults]; now rewrite Hf).
  cbn [fst snd graph stdout]. rewrite last_last. auto.
Qed.

(** C5, amended.  A backend error is re-raised by [run_query] after its
    line, with the graph untouched, and it propagates out of
    [get_node_count], [create_subject], [create_topic], [create_question] and
    [create_chunk], for the last two also when it is their second query, the
    [CREATE], that the backend refuses.  It is caught by [vector_search],
    [graph_search], [get_questions_by_topic] and
    [get_questions_ordered_by_difficulty], which print their own line and
    return their empty result; by [record_attempt], which prints its line and
    returns normally; and by [load_pyqs], which prints the handler's line,
    counts the record as failed and goes on with the rest of the batch. *)
Theorem backend_error_propagation (w : World) :
  (next_ok w = false ->
   (forall (R : Type) (query : Cypher R),
      fst (run_query query w) = Raise BackendError /\
      graph (snd (run_query query w)) = graph w /\
      stdout (snd (run_query query w)) = stdout w ++ [QueryExecutionError]) /\
   (forall l,
      fst (get_node_count l w) = Raise BackendError /\
      stdout (snd (get_node_count l w)) = stdout w ++ [QueryExecutionError]) /\
   (forall name description,
      fst (create_subject name description w) = Raise BackendError /\
      graph (snd (create_subject name description w)) = graph w) /\
   (forall subject_name topic_name description difficulty,
      fst (create_topic subject_name topic_name description difficulty w)
        = Raise BackendError /\
      graph (snd (create_topic subject_name topic_name description
                    difficulty w)) = graph w) /\
   (forall E question,
      fst (create_question E question w) = Raise BackendError /\
      graph (snd (create_question E question w)) = graph w) /\
   (forall E chunk,
      fst (create_chunk E chunk w) = Raise BackendError /\
      graph (snd (create_chunk E chunk w)) = graph w) /\
   (forall E index query top_k subject topic,
      fst (vector_search E index query top_k subject topic w) = Ok [] /\
      stdout (snd (vector_search E index query top_k subject topic w))
        = stdout (snd (generate_embedding E query w))
          ++ [QueryExecutionError; VectorSearchError]) /\
   (forall subject topic include_concepts,
      fst (graph_search subject topic include_concepts w) = Ok None /\
      stdout (snd (graph_search subject topic include_concepts w))
        = stdout w ++ [QueryExecutionError; GraphSearchError]) /\
   (forall subject topic year difficulty limit,
      fst (get_questions_by_topic subject topic year difficulty limit w)
        = Ok [] /\
      stdout (snd (get_questions_by_topic subject topic year difficulty limit
                     w))
        = stdout w ++ [QueryExecutionError; QuestionRetrievalError]) /\
   (forall subject topic ascending,
      fst (get_questions_ordered_by_difficulty subject topic ascending w)
        = Ok [] /\
      stdout (snd (get_questions_ordered_by_difficulty subject topic
                     ascending w))
        = stdout w ++ [QueryExecutionError; QuestionOrderingError]) /\
   (forall subject topic question_text is_correct,
      fst (record_attempt subject topic question_text is_correct w) = Ok tt /\
      graph (snd (record_attempt subject topic question_text is_correct w))
        = graph w /\
      stdout (snd (record_attempt subject topic question_text is_correct w))
        = stdout w ++ [QueryExecutionError; ErrorRecordingAttempt]) /\
   (forall E question,
      fst (load_pyqs E [question] w) = Ok tt /\
      graph (snd (load_pyqs E [question] w)) = graph w /\
      stdout (snd (load_pyqs E [question] w))
        = stdout w ++ [LoadingPyqs; QueryExecutionError;
                       ErrorLoadingQuestion; LoadedQuestions 0 1]) /\
   (forall E question rest,
      forallb negb (tl (faults w)) = true ->
      topic_keys_unique (graph w) ->
      let m := length (filter (precondition_fails (graph w)) rest) in
      let n := length rest in
      fst (load_pyqs E (question :: rest) w) = Ok tt /\
      last (stdout (snd (load_pyqs E (question :: rest) w))) LoadingPyqs
        = LoadedQuestions (n - m) (S m) /\
      count_nodes Question (graph (snd (load_pyqs E (question :: rest) w)))
        = count_nodes Question (graph w) + (n - m))) /\
  (forall rest,
   faults w = false :: true :: rest ->
   (forall E question,
      topic_exists (graph w) (qd_subject question) (qd_topic question) = true ->
      fst (create_question E question w) = Raise BackendError /\
      graph (snd (create_question E question w)) = graph w /\
      last (stdout (snd (create_question E question w))) LoadingPyqs
        = QueryExecutionError) /\
   (forall E chunk,
      topic_exists (graph w) (cd_subject chunk) (cd_topic chunk) = true ->
      fst (create_chunk E chunk w) = Raise BackendError /\
      graph (snd (create_chunk E chunk w)) = graph w /\
      last (stdout (snd (create_chunk E chunk w))) LoadingPyqs
        = QueryExecutionError)).
Proof.
  split.
  - intros Hf.
    assert (Hq : forall (R : Type) (query : Cypher R),
               run_query query w =
                 (Raise BackendError,
                  mkWorld (graph w) (tl (faults w)) (clock w) (embed_calls w)
                    (stdout w ++ [QueryExecutionError])))
      by (intros; apply run_query_fault; exact Hf).
    repeat match goal with |- _ /\ _ => split end.
    + intros. now rewrite Hq.
    + intros. unfold get_node_count, bind. now rewrite Hq.
    + intros. unfold create_subject, bind. now rewrite Hq.
    + intros. unfold create_topic, bind. now rewrite Hq.
    + intros. unfold create_question, bind. now rewrite Hq.
    + intros. unfold create_chunk, bind.
      destruct (cd_embedding chunk) as [[|x v]|].
      * step_embedding E. rewrite run_query_fault by exact Hf. split; reflexivity.
      * unfold ret. cbv beta iota. now rewrite Hq.
      * step_embedding E. rewrite run_query_fault by exact Hf. split; reflexivity.
    + intros. unfold vector_search, bind, try_except, print, ret.
      step_embedding E. rewrite run_query_fault by exact Hf.
      cbn [fst snd stdout]. rewrite <- app_assoc. split; reflexivity.
    + intros. unfold graph_search, bind, try_except, print, ret. rewrite Hq.
      cbn [fst snd stdout]. rewrite <- app_assoc. split; reflexivity.
    + intros. unfold get_questions_by_topic, try_except, bind, print, ret.
      rewrite Hq. cbn [fst snd stdout]. rewrite <- app_assoc.
      split; reflexivity.
    + intros. unfold get_questions_ordered_by_difficulty, try_except, bind,
        print, ret.
      rewrite Hq. cbn [fst snd stdout]. rewrite <- app_assoc.
      split; reflexivity.
    + intros. unfold record_attempt, bind, try_except, print. rewrite Hq.
      cbn [fst snd stdout graph]. rewrite <- app_assoc. repeat split.
    + intros. rewrite load_pyqs_refused_record by exact Hf.
      repeat split.
    + intros E question rest Hh Hu m n.
      pose proof (load_pyqs_refused_record E question w Hf) as Hone.
      destruct (load_pyqs_resumes E [question] rest w)
        as (s1 & f1 & H1 & _ & H2 & H3).
      { rewrite Hone. exact Hh. }
      { rewrite Hone. exact Hu. }
      rewrite Hone in H1, H2, H3. cbn [snd stdout graph] in H1, H2, H3.
      change [LoadingPyqs; QueryExecutionError; ErrorLoadingQuestion;
              LoadedQuestions 0 1]
        with ([LoadingPyqs; QueryExecutionError; ErrorLoadingQuestion]
              ++ [LoadedQuestions 0 1]) in H1.
      rewrite app_assoc, last_last in H1. injection H1 as <- <-.
      cbn [app] in H2, H3. cbn [plus] in H2.
      destruct (load_pyqs_run E (question :: rest) w)
        as (s & f & wm & _ & Hrun).
      split; [now rewrite Hrun|]. split; [exact H2 | exact H3].
  - intros rest Hf. split; intros.
    + now apply (create_question_refused_create E question w rest).
    + now apply (create_chunk_refused_create E chunk w rest).
Qed.

Lemma backend_error_propagation_witness :
  next_ok (failing_world sorting_graph) = false /\
  fst (create_question unit_embedder merge_sort_question
         (failing_world sorting_graph)) = Raise BackendError /\
  fst (get_questions_ordered_by_difficulty "Algorithms" "Sorting" true
         (failing_world sorting_graph)) = Ok [] /\
  last (stdout (snd (load_pyqs unit_embedder
                       [merge_sort_question; merge_sort_question;
                        orphan_question] (failing_world sorting_graph))))
    LoadingPyqs = LoadedQuestions (2 - 1) 2 /\
  fst (create_question unit_embedder merge_sort_question
         (mkWorld sorting_graph [false; true] 0 [] [])) = Raise BackendError /\
  fst (create_chunk unit_embedder short_chunk
         (mkWorld sorting_graph [false; true] 0 [] [])) = Raise BackendError.
Proof.
  split; [reflexivity|].
  assert (Hu : topic_keys_unique (graph (failing_world sorting_graph))).
  { unfold topic_keys_unique. cbn.
    constructor; [intros [] | constructor]. }
  pose proof (proj1 (backend_error_propagation (failing_world sorting_graph))
                eq_refl) as H.
  pose proof (proj2 (backend_error_propagation
                       (mkWorld sorting_graph [false; true] 0 [] []))
                [] eq_refl) as [Hq Hc].
  split; [apply H|]. split; [apply H|]. split; [|split].
  - destruct H as (_ & _ & _ & _ & _ & _ & _ & _ & _ & _ & _ & _ & H).
    apply (H unit_embedder merge_sort_question
             [merge_sort_question; orphan_question] eq_refl Hu).
  - apply (Hq unit_embedder merge_sort_question eq_refl).
  - apply (Hc unit_embedder short_chunk eq_refl).
Defined.

(** ** Ordered results *)

Section OrderBy.
Variable A : Type.
Variable le : A -> A -> bool.
Hypothesis le_total : forall a b, le a b = true \/ le b a = true.

Lemma insert_by_in (x y : A) (l : list A) :
  In y (insert_by le x l) <-> y = x \/ In y l.
Proof.
  induction l as [|z l IH]; simpl.
  - split; intros [H | H]; auto.
  - destruct (le x z); simpl; [split; intros [H | H]; auto|].
    rewrite IH. split; intros H; intuition.
Qed.

Lemma insert_by_sorted (x : A) (l : list A) :
  Sorted (fun a b => le a b = true) l ->
  Sorted (fun a b => le a b = true) (insert_by le x l).
Proof.
  induction l as [|y l IH]; simpl; intros Hs.
  - constructor; constructor.
  - destruct (le x y) eqn:Hxy.
    + constructor; [exact Hs | constructor; exact Hxy].
    + inversion Hs as [|y' l' Hs' Hhd]; subst.
      constructor; [apply IH; exact Hs'|].
      destruct l as [|z l]; simpl.
      * constructor. destruct (le_total x y); congruence.
      * destruct (le x z); constructor.
        -- destruct (le_total x y); congruence.
        -- inversion Hhd; assumption.
Qed.

Lemma order_by_sorted (l : list A) :
  Sorted (fun a b => le a b = true) (order_by le l).
Proof.
  induction l as [|x l IH]; simpl; [constructor|].
  apply insert_by_sorted. exact IH.
Qed.

Lemma order_by_in (y : A) (l : list A) : In y (order_by le l) <-> In y l.
Proof.
  induction l as [|x l IH]; simpl; [reflexivity|].
  rewrite insert_by_in, IH. split; intros [H | H]; auto.
Qed.

Lemma order_by_length (l : list A) : length (order_by le l) = length l.
Proof.
  induction l as [|x l IH]; simpl; [reflexivity|]. rewrite <- IH.
  generalize (order_by le l). intros l'.
  induction l' as [|y l' IH']; simpl; [reflexivity|].
  destruct (le x y); simpl; [reflexivity | now rewrite IH'].
Qed.

Lemma insert_by_perm (x : A) (l : list A) :
  Permutation (insert_by le x l) (x :: l).
Proof.
  induction l as [|y l IH]; simpl; [reflexivity|].
  destruct (le x y); [reflexivity|].
  rewrite IH. apply perm_swap.
Qed.

Lemma order_by_perm (l : list A) : Permutation (order_by le l) l.
Proof.
  induction l as [|x l IH]; simpl; [constructor|].
  rewrite insert_by_perm. now constructor.
Qed.
End OrderBy.

Lemma difficulty_asc_year_desc_spec (a b : QuestionRow) :
  difficulty_asc_year_desc a b = true <->
  (qr_difficulty a < qr_difficulty b \/
   (qr_difficulty a = qr_difficulty b /\ qr_year b <= qr_year a))%Z.
Proof.
  unfold difficulty_asc_year_desc.
  rewrite orb_true_iff, andb_true_iff, Z.ltb_lt, Z.eqb_eq, Z.leb_le.
  reflexivity.
Qed.

Lemma difficulty_desc_year_desc_spec (a b : QuestionRow) :
  difficulty_desc_year_desc a b = true <->
  (qr_difficulty b < qr_difficulty a \/
   (qr_difficulty a = qr_difficulty b /\ qr_year b <= qr_year a))%Z.
Proof.
  unfold difficulty_desc_year_desc.
  rewrite orb_true_iff, andb_true_iff, Z.ltb_lt, Z.eqb_eq, Z.leb_le.
  reflexivity.
Qed.

Lemma strongly_sorted_impl (A : Type) (R S : A -> A -> Prop) (l : list A) :
  (forall a b, R a b -> S a b) -> StronglySorted R l -> StronglySorted S l.
Proof.
  intros Himp Hs. induction Hs as [|x l Hs IH Hall]; constructor; auto.
  eapply Forall_impl; [|exact Hall]. intros b. apply Himp.
Qed.

(** The order of [get_questions_ordered_by_difficulty] in either direction. *)
Lemma ordered_rows_sorted (ascending : bool) (l : list QuestionRow) :
  StronglySorted (difficulty_order ascending)
    (order_by (if ascending then difficulty_asc_year_desc
               else difficulty_desc_year_desc) l).
Proof.
  destruct ascending.
  - apply strongly_sorted_impl
      with (R := fun a b => difficulty_asc_year_desc a b = true).
    + intros a b H. apply difficulty_asc_year_desc_spec in H.
      unfold difficulty_order. lia.
    + apply Sorted_StronglySorted.
      * intros a b c Hab Hbc.
        apply difficulty_asc_year_desc_spec in Hab, Hbc.
        apply difficulty_asc_year_desc_spec. lia.
      * apply order_by_sorted. intros a b.
        rewrite !difficulty_asc_year_desc_spec. lia.
  - apply strongly_sorted_impl
      with (R := fun a b => difficulty_desc_year_desc a b = true).
    + intros a b H. apply difficulty_desc_year_desc_spec in H.
      unfold difficulty_order. lia.
    + apply Sorted_StronglySorted.
      * intros a b c Hab Hbc.
        apply difficulty_desc_year_desc_spec in Hab, Hbc.
        apply difficulty_desc_year_desc_spec. lia.
      * apply order_by_sorted. intros a b.
        rewrite !difficulty_desc_year_desc_spec. lia.
Qed.

(** C6.  [get_questions_ordered_by_difficulty] always returns a list; in it
    every row stands before only rows of greater or equal difficulty when
    [ascending] is true, and of smaller or equal difficulty when it is
    false, and of two rows of equal difficulty the one of the later year
    comes first.  When the backend answers, the list holds exactly the
    topic's questions. *)
Theorem questions_ordered_by_difficulty (subject topic : string)
  (ascending : bool) (w : World) :
  exists rows,
    fst (get_questions_ordered_by_difficulty subject topic ascending w)
      = Ok rows /\
    StronglySorted (difficulty_order ascending) rows /\
    (next_ok w = true ->
     Permutation rows
       (map ordered_row (topic_questions (graph w) subject topic))).
Proof.
  unfold get_questions_ordered_by_difficulty, try_except.
  step_query; cbn [fst snd cypher_questions_ordered].
  - eexists. split; [reflexivity|]. split.
    + apply ordered_rows_sorted.
    + intros _. apply order_by_perm.
  - exists []. split; [reflexivity|]. split; [constructor | discriminate].
Qed.

Lemma questions_ordered_by_difficulty_witness :
  exists rows,
    fst (get_questions_ordered_by_difficulty "Algorithms" "Sorting" true
           (world_of practice_graph)) = Ok rows /\
    StronglySorted (difficulty_order true) rows /\
    Permutation rows
      (map ordered_row (topic_questions practice_graph "Algorithms" "Sorting")).
Proof.
  destruct (questions_ordered_by_difficulty "Algorithms" "Sorting" true
              (world_of practice_graph)) as (rows & Hr & Hs & Hp).
  exists rows. split; [exact Hr|]. split; [exact Hs|].
  apply Hp. reflexivity.
Defined.

Example ordered_easy_to_hard :
  fst (get_questions_ordered_by_difficulty "Algorithms" "Sorting" true
         (world_of practice_graph))
  = Ok [mkQuestionRow "Q2" [] "" 2023 0 1 None;
        mkQuestionRow "Q3" [] "" 2022 2 1 None;
        mkQuestionRow "Q1" [] "" 2021 2 1 None].
Proof. reflexivity. Qed.

Example ordered_hard_to_easy :
  fst (get_questions_ordered_by_difficulty "Algorithms" "Sorting" false
         (world_of practice_graph))
  = Ok [mkQuestionRow "Q3" [] "" 2022 2 1 None;
        mkQuestionRow "Q1" [] "" 2021 2 1 None;
        mkQuestionRow "Q2" [] "" 2023 0 1 None].
Proof. reflexivity. Qed.

(** ** Filters of [get_questions_by_topic] *)

Lemma firstn_in (A : Type) (n : nat) (l : list A) (x : A) :
  In x (firstn n l) -> In x l.
Proof.
  revert l. induction n as [|n IH]; intros [|y l]; simpl; auto.
  - intros [].
  - intros [H | H]; auto.
Qed.

Lemma questions_by_topic_rows (subject topic : string)
  (where_clauses : list where_clause) (limit : Z) (now : timestamp)
  (g : Graph) (r : QuestionRow) :
  In r (snd (cypher_questions_by_topic subject topic where_clauses limit now g)) ->
  exists q,
    In q (topic_questions g subject topic) /\
    forallb (clause_holds q) where_clauses = true /\
    qr_year r = q_year q /\ qr_difficulty r = q_difficulty q.
Proof.
  unfold cypher_questions_by_topic, limit_rows. cbn [snd]. intros Hin.
  apply firstn_in in Hin. apply order_by_in in Hin.
  apply in_map_iff in Hin as (q & <- & Hq).
  apply filter_In in Hq as [Hq Hc]. exists q. auto.
Qed.

(** C10.  In [get_questions_by_topic] a year of 0 is no filter at all: the
    call is the call with no year, and it can return questions of other
    years.  A difficulty of 0 is a filter: every question returned has
    difficulty 0, and questions the unfiltered call returns can be missing. *)
Theorem zero_year_unfiltered_zero_difficulty_filtered :
  (forall subject topic difficulty limit w,
     get_questions_by_topic subject topic (Some 0%Z) difficulty limit w
     = get_questions_by_topic subject topic None difficulty limit w) /\
  (forall subject topic year limit w,
     exists rows,
       fst (get_questions_by_topic subject topic year (Some 0%Z) limit w)
         = Ok rows /\
       Forall (fun r => qr_difficulty r = 0%Z) rows) /\
  map qr_year
    (match fst (get_questions_by_topic "Algorithms" "Sorting" (Some 0%Z) None
                  10 (world_of practice_graph)) with
     | Ok rows => rows
     | Raise _ => []
     end) = [2023; 2022; 2021]%Z /\
  map qr_question
    (match fst (get_questions_by_topic "Algorithms" "Sorting" None (Some 0%Z)
                  10 (world_of practice_graph)) with
     | Ok rows => rows
     | Raise _ => []
     end) = ["Q2"%string] /\
  map qr_question
    (match fst (get_questions_by_topic "Algorithms" "Sorting" None None
                  10 (world_of practice_graph)) with
     | Ok rows => rows
     | Raise _ => []
     end) = ["Q2"; "Q3"; "Q1"]%string.
Proof.
  split; [reflexivity|]. split; [|repeat split].
  intros subject topic year limit w.
  unfold get_questions_by_topic, try_except.
  step_query; cbn [fst snd].
  - eexists. split; [reflexivity|]. apply Forall_forall. intros r Hr.
    apply questions_by_topic_rows in Hr as (q & _ & Hc & _ & ->).
    rewrite forallb_app in Hc. apply andb_true_iff in Hc as [_ Hc].
    cbn in Hc. rewrite andb_true_r in Hc. now apply Z.eqb_eq.
  - exists []. split; [reflexivity | constructor].
Qed.

(** ** Recording attempts *)

Lemma attempt_between_iff (u q : node_id) (a : Attempted) :
  attempt_between u q a = true <-> a_user a = u /\ a_question a = q.
Proof.
  unfold attempt_between. now rewrite andb_true_iff, !Nat.eqb_eq.
Qed.

Lemma filter_on_match (u q : node_id) (is_correct : bool) (now : timestamp)
  (rels : list Attempted) :
  filter (attempt_between u q)
    (map (fun a => if attempt_between u q a
                   then on_match is_correct now a else a) rels)
  = map (on_match is_correct now) (filter (attempt_between u q) rels).
Proof.
  induction rels as [|a rels IH]; simpl; [reflexivity|].
  destruct (attempt_between u q a) eqn:Ha; simpl.
  - unfold attempt_between at 1. simpl. fold (attempt_between u q a).
    rewrite Ha. simpl. now rewrite IH.
  - rewrite Ha. exact IH.
Qed.

Lemma pair_neq_eqb (u q u' q' : node_id) :
  (u', q') <> (u, q) -> Nat.eqb u' u && Nat.eqb q' q = false.
Proof.
  intros Hne. destruct (Nat.eqb u' u) eqn:Hu; [|reflexivity].
  destruct (Nat.eqb q' q) eqn:Hq; [|reflexivity].
  apply Nat.eqb_eq in Hu, Hq. subst. contradiction.
Qed.

(** Merging the relationship of another pair leaves those of ([u], [q]). *)
Lemma merge_attempted_other (is_correct : bool) (now : timestamp)
  (u q u' q' : node_id) (rels out : list Attempted) :
  (u', q') <> (u, q) ->
  filter (attempt_between u q)
    (fst (merge_attempted is_correct now (rels, out) (u', q')))
  = filter (attempt_between u q) rels.
Proof.
  intros Hne. unfold merge_attempted.
  destruct (existsb (attempt_between u' q') rels); cbn [fst].
  - induction rels as [|a rels IH]; simpl; [reflexivity|].
    destruct (attempt_between u' q' a) eqn:Ha.
    + apply attempt_between_iff in Ha as [Hu Hq].
      assert (Hno : attempt_between u q a = false).
      { unfold attempt_between. rewrite Hu, Hq. now apply pair_neq_eqb. }
      unfold attempt_between at 1. cbn [a_user a_question on_match].
      fold (attempt_between u q a). rewrite Hno. exact IH.
    + destruct (attempt_between u q a); [now rewrite IH | exact IH].
  - rewrite filter_app. cbn [filter].
    unfold attempt_between at 2. cbn [a_user a_question on_create].
    rewrite (pair_neq_eqb u q u' q' Hne). apply app_nil_r.
Qed.

Lemma fold_merge_attempted_other (is_correct : bool) (now : timestamp)
  (u q : node_id) (rows : list (node_id * node_id)) :
  forall rels out,
  ~ In (u, q) rows ->
  filter (attempt_between u q)
    (fst (fold_left (merge_attempted is_correct now) rows (rels, out)))
  = filter (attempt_between u q) rels.
Proof.
  induction rows as [|[u' q'] rows IH]; intros rels out Hnot; [reflexivity|].
  cbn [fold_left].
  destruct (merge_attempted is_correct now (rels, out) (u', q'))
    as [rels1 out1] eqn:Hm.
  rewrite IH by (intros Hin; apply Hnot; now right).
  change rels1 with (fst (rels1, out1)). rewrite <- Hm.
  apply merge_attempted_other. intros Heq. apply Hnot. left. exact Heq.
Qed.

(** Merging the relationship of ([u], [q]) itself: created when there is
    none, updated in place otherwise. *)
Lemma merge_attempted_self (is_correct : bool) (now : timestamp)
  (u q : node_id) (rels out : list Attempted) :
  filter (attempt_between u q)
    (fst (merge_attempted is_correct now (rels, out) (u, q)))
  = match filter (attempt_between u q) rels with
    | [] => [on_create u q is_correct now]
    | l => map (on_match is_correct now) l
    end.
Proof.
  unfold merge_attempted.
  destruct (existsb (attempt_between u q) rels) eqn:Hex; cbn [fst].
  - rewrite filter_on_match. apply existsb_true_filter in Hex.
    destruct (filter (attempt_between u q) rels); [congruence | reflexivity].
  - apply existsb_false_filter in Hex. rewrite filter_app, Hex.
    cbn [filter app]. unfold attempt_between.
    cbn [a_user a_question on_create]. now rewrite !Nat.eqb_refl.
Qed.

Lemma fold_merge_attempted_self (is_correct : bool) (now : timestamp)
  (u q : node_id) (rows : list (node_id * node_id)) :
  forall rels out,
  NoDup rows -> In (u, q) rows ->
  filter (attempt_between u q)
    (fst (fold_left (merge_attempted is_correct now) rows (rels, out)))
  = match filter (attempt_between u q) rels with
    | [] => [on_create u q is_correct now]
    | l => map (on_match is_correct now) l
    end.
Proof.
  induction rows as [|[u' q'] rows IH]; intros rels out Hnd Hin;
    [destruct Hin|].
  inversion Hnd as [|r rs Hnotin Hnd']; subst. cbn [fold_left].
  destruct (merge_attempted is_correct now (rels, out) (u', q'))
    as [rels1 out1] eqn:Hm.
  assert (Hrels1 : rels1 = fst (merge_attempted is_correct now (rels, out) (u', q')))
    by now rewrite Hm.
  destruct Hin as [[= -> ->] | Hin].
  - rewrite fold_merge_attempted_other by exact Hnotin.
    rewrite Hrels1. apply merge_attempted_self.
  - rewrite IH by assumption. rewrite Hrels1.
    rewrite merge_attempted_other; [reflexivity|].
    intros [= -> ->]. contradiction.
Qed.

Lemma fold_merge_attempted_out (is_correct : bool) (now : timestamp)
  (rows : list (node_id * node_id)) (rels out : list Attempted) :
  fold_left (merge_attempted is_correct now) rows (rels, out)
  = (fst (fold_left (merge_attempted is_correct now) rows (rels, out)),
     snd (fold_left (merge_attempted is_correct now) rows (rels, out))).
Proof. apply surjective_pairing. Qed.

(** C8.  When the backend answers, every (user, question) pair the call
    matches, each matched once, has its [ATTEMPTED] relationship upserted.
    If there was none, one is created with [attempt_count] 1,
    [correct_count] 1 or 0 as the attempt is correct or not, [first_attempt]
    the time of the call, and [last_correct] that time when correct.  If
    there was one, it is kept with [attempt_count] one more, [correct_count]
    one more exactly when the attempt is correct, [last_attempt] the time of
    the call, [last_correct] that time when correct and as before otherwise,
    and [first_attempt] as before.  The relationships of the pairs the call
    does not match are as before, and no node is created or removed. *)
Theorem record_attempt_upserts (subject topic question_text : string)
  (is_correct : bool) (u q : node_id) (w : World) :
  next_ok w = true ->
  NoDup (attempt_rows (graph w) subject topic question_text) ->
  In (u, q) (attempt_rows (graph w) subject topic question_text) ->
  fst (record_attempt subject topic question_text is_correct w) = Ok tt /\
  (attempts_between (graph w) u q = [] ->
   attempts_between
     (graph (snd (record_attempt subject topic question_text is_correct w)))
     u q
   = [mkAttempted u q (clock w) None 1
        (if is_correct then 1 else 0)
        (if is_correct then Some (clock w) else None)]) /\
  (forall a, attempts_between (graph w) u q = [a] ->
   attempts_between
     (graph (snd (record_attempt subject topic question_text is_correct w)))
     u q
   = [mkAttempted u q (a_first_attempt a) (Some (clock w))
        (a_attempt_count a + 1)
        (a_correct_count a + (if is_correct then 1 else 0))
        (if is_correct then Some (clock w) else a_last_correct a)]) /\
  (forall u' q',
     ~ In (u', q') (attempt_rows (graph w) subject topic question_text) ->
     attempts_between
       (graph (snd (record_attempt subject topic question_text is_correct w)))
       u' q'
     = attempts_between (graph w) u' q') /\
  (forall l,
     count_nodes l
       (graph (snd (record_attempt subject topic question_text is_correct w)))
     = count_nodes l (graph w)).
Proof.
  intros Hok Hnd Hin.
  unfold record_attempt, bind, try_except.
  rewrite run_query_ok by exact Hok. unfold attempts_between.
  cbn [fst snd graph ret]. unfold cypher_record_attempt.
  rewrite fold_merge_attempted_out. cbn [fst snd attempted with_attempted].
  split; [reflexivity|]. split; [|split; [|split]].
  - intros Hnone.
    rewrite (fold_merge_attempted_self _ _ _ _ _ _ _ Hnd Hin), Hnone.
    reflexivity.
  - intros a Ha.
    rewrite (fold_merge_attempted_self _ _ _ _ _ _ _ Hnd Hin), Ha.
    assert (Hm : In a (filter (attempt_between u q) (attempted (graph w))))
      by (rewrite Ha; now left).
    apply filter_In in Hm as [_ Hm].
    apply attempt_between_iff in Hm as [<- <-]. reflexivity.
  - intros u' q' Hnot. now apply fold_merge_attempted_other.
  - intros l. destruct l; reflexivity.
Qed.

Lemma record_attempt_upserts_witness :
  next_ok (world_of practice_graph) = true /\
  attempt_rows practice_graph "Algorithms" "Sorting" "Q1" = [(5, 2)] /\
  attempts_between practice_graph 5 2 = [mkAttempted 5 2 6 None 1 0 None] /\
  attempts_between
    (graph (snd (record_attempt "Algorithms" "Sorting" "Q1" true
                   (world_of practice_graph)))) 5 2
  = [mkAttempted 5 2 6 (Some 0) (1 + 1) (0 + 1) (Some 0)].
Proof.
  split; [reflexivity|]. split; [reflexivity|]. split; [reflexivity|].
  assert (Hnd : NoDup (attempt_rows (graph (world_of practice_graph))
                         "Algorithms" "Sorting" "Q1")).
  { vm_compute. constructor; [intros [] | constructor]. }
  assert (Hin : In (5, 2) (attempt_rows (graph (world_of practice_graph))
                             "Algorithms" "Sorting" "Q1")).
  { vm_compute. left. reflexivity. }
  destruct (record_attempt_upserts "Algorithms" "Sorting" "Q1" true 5 2
              (world_of practice_graph) eq_refl Hnd Hin)
    as (_ & _ & Hupdate & _).
  apply (Hupdate (mkAttempted 5 2 6 None 1 0 None)). reflexivity.
Defined.

Example three_attempts :
  let w1 := snd (record_attempt "Algorithms" "Sorting" "Q2" true
                   (world_of practice_graph)) in
  let w2 := snd (record_attempt "Algorithms" "Sorting" "Q2" false w1) in
  let w3 := snd (record_attempt "Algorithms" "Sorting" "Q2" true w2) in
  attempts_between (graph w1) 5 3 = [mkAttempted 5 3 0 None 1 1 (Some 0)] /\
  attempts_between (graph w2) 5 3 = [mkAttempted 5 3 0 (Some 1) 2 1 (Some 0)] /\
  attempts_between (graph w3) 5 3 = [mkAttempted 5 3 0 (Some 2) 3 2 (Some 2)] /\
  length (attempted (graph w3)) = 2.
Proof. vm_compute. repeat split. Qed.

(** ** Graph search *)

Lemma flat_map_nil (A B : Type) (f : A -> list B) (l : list A) :
  (forall x, In x l -> f x = []) -> flat_map f l = [].
Proof.
  induction l as [|x l IH]; intros H; simpl; [reflexivity|].
  rewrite (H x) by now left. apply IH. intros y Hy. apply H. now right.
Qed.

Lemma topic_paths_no_subject (g : Graph) (subject topic : string) :
  no_subject_named g subject -> topic_paths g subject topic = [].
Proof.
  unfold no_subject_named, topic_paths. intros H.
  apply existsb_false_filter in H. now rewrite H.
Qed.

Lemma topic_paths_no_topic (g : Graph) (subject topic : string) :
  no_topic_named g topic -> topic_paths g subject topic = [].
Proof.
  unfold no_topic_named, topic_paths. intros H.
  apply flat_map_nil. intros s _. apply flat_map_nil. intros id _.
  apply existsb_false_filter.
  destruct (existsb (fun t => Nat.eqb (t_id t) id && String.eqb (t_name t) topic)
              (topics g)) eqn:Hex; [|reflexivity].
  apply existsb_exists in Hex as (t & Hin & Ht).
  apply andb_true_iff in Ht as [_ Ht].
  assert (Hyes : existsb (fun t => String.eqb (t_name t) topic) (topics g) = true)
    by (apply existsb_exists; exists t; auto).
  congruence.
Qed.

(** C9.  [graph_search] never raises.  When no Subject node or no Topic
    node carries the given name (more generally, when no Subject-to-Topic
    path matches) it returns the empty dictionary.  When the matched topics
    have no chunk and no question linked, whatever it returns is the empty
    dictionary or a context with no sample chunk and a question count of 0,
    and it is such a context when the backend answers and a path matches. *)
Theorem graph_search_empty_context (subject topic : string)
  (include_concepts : bool) (w : World) :
  (exists context,
     fst (graph_search subject topic include_concepts w) = Ok context) /\
  (no_subject_named (graph w) subject \/ no_topic_named (graph w) topic \/
   topic_paths (graph w) subject topic = [] ->
   fst (graph_search subject topic include_concepts w) = Ok None) /\
  (nothing_ingested (graph w) subject topic ->
   (forall context,
      fst (graph_search subject topic include_concepts w) = Ok (Some context) ->
      tc_sample_chunks context = [] /\ tc_question_count context = 0) /\
   (next_ok w = true -> topic_paths (graph w) subject topic <> [] ->
    exists context,
      fst (graph_search subject topic include_concepts w) = Ok (Some context))).
Proof.
  unfold graph_search, bind, try_except, ret.
  step_query; cbn [fst snd cypher_graph_search].
  - split; [eexists; reflexivity|]. split.
    + intros H.
      assert (Hp : topic_paths (graph w) subject topic = []).
      { destruct H as [H | [H | H]];
          [now apply topic_paths_no_subject
          | now apply topic_paths_no_topic | exact H]. }
      rewrite Hp. reflexivity.
    + intros Hnone. split.
      * intros context Hc. injection Hc as Hc.
        destruct (distinct group_key_eqb
                    (map group_key (topic_paths (graph w) subject topic)))
          as [|key keys]; [discriminate|].
        cbn [map hd_error] in Hc. injection Hc as <-.
        cbn [tc_sample_chunks tc_question_count].
        assert (Hch : flat_map (chunks_of (graph w))
                        (filter (fun t => group_key_eqb key (group_key t))
                           (topic_paths (graph w) subject topic)) = []).
        { apply flat_map_nil. intros t Ht. apply filter_In in Ht as [Ht _].
          apply (Hnone t Ht). }
        assert (Hqs : flat_map (questions_of (graph w))
                        (filter (fun t => group_key_eqb key (group_key t))
                           (topic_paths (graph w) subject topic)) = []).
        { apply flat_map_nil. intros t Ht. apply filter_In in Ht as [Ht _].
          apply (Hnone t Ht). }
        rewrite Hch, Hqs. split; reflexivity.
      * intros _ Hp.
        destruct (topic_paths (graph w) subject topic) as [|t ts];
          [congruence|].
        cbn [map distinct hd_error]. eexists. reflexivity.
  - split; [eexists; reflexivity|]. split; [reflexivity|].
    intros _. split; [discriminate|]. intros Hyes. discriminate.
Qed.

Lemma graph_search_empty_context_witness :
  nothing_ingested sorting_graph "Algorithms" "Sorting" /\
  no_subject_named sorting_graph "Databases" /\
  fst (graph_search "Databases" "Indexing" true (world_of sorting_graph))
    = Ok None /\
  exists context,
    fst (graph_search "Algorithms" "Sorting" true (world_of sorting_graph))
      = Ok (Some context) /\
    tc_sample_chunks context = [] /\ tc_question_count context = 0.
Proof.
  assert (Hnone : nothing_ingested sorting_graph "Algorithms" "Sorting").
  { intros t Ht. vm_compute in Ht. destruct Ht as [<- | []].
    split; reflexivity. }
  split; [exact Hnone|]. split; [reflexivity|]. split.
  - apply (graph_search_empty_context "Databases" "Indexing" true
             (world_of sorting_graph)).
    left. reflexivity.
  - destruct (graph_search_empty_context "Algorithms" "Sorting" true
                (world_of sorting_graph)) as (_ & _ & Hempty).
    destruct (Hempty Hnone) as [Hall Hex].
    destruct Hex as (context & Hc); [reflexivity | discriminate|].
    exists context. split; [exact Hc|]. apply Hall. exact Hc.
Defined.

Example graph_search_fresh_topic :
  fst (graph_search "Algorithms" "Sorting" true (world_of sorting_graph))
  = Ok (Some (mkTopicContext "Sorting" "" 2 [] 0 (Some []))).
Proof. reflexivity. Qed.

Example graph_search_counts :
  fst (graph_search "Algorithms" "Sorting" false (world_of practice_graph))
  = Ok (Some (mkTopicContext "Sorting" "" 2 [] 3 None)).
Proof. reflexivity. Qed.

(** ** The key invariant on topics *)

Lemma topic_keys_unique_skeleton (g : Graph) :
  topic_keys_unique g <-> NoDup (map snd (sk_topics (skeleton g))).
Proof.
  unfold topic_keys_unique, skeleton. cbn [sk_topics]. rewrite map_map.
  reflexivity.
Qed.

Lemma skel_op_unique (o : syllabus_op) (k : Skeleton) :
  NoDup (map snd (sk_topics k)) -> NoDup (map snd (sk_topics (skel_op o k))).
Proof.
  intros Hnd. destruct o as [n d | sn tn d df]; simpl.
  - destruct (skel_subject_grows n k) as (-> & _). exact Hnd.
  - destruct (skel_topic_grows sn tn k) as (_ & _ & [-> | [Hno ->]]);
      [exact Hnd|].
    rewrite map_app. cbn [map snd].
    apply NoDup_app; [exact Hnd | repeat constructor; intros [] |].
    intros key Hin [<- | []]. apply Hno.
    apply in_map_iff in Hin as ([id key'] & Hk & Hin). simpl in Hk. subst key'.
    now exists id.
Qed.

(** [load_syllabus] keeps the topic keys unique, and the empty graph has
    them unique: the builder alone never duplicates a Topic. *)
Lemma load_syllabus_keeps_topics_unique (syllabus_data : syllabus) (w : World) :
  healthy w = true ->
  topic_keys_unique (graph w) ->
  topic_keys_unique (graph (snd (load_syllabus syllabus_data w))).
Proof.
  intros H Hu.
  destruct (load_syllabus_healthy syllabus_data w H) as (w1 & -> & _ & Hg & _).
  cbn [snd]. apply topic_keys_unique_skeleton.
  rewrite Hg, skeleton_apply_ops.
  apply topic_keys_unique_skeleton in Hu. revert Hu.
  generalize (skeleton (graph w)). generalize (syllabus_ops syllabus_data).
  intros os. induction os as [|o os IH]; intros k Hk; [exact Hk|].
  simpl. apply IH. apply skel_op_unique. exact Hk.
Qed.

Lemma empty_graph_topics_unique : topic_keys_unique empty_graph.
Proof. constructor. Qed.

(** ** Topics and concepts without their anchor *)

(** X1.  [create_topic] for a subject name that no Subject node carries
    writes nothing and prints nothing of its own: when the backend answers it
    returns [None] with the graph and the console as they were. *)
Theorem create_topic_without_subject (subject_name topic_name description : string)
  (difficulty : Z) (w : World) :
  no_subject_named (graph w) subject_name ->
  graph (snd (create_topic subject_name topic_name description difficulty w))
    = graph w /\
  fst (create_topic subject_name topic_name description difficulty w)
    = (if next_ok w then Ok None else Raise BackendError) /\
  (next_ok w = true ->
   stdout (snd (create_topic subject_name topic_name description difficulty w))
     = stdout w).
Proof.
  unfold no_subject_named. intros Hno. apply existsb_false_filter in Hno.
  unfold create_topic, bind.
  destruct (next_ok w) eqn:Hok.
  - rewrite run_query_ok by exact Hok. unfold cypher_create_topic.
    rewrite Hno. repeat split.
  - rewrite run_query_fault by exact Hok. repeat split. discriminate.
Qed.

Lemma create_topic_without_subject_witness :
  no_subject_named (graph (world_of sorting_graph)) "Databases" /\
  graph (snd (create_topic "Databases" "Indexing" "B-trees" 3
                (world_of sorting_graph))) = sorting_graph.
Proof.
  split; [reflexivity|].
  apply (create_topic_without_subject "Databases" "Indexing" "B-trees" 3
           (world_of sorting_graph)).
  reflexivity.
Defined.

(** X2.  [create_concept] for a (subject, topic) pair that no Topic node
    carries writes nothing: the graph is as it was, and the call returns
    [None] when the backend answers, without any message. *)
Theorem create_concept_without_topic (name explanation topic_name subject_name : string)
  (w : World) :
  topic_exists (graph w) subject_name topic_name = false ->
  graph (snd (create_concept name explanation topic_name subject_name w))
    = graph w /\
  fst (create_concept name explanation topic_name subject_name w)
    = (if next_ok w then Ok None else Raise BackendError) /\
  (next_ok w = true ->
   stdout (snd (create_concept name explanation topic_name subject_name w))
     = stdout w).
Proof.
  unfold topic_exists. intros Hno. apply existsb_false_filter in Hno.
  unfold create_concept, bind.
  destruct (next_ok w) eqn:Hok.
  - rewrite run_query_ok by exact Hok. unfold cypher_create_concept.
    rewrite Hno. repeat split.
  - rewrite run_query_fault by exact Hok. repeat split. discriminate.
Qed.

Lemma create_concept_without_topic_witness :
  topic_exists (graph (world_of sorting_graph)) "Algorithms" "Hashing" = false /\
  graph (snd (create_concept "Collision" "Two keys, one slot" "Hashing"
                "Algorithms" (world_of sorting_graph))) = sorting_graph.
Proof.
  split; [reflexivity|].
  apply (create_concept_without_topic "Collision" "Two keys, one slot"
           "Hashing" "Algorithms" (world_of sorting_graph)).
  reflexivity.
Defined.

(** ** Concepts are upserted *)

Lemma concept_matches_set (name topic subject explanation : string)
  (now : timestamp) (c : ConceptNode) :
  concept_matches name topic subject (set_concept explanation now c)
  = concept_matches name topic subject c.
Proof. reflexivity. Qed.

Lemma in_set_concepts (name topic subject explanation : string)
  (now : timestamp) (l : list ConceptNode) (c : ConceptNode) :
  In c (map (fun c0 => if concept_matches name topic subject c0
                       then set_concept explanation now c0 else c0) l) ->
  concept_matches name topic subject c = true ->
  k_explanation c = explanation /\
  exists c0, In c0 l /\ concept_matches name topic subject c0 = true /\
             k_id c0 = k_id c.
Proof.
  intros Hin Hm. apply in_map_iff in Hin as (c0 & <- & Hin).
  destruct (concept_matches name topic subject c0) eqn:Hc0.
  - split; [reflexivity|]. exists c0. auto.
  - congruence.
Qed.

Lemma map_set_concept_ids (name topic subject explanation : string)
  (now : timestamp) (l : list ConceptNode) :
  map k_id (map (fun c0 => if concept_matches name topic subject c0
                           then set_concept explanation now c0 else c0) l)
  = map k_id l.
Proof.
  rewrite map_map. apply map_ext. intros c.
  destruct (concept_matches name topic subject c); reflexivity.
Qed.

(** What the query of [create_concept] leaves when the topic exists. *)
Lemma create_concept_settles (name explanation topic subject : string)
  (now : timestamp) (g : Graph) :
  topic_exists g subject topic = true ->
  concept_settled name topic subject
    (fst (cypher_create_concept name explanation topic subject now g)) /\
  topics (fst (cypher_create_concept name explanation topic subject now g))
    = topics g /\
  (forall c,
     In c (concepts (fst (cypher_create_concept name explanation topic subject
                            now g))) ->
     concept_matches name topic subject c = true ->
     k_explanation c = explanation) /\
  (exists c,
     hd_error (snd (cypher_create_concept name explanation topic subject now g))
       = Some c /\ k_explanation c = explanation).
Proof.
  unfold topic_exists. intros Hex. pose proof Hex as Hne.
  apply existsb_true_filter in Hne.
  unfold cypher_create_concept.
  destruct (filter (topic_matches topic subject) (topics g)) as [|t0 ts0] eqn:Hts;
    [congruence|].
  rewrite <- Hts. clear Hne.
  set (g1 := if existsb (concept_matches name topic subject) (concepts g) then g
             else bump_id (with_concepts
                    (concepts g ++ [mkConcept (next_id g) name topic subject
                                      explanation now]) g)).
  assert (Ht1 : topics g1 = topics g)
    by (unfold g1; destruct (existsb _ (concepts g)); reflexivity).
  assert (Hex1 : existsb (concept_matches name topic subject) (concepts g1) = true).
  { unfold g1. destruct (existsb (concept_matches name topic subject)
                           (concepts g)) eqn:He; [exact He|].
    cbn. rewrite existsb_app. cbn. unfold concept_matches at 2. cbn.
    rewrite !String.eqb_refl. cbn. apply orb_true_r. }
  set (cs2 := map (fun c => if concept_matches name topic subject c
                            then set_concept explanation now c else c)
                (concepts g1)).
  assert (Hex2 : existsb (concept_matches name topic subject) cs2 = true).
  { apply existsb_exists in Hex1 as (c & Hin & Hm).
    apply existsb_exists. exists (set_concept explanation now c). split; [|exact Hm].
    unfold cs2. apply in_map_iff. exists c. rewrite Hm. auto. }
  unfold concept_settled.
  cbn [fst snd concepts topics has_concept with_concepts with_has_concept].
  fold cs2. split; [split|split; [|split]].
  - exact Hex2.
  - intros t c Ht Htm Hc Hcm. rewrite Ht1 in Ht. apply fold_merge_adds.
    apply in_map_iff. exists (t, c). split; [reflexivity|].
    apply in_prod; apply filter_In; split; assumption.
  - exact Ht1.
  - intros c Hc Hm. now apply (in_set_concepts name topic subject explanation
                                 now (concepts g1)).
  - apply existsb_exists in Hex2 as (c & Hin & Hm).
    assert (Hf : In c (filter (concept_matches name topic subject) cs2))
      by (apply filter_In; auto).
    rewrite Hts. cbn [list_prod].
    destruct (filter (concept_matches name topic subject) cs2) as [|c1 cs1] eqn:Hcs;
      [destruct Hf|].
    exists c1. split; [reflexivity|].
    assert (Hc1 : In c1 (filter (concept_matches name topic subject) cs2))
      by (rewrite Hcs; now left).
    apply filter_In in Hc1 as [Hc1 Hm1].
    now apply (in_set_concepts name topic subject explanation now (concepts g1)).
Qed.

(** On a settled graph the query only rewrites properties. *)
Lemma create_concept_again (name explanation topic subject : string)
  (now : timestamp) (g : Graph) :
  concept_settled name topic subject g ->
  map k_id (concepts (fst (cypher_create_concept name explanation topic subject
                             now g))) = map k_id (concepts g) /\
  has_concept (fst (cypher_create_concept name explanation topic subject now g))
    = has_concept g /\
  next_id (fst (cypher_create_concept name explanation topic subject now g))
    = next_id g.
Proof.
  intros [Hex Hedges]. unfold cypher_create_concept.
  destruct (filter (topic_matches topic subject) (topics g)) as [|t0 ts0] eqn:Hts;
    [auto|].
  rewrite <- Hts. rewrite Hex.
  cbn [fst concepts has_concept next_id with_concepts with_has_concept].
  split; [apply map_set_concept_ids|]. split; [|reflexivity].
  apply fold_merge_present. intros e He.
  apply in_map_iff in He as ([t c] & <- & Hin).
  apply in_prod_iff in Hin as [Ht Hc]. cbn [fst snd].
  apply filter_In in Ht as [Ht Htm]. apply filter_In in Hc as [Hc Hcm].
  destruct (in_set_concepts name topic subject explanation now (concepts g) c
              Hc Hcm) as (_ & c0 & Hc0 & Hm0 & <-).
  now apply Hedges.
Qed.

(** X3.  [create_concept] is an upsert.  On a backend that answers, with the
    topic present, a second call for the same (name, topic, subject) with
    another explanation returns the concept carrying the new explanation and
    adds no Concept node and no [HAS_CONCEPT] relationship: the same
    identifiers are there, and every concept with that key carries the new
    explanation.  After either call a concept with that key is in the graph
    and every Topic node of the key, of which there is one, is linked to
    every such concept by a [HAS_CONCEPT] relationship. *)
Theorem create_concept_upserts (name explanation1 explanation2 topic subject : string)
  (w : World) :
  healthy w = true ->
  topic_exists (graph w) subject topic = true ->
  exists c1 w1 c2 w2,
    create_concept name explanation1 topic subject w = (Ok (Some c1), w1) /\
    create_concept name explanation2 topic subject w1 = (Ok (Some c2), w2) /\
    k_explanation c2 = explanation2 /\
    count_nodes Concept (graph w2) = count_nodes Concept (graph w1) /\
    map k_id (concepts (graph w2)) = map k_id (concepts (graph w1)) /\
    has_concept (graph w2) = has_concept (graph w1) /\
    (forall c, In c (concepts (graph w2)) ->
               concept_matches name topic subject c = true ->
               k_explanation c = explanation2) /\
    k_explanation c1 = explanation1 /\
    concept_settled name topic subject (graph w1) /\
    concept_settled name topic subject (graph w2) /\
    (exists t c,
       In t (topics (graph w2)) /\
       topic_matches topic subject t = true /\
       In c (concepts (graph w2)) /\
       concept_matches name topic subject c = true /\
       existsb (edge_eqb (t_id t, k_id c)) (has_concept (graph w2)) = true).
Proof.
  intros Hh Hex.
  destruct (create_concept_settles name explanation1 topic subject (clock w)
              (graph w) Hex) as (Hset & Htop & _ & c1 & Hc1 & He1).
  set (g1 := fst (cypher_create_concept name explanation1 topic subject
                    (clock w) (graph w))) in *.
  assert (H1 : create_concept name explanation1 topic subject w
               = (Ok (Some c1), advance 1 g1 w)).
  { unfold create_concept, bind. rewrite run_query_healthy by exact Hh.
    rewrite Hc1. reflexivity. }
  assert (Hex1 : topic_exists g1 subject topic = true)
    by (unfold topic_exists; rewrite Htop; exact Hex).
  destruct (create_concept_settles name explanation2 topic subject
              (1 + clock w) g1 Hex1) as (Hset2 & Htop2 & Hall & c2 & Hc2 & He2).
  destruct (create_concept_again name explanation2 topic subject
              (1 + clock w) g1 Hset) as (Hids & Hedges & _).
  set (g2 := fst (cypher_create_concept name explanation2 topic subject
                    (1 + clock w) g1)) in *.
  assert (H2 : create_concept name explanation2 topic subject (advance 1 g1 w)
               = (Ok (Some c2), advance 1 g2 (advance 1 g1 w))).
  { unfold create_concept, bind.
    rewrite run_query_healthy by (apply healthy_advance; exact Hh).
    cbn [graph clock advance]. rewrite Hc2. reflexivity. }
  exists c1, (advance 1 g1 w), c2, (advance 1 g2 (advance 1 g1 w)).
  split; [exact H1|]. split; [exact H2|]. cbn [graph advance].
  split; [exact He2|].
  split; [|split; [exact Hids|split; [exact Hedges|split; [exact Hall|]]]].
  - cbn [count_nodes].
    rewrite <- (length_map k_id (concepts g1)), <- Hids. symmetry.
    apply length_map.
  - split; [exact He1|]. split; [exact Hset|]. split; [exact Hset2|].
    assert (Hex2 : existsb (topic_matches topic subject) (topics g2) = true)
      by (rewrite Htop2; exact Hex1).
    apply existsb_exists in Hex2 as (t & Ht & Htm).
    destruct Hset2 as [Hc Hlinked].
    apply existsb_exists in Hc as (c & Hc & Hcm).
    exists t, c. repeat split; auto.
Qed.

Lemma create_concept_upserts_witness :
  healthy (world_of sorting_graph) = true /\
  topic_exists (graph (world_of sorting_graph)) "Algorithms" "Sorting" = true /\
  exists c1 w1 c2 w2,
    create_concept "Stability" "Keeps ties in order" "Sorting" "Algorithms"
      (world_of sorting_graph) = (Ok (Some c1), w1) /\
    create_concept "Stability" "Equal keys keep their order" "Sorting"
      "Algorithms" w1 = (Ok (Some c2), w2) /\
    k_explanation c2 = "Equal keys keep their order"%string /\
    count_nodes Concept (graph w2) = count_nodes Concept (graph w1) /\
    concept_settled "Stability" "Sorting" "Algorithms" (graph w2).
Proof.
  split; [reflexivity|]. split; [reflexivity|].
  destruct (create_concept_upserts "Stability" "Keeps ties in order"
              "Equal keys keep their order" "Sorting" "Algorithms"
              (world_of sorting_graph) eq_refl eq_refl)
    as (c1 & w1 & c2 & w2 & H1 & H2 & He & Hn & _ & _ & _ & _ & _ & Hs & _).
  exists c1, w1, c2, w2.
  split; [exact H1|]. split; [exact H2|]. split; [exact He|].
  split; [exact Hn | exact Hs].
Defined.

(** ** A question that is accepted *)

Lemma edge_eqb_eq (e1 e2 : edge) : edge_eqb e1 e2 = true -> e1 = e2.
Proof.
  destruct e1 as [a b], e2 as [c d]. unfold edge_eqb. cbn.
  rewrite andb_true_iff, !Nat.eqb_eq. intros [-> ->]. reflexivity.
Qed.

Lemma existsb_edge_in (e : edge) (es : list edge) :
  existsb (edge_eqb e) es = true -> In e es.
Proof.
  intros H. apply existsb_exists in H as (e' & Hin & He).
  apply edge_eqb_eq in He. now subst.
Qed.

Lemma merge_edge_in (es : list edge) (e : edge) : In e (merge_edge es e).
Proof. apply existsb_edge_in. apply merge_edge_adds. Qed.

Lemma unique_topic_filter (name subject : string) (g : Graph) :
  topic_keys_unique g ->
  topic_exists g subject name = true ->
  exists t, filter (topic_matches name subject) (topics g) = [t].
Proof.
  intros Hu Hex. unfold topic_exists in Hex.
  pose proof (unique_topic_at_most_one name subject (topics g) Hu) as Hle.
  apply existsb_true_filter in Hex.
  destruct (filter (topic_matches name subject) (topics g)) as [|t [|t' ts]];
    [congruence | now exists t | simpl in Hle; lia].
Qed.

(** The run of [create_question] on a backend that answers, with the topic
    there once. *)
Lemma create_question_success (E : EmbeddingsGenerator)
  (question : question_data) (w : World) :
  healthy w = true ->
  topic_keys_unique (graph w) ->
  topic_exists (graph w) (qd_subject question) (qd_topic question) = true ->
  exists t out,
    filter (topic_matches (qd_topic question) (qd_subject question))
      (topics (graph w)) = [t] /\
    create_question E question w =
      (Ok (Some (mkQuestion (next_id (graph w)) (question_text question)
                   (get (qd_year question) 0%Z)
                   (get (qd_paper_set question) "unknown"%string)
                   (get (qd_options question) [])
                   (get (qd_answer question) EmptyString)
                   (get (qd_difficulty question) 0%Z)
                   (get (qd_marks question) 1%Z)
                   (embedding_of E (full_text question)) (S (clock w)))),
       mkWorld
         (bump_id
            (with_has_question
               (merge_edge (has_question (graph w))
                  (t_id t, next_id (graph w)))
               (with_questions
                  (questions (graph w)
                   ++ [mkQuestion (next_id (graph w)) (question_text question)
                         (get (qd_year question) 0%Z)
                         (get (qd_paper_set question) "unknown"%string)
                         (get (qd_options question) [])
                         (get (qd_answer question) EmptyString)
                         (get (qd_difficulty question) 0%Z)
                         (get (qd_marks question) 1%Z)
                         (embedding_of E (full_text question)) (S (clock w))])
                  (graph w))))
         (tl (tl (faults w))) (S (S (clock w)))
         (embed_calls w ++ [full_text question]) out).
Proof.
  intros Hh Hu Hex.
  destruct (unique_topic_filter _ _ _ Hu Hex) as (t & Hf).
  unfold create_question, bind.
  rewrite run_query_ok by (apply healthy_next_ok; exact Hh).
  cbn [cypher_match_topic fst snd]. rewrite Hf.
  match goal with |- context [generate_embedding E ?txt ?w0] =>
    destruct (generate_embedding_run E txt w0) as (out & Hg) end.
  exists t, out. split; [reflexivity|]. rewrite Hg.
  rewrite run_query_ok by
    (apply healthy_next_ok; simpl; apply (healthy_tl _ w); exact Hh).
  cbn [graph clock faults embed_calls stdout].
  unfold cypher_create_question. rewrite Hf. reflexivity.
Qed.

(** X4.  On a backend that answers, with the Topic keys unique and the
    record's topic present, [create_question] returns the node it created:
    exactly one Question node is added, with the record's text and the
    defaults year 0, paper set "unknown", no options, empty answer,
    difficulty 0 and marks 1 for the keys the record lacks; the node is the
    target of a [HAS_QUESTION] relationship from the Topic node of the
    record's key; the embedder was handed the full text once; and the nodes
    of every other label are untouched. *)
Theorem create_question_creates_linked_node (E : EmbeddingsGenerator)
  (question : question_data) (w : World) :
  healthy w = true ->
  topic_keys_unique (graph w) ->
  topic_exists (graph w) (qd_subject question) (qd_topic question) = true ->
  exists node t,
    fst (create_question E question w) = Ok (Some node) /\
    questions (graph (snd (create_question E question w)))
      = questions (graph w) ++ [node] /\
    q_text node = question_text question /\
    q_year node = get (qd_year question) 0%Z /\
    q_paper_set node = get (qd_paper_set question) "unknown"%string /\
    q_options node = get (qd_options question) [] /\
    q_answer node = get (qd_answer question) EmptyString /\
    q_difficulty node = get (qd_difficulty question) 0%Z /\
    q_marks node = get (qd_marks question) 1%Z /\
    In t (topics (graph w)) /\
    topic_matches (qd_topic question) (qd_subject question) t = true /\
    In (t_id t, q_id node)
      (has_question (graph (snd (create_question E question w)))) /\
    embed_calls (snd (create_question E question w))
      = embed_calls w ++ [full_text question] /\
    same_but_questions (graph w) (graph (snd (create_question E question w))).
Proof.
  intros Hh Hu Hex.
  destruct (create_question_success E question w Hh Hu Hex)
    as (t & out & Hf & ->).
  assert (Ht : In t (filter (topic_matches (qd_topic question)
                               (qd_subject question)) (topics (graph w))))
    by (rewrite Hf; now left).
  apply filter_In in Ht as [Ht Hm].
  eexists. exists t. cbn [fst snd graph embed_calls].
  repeat split; try reflexivity; try assumption.
  cbn. apply merge_edge_in.
Qed.

Lemma create_question_creates_linked_node_witness :
  healthy (world_of sorting_graph) = true /\
  exists node t,
    fst (create_question unit_embedder merge_sort_question
           (world_of sorting_graph)) = Ok (Some node) /\
    questions (graph (snd (create_question unit_embedder merge_sort_question
                             (world_of sorting_graph))))
      = [] ++ [node] /\
    q_text node = "What is merge sort?"%string /\
    q_year node = 2023%Z /\
    q_paper_set node = "unknown"%string /\
    In (t_id t, q_id node)
      (has_question (graph (snd (create_question unit_embedder
                                   merge_sort_question
                                   (world_of sorting_graph))))).
Proof.
  split; [reflexivity|].
  assert (Hu : topic_keys_unique (graph (world_of sorting_graph))).
  { unfold topic_keys_unique. simpl.
    constructor; [intros [] | constructor]. }
  destruct (create_question_creates_linked_node unit_embedder
              merge_sort_question (world_of sorting_graph) eq_refl Hu eq_refl)
    as (node & t & Hr & Hq & Htxt & Hy & Hp & _ & _ & _ & _ & _ & _ & He & _).
  exists node, t. repeat split; assumption.
Defined.

Lemma in_questions_of (g : Graph) (t : TopicNode) (q : QuestionNode) :
  In (t_id t, q_id q) (has_question g) -> In q (questions g) ->
  In q (questions_of g t).
Proof.
  intros He Hq. unfold questions_of. apply in_flat_map. exists (q_id q). split.
  - unfold targets. apply in_map_iff. exists (t_id t, q_id q).
    split; [reflexivity|]. apply filter_In. split; [exact He|].
    apply Nat.eqb_refl.
  - apply filter_In. split; [exact Hq | apply Nat.eqb_refl].
Qed.

(** X5.  A question that [create_question] has accepted can be read back:
    right after the call, [get_questions_ordered_by_difficulty] for the
    record's subject and topic, in either direction, returns a row with the
    record's text, options, answer, year, difficulty and marks (defaults for
    the keys the record lacks). *)
Theorem created_question_is_retrieved (E : EmbeddingsGenerator)
  (question : question_data) (ascending : bool) (w : World) :
  healthy w = true ->
  topic_keys_unique (graph w) ->
  topic_exists (graph w) (qd_subject question) (qd_topic question) = true ->
  exists rows,
    fst (get_questions_ordered_by_difficulty (qd_subject question)
           (qd_topic question) ascending
           (snd (create_question E question w))) = Ok rows /\
    In (mkQuestionRow (question_text question)
          (get (qd_options question) [])
          (get (qd_answer question) EmptyString)
          (get (qd_year question) 0%Z)
          (get (qd_difficulty question) 0%Z)
          (get (qd_marks question) 1%Z) None) rows.
Proof.
  intros Hh Hu Hex.
  destruct (create_question_success E question w Hh Hu Hex)
    as (t & out & Hf & ->).
  assert (Ht : In t (filter (topic_matches (qd_topic question)
                               (qd_subject question)) (topics (graph w))))
    by (rewrite Hf; now left).
  cbn [snd]. unfold get_questions_ordered_by_difficulty, try_except.
  rewrite run_query_ok.
  - cbn [fst snd graph cypher_questions_ordered]. eexists.
    split; [reflexivity|]. apply order_by_in. apply in_map_iff.
    match goal with
    | |- context [with_questions (questions (graph w) ++ [?n]) _] => exists n
    end.
    split; [|apply in_flat_map; exists t; split;
              [exact Ht | apply in_questions_of]].
    + reflexivity.
    + cbn. apply merge_edge_in.
    + cbn. apply in_or_app. right. now left.
  - unfold next_ok. cbn [faults]. unfold healthy in Hh.
    destruct (faults w) as [|b [|b' [|b'' r]]]; cbn in *; auto.
    + destruct b, b'; cbn in Hh; try discriminate.
      destruct b''; [discriminate | reflexivity].
Qed.

Lemma created_question_is_retrieved_witness :
  healthy (world_of sorting_graph) = true /\
  exists rows,
    fst (get_questions_ordered_by_difficulty "Algorithms" "Sorting" true
           (snd (create_question unit_embedder merge_sort_question
                   (world_of sorting_graph)))) = Ok rows /\
    In (mkQuestionRow "What is merge sort?" []
          "A divide-and-conquer algorithm" 2023 0 1 None) rows.
Proof.
  split; [reflexivity|].
  assert (Hu : topic_keys_unique (graph (world_of sorting_graph))).
  { unfold topic_keys_unique. simpl.
    constructor; [intros [] | constructor]. }
  apply (created_question_is_retrieved unit_embedder merge_sort_question true
           (world_of sorting_graph) eq_refl Hu eq_refl).
Defined.

(** ** What the look-ups return *)

Lemma strongly_sorted_firstn (A : Type) (R : A -> A -> Prop) (n : nat)
  (l : list A) :
  StronglySorted R l -> StronglySorted R (firstn n l).
Proof.
  revert l. induction n as [|n IH]; intros l Hs; [constructor|].
  destruct Hs as [|x l Hs Hall]; [constructor|]. cbn [firstn].
  constructor; [apply IH; exact Hs|].
  apply Forall_forall. intros y Hy. rewrite Forall_forall in Hall.
  apply Hall. eapply firstn_in. exact Hy.
Qed.

Lemma year_desc_difficulty_asc_spec (a b : QuestionRow) :
  year_desc_difficulty_asc a b = true <->
  (qr_year b < qr_year a \/
   (qr_year a = qr_year b /\ qr_difficulty a <= qr_difficulty b))%Z.
Proof.
  unfold year_desc_difficulty_asc.
  rewrite orb_true_iff, andb_true_iff, Z.ltb_lt, Z.eqb_eq, Z.leb_le.
  reflexivity.
Qed.

Lemma rows_by_year_sorted (l : list QuestionRow) :
  StronglySorted year_order (order_by year_desc_difficulty_asc l).
Proof.
  apply strongly_sorted_impl
    with (R := fun a b => year_desc_difficulty_asc a b = true).
  - intros a b H. apply year_desc_difficulty_asc_spec in H.
    unfold year_order. lia.
  - apply Sorted_StronglySorted.
    + intros a b c Hab Hbc.
      apply year_desc_difficulty_asc_spec in Hab, Hbc.
      apply year_desc_difficulty_asc_spec. lia.
    + apply order_by_sorted. intros a b.
      rewrite !year_desc_difficulty_asc_spec. lia.
Qed.

(** X7.  [get_questions_by_topic] always returns a list.  It holds at most
    [limit] rows, ordered by year, latest first, and within a year by
    difficulty, easiest first; every row is a question of the topic; with a
    year other than 0 every row has that year, and with a difficulty every
    row has that difficulty.  When the backend answers, no filter is given
    and the limit is not below the number of the topic's questions, the rows
    are exactly the topic's questions.  When the backend refuses the query
    the list is empty and the handler's line is printed after the client's.
    The graph is never changed. *)
Theorem questions_by_topic_rows_ordered (subject topic : string)
  (year difficulty : option Z) (limit : Z) (w : World) :
  exists rows,
    fst (get_questions_by_topic subject topic year difficulty limit w)
      = Ok rows /\
    length rows <= Z.to_nat limit /\
    StronglySorted year_order rows /\
    Forall (fun r =>
              (exists q, In q (topic_questions (graph w) subject topic) /\
                         r = topic_row q) /\
              (forall y, year = Some y -> y <> 0%Z -> qr_year r = y) /\
              (forall d, difficulty = Some d -> qr_difficulty r = d)) rows /\
    (next_ok w = true -> year = None -> difficulty = None ->
     (Z.of_nat (length (topic_questions (graph w) subject topic)) <= limit)%Z ->
     Permutation rows (map topic_row (topic_questions (graph w) subject topic))) /\
    (next_ok w = false ->
     rows = [] /\
     stdout (snd (get_questions_by_topic subject topic year difficulty limit
                    w))
       = stdout w ++ [QueryExecutionError; QuestionRetrievalError]) /\
    graph (snd (get_questions_by_topic subject topic year difficulty limit w))
      = graph w.
Proof.
  unfold get_questions_by_topic, try_except.
  step_query; cbn [fst snd].
  - eexists. split; [reflexivity|].
    unfold cypher_questions_by_topic, limit_rows. cbn [snd].
    split; [apply firstn_le_length|].
    split; [apply strongly_sorted_firstn; apply rows_by_year_sorted|].
    split.
    + apply Forall_forall. intros r Hr.
      apply firstn_in in Hr. apply order_by_in in Hr.
      apply in_map_iff in Hr as (q & <- & Hq).
      apply filter_In in Hq as [Hq Hc].
      split; [exists q; split; [exact Hq | reflexivity]|]. split.
      * intros y -> Hy. apply Z.eqb_neq in Hy. rewrite Hy in Hc.
        destruct difficulty; cbn in Hc;
          rewrite ?andb_true_iff, ?Z.eqb_eq in Hc; cbn; intuition.
      * intros d ->.
        destruct year as [y|]; [destruct (Z.eqb y 0)|]; cbn in Hc;
          rewrite ?andb_true_iff, ?Z.eqb_eq in Hc; cbn; intuition.
    + split; [|split; [discriminate | reflexivity]].
      intros _ -> -> Hlim. cbn [app forallb].
      rewrite firstn_all2.
      * rewrite order_by_perm. apply Permutation_map.
        assert (Hall : forall l : list QuestionNode, filter (fun _ => true) l = l).
        { intros l. induction l as [|x l IH]; cbn; [reflexivity | now rewrite IH]. }
        rewrite Hall. reflexivity.
      * rewrite order_by_length, length_map.
        etransitivity; [apply filter_length_le|]. lia.
  - exists []. split; [reflexivity|]. split; [cbn; lia|].
    split; [constructor|]. split; [constructor|]. split; [discriminate|].
    split; [|reflexivity]. intros _. split; [reflexivity|].
    cbn [print bind ret snd stdout]. unfold bind, print, ret.
    cbn [snd stdout]. now rewrite <- app_assoc.
Qed.

(** X8.  [vector_search] always returns a list, of at most [top_k] rows.
    Every row shows the text, source file, page and score of a chunk the
    index returned for the query's embedding; when a subject or a topic is
    given, that chunk is the target of an [EXPLAINED_BY] relationship from a
    Topic node of that subject and of that name. *)
Theorem vector_search_rows_scoped (E : EmbeddingsGenerator)
  (index : VectorIndex) (query : string) (top_k : Z)
  (subject topic : option string) (w : World) :
  exists rows,
    fst (vector_search E index query top_k subject topic w) = Ok rows /\
    length rows <= Z.to_nat top_k /\
    Forall (fun r =>
              exists c score,
                In (c, score) (index (graph w) top_k (embedding_of E query)) /\
                r = mkScoredChunk (c_text c) (c_source_file c)
                      (c_page_number c) score /\
                (truthy subject || truthy topic = true ->
                 exists t,
                   In t (topics (graph w)) /\
                   In (t_id t, c_id c) (explained_by (graph w)) /\
                   (truthy subject = true -> subject = Some (t_subject t)) /\
                   (truthy topic = true -> topic = Some (t_name t)))) rows.
Proof.
  unfold vector_search, bind, try_except. step_embedding E.
  step_query; cbn [fst snd graph].
  - eexists. split; [reflexivity|].
    unfold cypher_vector_search, limit_rows. cbn [snd].
    split; [apply firstn_le_length|].
    apply Forall_forall. intros r Hr.
    apply firstn_in in Hr. apply order_by_in in Hr.
    apply in_map_iff in Hr as ([c score] & <- & Hin). cbn [fst snd].
    exists c, score.
    destruct (truthy subject || truthy topic) eqn:Hfilter.
    + apply in_flat_map in Hin as ([c0 score0] & Hhit & Hin).
      apply in_flat_map in Hin as ([tid cid] & He & Hin). cbn [fst snd] in Hin.
      destruct (Nat.eqb cid (c_id c0)) eqn:Hcid; [|destruct Hin].
      apply in_map_iff in Hin as (t & [= <- <-] & Ht).
      apply filter_In in Ht as [Ht Hm].
      apply andb_true_iff in Hm as [Hm Htopic].
      apply andb_true_iff in Hm as [Hid Hsubject].
      apply Nat.eqb_eq in Hid, Hcid. subst tid cid.
      split; [exact Hhit|]. split; [reflexivity|]. intros _.
      exists t. split; [exact Ht|]. split; [exact He|]. split.
      * intros Hs. rewrite Hs in Hsubject. apply String.eqb_eq in Hsubject.
        destruct subject as [s|]; [|discriminate]. cbn in Hsubject. now subst.
      * intros Hs. rewrite Hs in Htopic. apply String.eqb_eq in Htopic.
        destruct topic as [s|]; [|discriminate]. cbn in Htopic. now subst.
    + split; [exact Hin|]. split; [reflexivity | discriminate].
  - exists []. split; [reflexivity|]. split; [cbn; lia | constructor].
Qed.

(** X9.  [get_all_subjects] has no handler of its own: it raises the
    backend's error when the query fails.  When the backend answers it
    returns the names of all Subject nodes, each as often as it occurs, in
    ascending order. *)
Theorem get_all_subjects_sorted (w : World) :
  graph (snd (get_all_subjects w)) = graph w /\
  (next_ok w = false -> fst (get_all_subjects w) = Raise BackendError) /\
  (next_ok w = true ->
   exists names,
     fst (get_all_subjects w) = Ok names /\
     Permutation names (map s_name (subjects (graph w))) /\
     Sorted (fun a b => String.leb a b = true) names).
Proof.
  unfold get_all_subjects, bind, ret.
  step_query; cbn [fst snd graph cypher_all_subjects].
  - split; [reflexivity|]. split; [discriminate|]. intros _.
    eexists. split; [reflexivity|]. split.
    + apply order_by_perm.
    + apply order_by_sorted. apply String.leb_total.
  - split; [reflexivity|]. split; [reflexivity | discriminate].
Qed.

Lemma get_all_subjects_sorted_witness :
  next_ok (failing_world sorting_graph) = false /\
  fst (get_all_subjects (failing_world sorting_graph)) = Raise BackendError /\
  fst (get_all_subjects (world_of sorting_graph)) = Ok ["Algorithms"%string].
Proof.
  split; [reflexivity|]. split.
  - apply (get_all_subjects_sorted (failing_world sorting_graph)). reflexivity.
  - reflexivity.
Defined.

(** ** The progress tracker *)

(** X10.  [_ensure_progress_nodes] makes sure of the default user and is
    idempotent.  When the backend answers, a User node with the default key
    exists afterwards, at most one node is added, and a graph that already
    has such a node is left exactly as it is (its [created_at] included); a
    second call therefore changes nothing.  A backend error is raised to the
    caller. *)
Theorem ensure_progress_nodes_idempotent (w : World) :
  (next_ok w = false -> fst (_ensure_progress_nodes w) = Raise BackendError) /\
  (next_ok w = true ->
   fst (_ensure_progress_nodes w) = Ok tt /\
   existsb is_default_user (users (graph (snd (_ensure_progress_nodes w))))
     = true /\
   count_nodes User (graph (snd (_ensure_progress_nodes w)))
     <= S (count_nodes User (graph w)) /\
   (existsb is_default_user (users (graph w)) = true ->
    graph (snd (_ensure_progress_nodes w)) = graph w)) /\
  (healthy w = true ->
   graph (snd (_ensure_progress_nodes (snd (_ensure_progress_nodes w))))
   = graph (snd (_ensure_progress_nodes w))).
Proof.
  assert (Hstep : forall w0, next_ok w0 = true ->
            fst (_ensure_progress_nodes w0) = Ok tt /\
            existsb is_default_user
              (users (graph (snd (_ensure_progress_nodes w0)))) = true /\
            count_nodes User (graph (snd (_ensure_progress_nodes w0)))
              <= S (count_nodes User (graph w0)) /\
            (existsb is_default_user (users (graph w0)) = true ->
             graph (snd (_ensure_progress_nodes w0)) = graph w0)).
  { intros w0 Hok. unfold _ensure_progress_nodes, bind, ret.
    rewrite run_query_ok by exact Hok. cbn [fst snd graph].
    unfold cypher_ensure_user. fold is_default_user. cbn [fst].
    destruct (existsb is_default_user (users (graph w0))) eqn:Hex.
    - repeat split; auto; cbn; lia.
    - repeat split; try discriminate.
      + cbn. rewrite existsb_app. cbn. apply orb_true_r.
      + cbn. rewrite length_app. cbn. lia. }
  split; [|split].
  - intros Hf. unfold _ensure_progress_nodes, bind.
    rewrite run_query_fault by exact Hf. reflexivity.
  - apply Hstep.
  - intros Hh.
    destruct (Hstep w (healthy_next_ok w Hh)) as (_ & Hex & _).
    assert (Hok1 : next_ok (snd (_ensure_progress_nodes w)) = true).
    { unfold _ensure_progress_nodes, bind, ret.
      rewrite run_query_ok by (apply healthy_next_ok; exact Hh).
      cbn [snd]. apply healthy_next_ok. destruct (cypher_ensure_user _ _).
      apply (healthy_tl _ w). exact Hh. }
    destruct (Hstep _ Hok1) as (_ & _ & _ & Hsame). apply Hsame. exact Hex.
Qed.

Lemma ensure_progress_nodes_idempotent_witness :
  healthy (world_of sorting_graph) = true /\
  graph (snd (_ensure_progress_nodes
                (snd (_ensure_progress_nodes (world_of sorting_graph)))))
  = graph (snd (_ensure_progress_nodes (world_of sorting_graph))).
Proof.
  split; [reflexivity|].
  apply (ensure_progress_nodes_idempotent (world_of sorting_graph)).
  reflexivity.
Defined.

Lemma counts_ok_on_create (u q : node_id) (is_correct : bool) (now : timestamp) :
  counts_ok (on_create u q is_correct now).
Proof. unfold counts_ok, on_create, one_if. destruct is_correct; cbn; lia. Qed.

Lemma counts_ok_on_match (is_correct : bool) (now : timestamp) (a : Attempted) :
  counts_ok a -> counts_ok (on_match is_correct now a).
Proof.
  unfold counts_ok, on_match, one_if. destruct is_correct; cbn; lia.
Qed.

Lemma merge_attempted_counts_ok (is_correct : bool) (now : timestamp)
  (rows : list (node_id * node_id)) :
  forall rels out,
  Forall counts_ok rels ->
  Forall counts_ok
    (fst (fold_left (merge_attempted is_correct now) rows (rels, out))).
Proof.
  induction rows as [|[u q] rows IH]; intros rels out Hall; [exact Hall|].
  cbn [fold_left]. unfold merge_attempted at 2.
  destruct (existsb (attempt_between u q) rels).
  - apply IH. apply Forall_forall. intros a Ha.
    apply in_map_iff in Ha as (a0 & <- & Ha0).
    rewrite Forall_forall in Hall.
    destruct (attempt_between u q a0); [apply counts_ok_on_match|]; auto.
  - apply IH. apply Forall_app. split; [exact Hall|].
    constructor; [apply counts_ok_on_create | constructor].
Qed.

(** X11.  [record_attempt] keeps the counters of every [ATTEMPTED]
    relationship sound, whatever its arguments and whatever the backend
    does: if each relationship had at least one attempt and between 0 and
    [attempt_count] correct ones before the call, so it is after it. *)
Theorem record_attempt_keeps_counts (subject topic question_text : string)
  (is_correct : bool) (w : World) :
  Forall counts_ok (attempted (graph w)) ->
  Forall counts_ok
    (attempted
       (graph (snd (record_attempt subject topic question_text is_correct w)))).
Proof.
  intros Hall. unfold record_attempt, bind, try_except.
  step_query; cbn [fst snd graph ret]; [|exact Hall].
  unfold cypher_record_attempt. rewrite fold_merge_attempted_out.
  cbn [fst attempted with_attempted]. now apply merge_attempted_counts_ok.
Qed.

Lemma record_attempt_keeps_counts_witness :
  Forall counts_ok (attempted (graph (world_of practice_graph))) /\
  Forall counts_ok
    (attempted
       (graph (snd (record_attempt "Algorithms" "Sorting" "Q1" false
                      (world_of practice_graph))))).
Proof.
  assert (H : Forall counts_ok (attempted (graph (world_of practice_graph)))).
  { constructor; [unfold counts_ok; cbn; lia | constructor]. }
  split; [exact H|].
  apply (record_attempt_keeps_counts "Algorithms" "Sorting" "Q1" false
           (world_of practice_graph) H).
Defined.

(** X12.  An attempt on a question the graph does not hold under the given
    subject and topic is lost without a trace: when the three [MATCH] clauses
    yield no row, [record_attempt] returns normally, leaves the graph as it
    was, and, when the backend answers, prints nothing. *)
Theorem record_attempt_unknown_question (subject topic question_text : string)
  (is_correct : bool) (w : World) :
  attempt_rows (graph w) subject topic question_text = [] ->
  fst (record_attempt subject topic question_text is_correct w) = Ok tt /\
  graph (snd (record_attempt subject topic question_text is_correct w))
    = graph w /\
  (next_ok w = true ->
   stdout (snd (record_attempt subject topic question_text is_correct w))
     = stdout w).
Proof.
  intros Hrows. unfold record_attempt, bind, try_except.
  step_query; cbn [fst snd graph ret stdout].
  - unfold cypher_record_attempt. rewrite Hrows. cbn.
    destruct (graph w). repeat split.
  - repeat split. discriminate.
Qed.

Lemma record_attempt_unknown_question_witness :
  attempt_rows (graph (world_of practice_graph)) "Algorithms" "Sorting"
    "What is quicksort?" = [] /\
  graph (snd (record_attempt "Algorithms" "Sorting" "What is quicksort?" true
                (world_of practice_graph))) = practice_graph.
Proof.
  split; [reflexivity|].
  apply (record_attempt_unknown_question "Algorithms" "Sorting"
           "What is quicksort?" true (world_of practice_graph)).
  reflexivity.
Defined.

(** ** User statistics *)

Lemma zsum_app (a b : list Z) : zsum (a ++ b) = (zsum a + zsum b)%Z.
Proof.
  unfold zsum. induction a as [|x a IH]; cbn; [reflexivity|].
  rewrite IH. lia.
Qed.

Lemma stat_rows_in (g : Graph) (topic_filter : option (TopicNode -> bool))
  (a : Attempted) :
  In a (stat_rows g topic_filter) -> In a (attempted g).
Proof.
  unfold stat_rows. intros H.
  apply in_flat_map in H as (u & _ & H).
  apply in_flat_map in H as (a0 & Ha0 & H).
  destruct (Nat.eqb (a_user a0) (u_id u)); [|destruct H].
  apply in_flat_map in H as (q & _ & H).
  destruct (Nat.eqb (q_id q) (a_question a0)); [|destruct H].
  destruct topic_filter as [keep|].
  - apply in_flat_map in H as (e & _ & H).
    destruct (Nat.eqb (snd e) (q_id q)); [|destruct H].
    apply in_map_iff in H as (t & <- & _). exact Ha0.
  - destruct H as [<- | []]. exact Ha0.
Qed.

Lemma zsum_counts_bounds (rows : list Attempted) :
  Forall counts_ok rows ->
  (0 <= zsum (map a_correct_count rows)
   /\ zsum (map a_correct_count rows) <= zsum (map a_attempt_count rows))%Z.
Proof.
  induction 1 as [|a rows Ha Hall IH]; cbn; [lia|].
  unfold counts_ok in Ha. fold (zsum (map a_correct_count rows)).
  fold (zsum (map a_attempt_count rows)). lia.
Qed.

(** X13.  [get_user_stats] looks at the topic only together with a subject:
    called with a topic but no subject it is the call with no filter at all.
    With sound counters on every relationship, the totals it returns satisfy
    0 <= correct <= attempted; with no attempt recorded at all they are 0
    and the accuracy is 0.  A backend error is raised to the caller. *)
Theorem get_user_stats_totals (percentage : Z -> Z -> float)
  (subject topic : option string) (w : World) :
  (truthy subject = false ->
   get_user_stats percentage subject topic w
   = get_user_stats percentage None None w) /\
  (next_ok w = false ->
   fst (get_user_stats percentage subject topic w) = Raise BackendError) /\
  (next_ok w = true ->
   exists stats,
     fst (get_user_stats percentage subject topic w) = Ok stats /\
     (Forall counts_ok (attempted (graph w)) ->
      (0 <= us_correct stats /\ us_correct stats <= us_attempted stats)%Z) /\
     (attempted (graph w) = [] ->
      stats = mkUserStats 0 0 0%float)).
Proof.
  split; [|split].
  - intros Hs. unfold get_user_stats. rewrite Hs, andb_false_r. reflexivity.
  - intros Hf. unfold get_user_stats, bind.
    destruct (truthy topic && truthy subject); [|destruct (truthy subject)];
      rewrite run_query_fault by exact Hf; reflexivity.
  - intros Hok.
    assert (Hq : forall f,
              exists stats,
                (let (o, w') := run_query (cypher_user_stats percentage f) w in
                 match o with
                 | Ok a => ret (match a with
                                | r :: _ => r
                                | [] => mkUserStats 0 0 0%float
                                end) w'
                 | Raise e => (Raise e, w')
                 end) = (Ok stats, mkWorld (graph w) (tl (faults w))
                                     (S (clock w)) (embed_calls w) (stdout w)) /\
                (Forall counts_ok (attempted (graph w)) ->
                 (0 <= us_correct stats
                  /\ us_correct stats <= us_attempted stats)%Z) /\
                (attempted (graph w) = [] -> stats = mkUserStats 0 0 0%float)).
    { intros f. rewrite run_query_ok by exact Hok.
      unfold cypher_user_stats, ret. cbn [fst snd]. eexists.
      split; [reflexivity|]. cbn [us_correct us_attempted]. split.
      - intros Hall. apply zsum_counts_bounds.
        apply Forall_forall. intros a Ha. rewrite Forall_forall in Hall.
        apply Hall. eapply stat_rows_in. exact Ha.
      - intros Hnil.
        assert (Hrows : stat_rows (graph w) f = []).
        { destruct (stat_rows (graph w) f) as [|a rows] eqn:Hr; [reflexivity|].
          assert (Ha : In a (attempted (graph w))).
          { eapply stat_rows_in. rewrite Hr. now left. }
          rewrite Hnil in Ha. destruct Ha. }
        rewrite Hrows. reflexivity. }
    unfold get_user_stats, bind.
    destruct (truthy topic && truthy subject); [|destruct (truthy subject)];
      match goal with |- context [cypher_user_stats percentage ?f] =>
        destruct (Hq f) as (stats & -> & Hb & Hz) end;
      exists stats; cbn [fst]; auto.
Qed.

Lemma get_user_stats_totals_witness :
  exists stats,
    fst (get_user_stats (fun _ _ => 0%float) None (Some "Sorting"%string)
           (world_of practice_graph)) = Ok stats /\
    (0 <= us_correct stats /\ us_correct stats <= us_attempted stats)%Z.
Proof.
  destruct (get_user_stats_totals (fun _ _ => 0%float) None
              (Some "Sorting"%string) (world_of practice_graph))
    as (_ & _ & Hok).
  destruct (Hok eq_refl) as (stats & Hr & Hb & _).
  exists stats. split; [exact Hr|]. apply Hb.
  constructor; [unfold counts_ok; cbn; lia | constructor].
Defined.

(** *** Statistics after a recorded attempt *)

Lemma flat_map_if_single (A B : Type) (p : A -> bool) (c : B) (l : list A) :
  flat_map (fun x => if p x then [c] else []) l
  = map (fun _ => c) (filter p l).
Proof.
  induction l as [|x l IH]; cbn; [reflexivity|].
  destruct (p x); cbn; now rewrite IH.
Qed.

(** The rows one relationship contributes to the unfiltered statistics when
    [usr] is the only default user. *)
Lemma stat_rows_single_user (g : Graph) (usr : UserNode) :
  filter is_default_user (users g) = [usr] ->
  stat_rows g None
  = flat_map
      (fun a => if Nat.eqb (a_user a) (u_id usr)
                then map (fun _ => a)
                       (filter (fun q => Nat.eqb (q_id q) (a_question a))
                          (questions g))
                else [])
      (attempted g).
Proof.
  intros Hu. unfold stat_rows. fold is_default_user. rewrite Hu.
  cbn [flat_map]. rewrite app_nil_r.
  apply flat_map_ext. intros a.
  destruct (Nat.eqb (a_user a) (u_id usr)); [|reflexivity].
  apply flat_map_if_single.
Qed.

Section StatsSum.
Variable g : Graph.
Variable usr : UserNode.
Variable qn : QuestionNode.
Variable f : Attempted -> Z.
Variable delta : Z.
Variable is_correct : bool.
Variable now : timestamp.
Hypothesis one_question :
  filter (fun q => Nat.eqb (q_id q) (q_id qn)) (questions g) = [qn].
Hypothesis f_on_match :
  forall a, f (on_match is_correct now a) = (f a + delta)%Z.

Lemma row_sum_on_match (rels : list Attempted) :
  zsum (map f
          (flat_map
             (fun a => if Nat.eqb (a_user a) (u_id usr)
                       then map (fun _ => a)
                              (filter (fun q => Nat.eqb (q_id q) (a_question a))
                                 (questions g))
                       else [])
             (map (fun a => if attempt_between (u_id usr) (q_id qn) a
                            then on_match is_correct now a else a) rels)))
  = (zsum (map f
             (flat_map
                (fun a => if Nat.eqb (a_user a) (u_id usr)
                          then map (fun _ => a)
                                 (filter
                                    (fun q => Nat.eqb (q_id q) (a_question a))
                                    (questions g))
                          else [])
                rels))
     + delta * Z.of_nat (length (filter (attempt_between (u_id usr) (q_id qn))
                                   rels)))%Z.
Proof.
  induction rels as [|a rels IH]; [cbn; lia|].
  cbn [map flat_map filter]. rewrite !map_app, !zsum_app, IH.
  destruct (attempt_between (u_id usr) (q_id qn) a) eqn:Ha.
  - apply attempt_between_iff in Ha as [Hu Hq].
    cbn [on_match a_user a_question]. rewrite Hu, Hq, Nat.eqb_refl.
    rewrite one_question. cbn [map zsum fold_right length].
    rewrite f_on_match. lia.
  - lia.
Qed.
End StatsSum.

Lemma row_sum_on_create (g : Graph) (usr : UserNode) (qn : QuestionNode)
  (f : Attempted -> Z) (new : Attempted) (rels : list Attempted) :
  filter (fun q => Nat.eqb (q_id q) (q_id qn)) (questions g) = [qn] ->
  a_user new = u_id usr -> a_question new = q_id qn ->
  zsum (map f
          (flat_map
             (fun a => if Nat.eqb (a_user a) (u_id usr)
                       then map (fun _ => a)
                              (filter (fun q => Nat.eqb (q_id q) (a_question a))
                                 (questions g))
                       else [])
             (rels ++ [new])))
  = (zsum (map f
             (flat_map
                (fun a => if Nat.eqb (a_user a) (u_id usr)
                          then map (fun _ => a)
                                 (filter
                                    (fun q => Nat.eqb (q_id q) (a_question a))
                                    (questions g))
                          else [])
                rels))
     + f new)%Z.
Proof.
  intros Hq Hu Hqn. rewrite flat_map_app, map_app, zsum_app.
  cbn [flat_map]. rewrite Hu, Hqn, Nat.eqb_refl, Hq. cbn. lia.
Qed.

(** X14.  A recorded attempt shows in the statistics.  On a backend that
    answers, with one default user, one Question node of the matched
    identifier, the call matching that one (user, question) pair and at most
    one [ATTEMPTED] relationship between them, the unfiltered
    [get_user_stats] after [record_attempt] reports one attempt more than
    before, and one correct answer more exactly when the attempt was
    correct. *)
Theorem stats_follow_attempt (percentage : Z -> Z -> float)
  (subject topic question_text : string) (is_correct : bool)
  (usr : UserNode) (qn : QuestionNode) (w : World) :
  healthy w = true ->
  filter is_default_user (users (graph w)) = [usr] ->
  filter (fun q => Nat.eqb (q_id q) (q_id qn)) (questions (graph w)) = [qn] ->
  attempt_rows (graph w) subject topic question_text
    = [(u_id usr, q_id qn)] ->
  length (attempts_between (graph w) (u_id usr) (q_id qn)) <= 1 ->
  exists before after,
    fst (get_user_stats percentage None None w) = Ok before /\
    fst (get_user_stats percentage None None
           (snd (record_attempt subject topic question_text is_correct w)))
      = Ok after /\
    us_attempted after = (us_attempted before + 1)%Z /\
    us_correct after = (us_correct before + one_if is_correct)%Z.
Proof.
  intros Hh Hu Hq Hrows Hone.
  pose proof (healthy_next_ok w Hh) as Hok.
  unfold get_user_stats. cbn [truthy andb]. unfold bind at 1.
  rewrite run_query_ok by exact Hok.
  unfold record_attempt, bind at 2, try_except.
  rewrite run_query_ok by exact Hok. cbn [fst snd ret].
  unfold bind. rewrite run_query_ok
    by (apply healthy_next_ok; apply (healthy_tl _ w); exact Hh).
  cbn [fst snd ret graph clock]. unfold cypher_user_stats at 1 2.
  cbn [fst snd]. eexists. eexists.
  split; [reflexivity|]. split; [reflexivity|].
  cbn [us_attempted us_correct].
  unfold cypher_record_attempt. rewrite Hrows.
  cbn [fold_left merge_attempted].
  rewrite (stat_rows_single_user (graph w) usr Hu).
  unfold attempts_between in Hone.
  destruct (existsb (attempt_between (u_id usr) (q_id qn))
              (attempted (graph w))) eqn:Hex.
  - rewrite stat_rows_single_user with (usr := usr) by exact Hu.
    cbn [fst attempted questions with_attempted].
    assert (Hlen : length (filter (attempt_between (u_id usr) (q_id qn))
                             (attempted (graph w))) = 1).
    { apply existsb_true_filter in Hex.
      destruct (filter (attempt_between (u_id usr) (q_id qn))
                  (attempted (graph w))); [congruence | cbn in *; lia]. }
    rewrite (row_sum_on_match (graph w) usr qn a_attempt_count 1 is_correct
               (clock w) Hq) by reflexivity.
    rewrite (row_sum_on_match (graph w) usr qn a_correct_count
               (one_if is_correct) is_correct (clock w) Hq) by reflexivity.
    rewrite Hlen. split; lia.
  - rewrite stat_rows_single_user with (usr := usr) by exact Hu.
    cbn [fst attempted questions with_attempted].
    rewrite (row_sum_on_create (graph w) usr qn a_attempt_count _ _ Hq)
      by reflexivity.
    rewrite (row_sum_on_create (graph w) usr qn a_correct_count _ _ Hq)
      by reflexivity.
    split; reflexivity.
Qed.

Lemma stats_follow_attempt_witness :
  healthy (world_of practice_graph) = true /\
  exists before after,
    fst (get_user_stats (fun _ _ => 0%float) None None
           (world_of practice_graph)) = Ok before /\
    fst (get_user_stats (fun _ _ => 0%float) None None
           (snd (record_attempt "Algorithms" "Sorting" "Q1" true
                   (world_of practice_graph)))) = Ok after /\
    us_attempted after = (us_attempted before + 1)%Z /\
    us_correct after = (us_correct before + one_if true)%Z.
Proof.
  split; [reflexivity|].
  apply (stats_follow_attempt (fun _ _ => 0%float) "Algorithms" "Sorting" "Q1"
           true (mkUser 5 "default_user" 5)
           (mkQuestion 2 "Q1" 2021 "set1" [] "" 2 1 [] 2)
           (world_of practice_graph)).
  - reflexivity.
  - reflexivity.
  - reflexivity.
  - reflexivity.
  - cbn. lia.
Defined.

(** ** A loaded syllabus can be browsed *)

Lemma in_syllabus_ops_subject (name : string) (info : subject_info)
  (l : syllabus) :
  In (name, info) l ->
  In (OpSubject name (get (si_description info) EmptyString)) (syllabus_ops l).
Proof.
  induction l as [|[n i] l IH]; intros Hin; [contradiction|].
  cbn [syllabus_ops]. destruct Hin as [Heq | Hin].
  - inversion Heq; subst. left. reflexivity.
  - right. apply in_or_app. right. apply IH. exact Hin.
Qed.

Lemma in_syllabus_ops_topic (name : string) (info : subject_info)
  (topic : topic_entry) (l : syllabus) :
  In (name, info) l ->
  In topic (get (si_topics info) []) ->
  In (OpTopic name (te_name topic) (get (te_description topic) EmptyString)
        (get (te_difficulty topic) 1%Z)) (syllabus_ops l).
Proof.
  induction l as [|[n i] l IH]; intros Hin Ht; [contradiction|].
  cbn [syllabus_ops]. right. apply in_or_app. destruct Hin as [Heq | Hin].
  - inversion Heq; subst. left. unfold topic_ops.
    apply (in_map (fun topic => OpTopic name (te_name topic)
                      (get (te_description topic) EmptyString)
                      (get (te_difficulty topic) 1%Z))). exact Ht.
  - right. apply IH; assumption.
Qed.

Lemma subject_node_of_key (name : string) (g : Graph) :
  has_subject name (skeleton g) ->
  exists s, In s (subjects g) /\ s_name s = name.
Proof.
  intros (id & Hin). unfold skeleton in Hin. cbn [sk_subjects] in Hin.
  apply in_map_iff in Hin as (s & Heq & Hin). inversion Heq; subst.
  exists s. auto.
Qed.

(** A settled topic call means a path from the subject to the topic. *)
Lemma settled_topic_path (sn tn description : string) (difficulty : Z)
  (g : Graph) :
  settled (OpTopic sn tn description difficulty) (skeleton g) ->
  exists t, In t (subject_topics g sn) /\ t_name t = tn.
Proof.
  intros ((sid & Hs) & (tid & Ht) & He).
  pose proof (He sid tid Hs Ht) as Hedge. apply existsb_edge_in in Hedge.
  unfold skeleton in Hs, Ht, Hedge. cbn [sk_subjects sk_topics sk_edges] in *.
  apply in_map_iff in Hs as (s & Hseq & Hs).
  apply in_map_iff in Ht as (t & Hteq & Ht).
  injection Hseq as Hsid Hsn. subst sid sn.
  injection Hteq as Htid Htn Hsub. subst tid tn.
  exists t. split; [|reflexivity].
  unfold subject_topics. apply in_flat_map. exists s. split.
  - apply filter_In. split; [exact Hs|]. unfold subject_matches.
    apply String.eqb_refl.
  - apply in_flat_map. exists (t_id t). split.
    + unfold targets.
      apply (in_map snd _ (s_id s, t_id t)). apply filter_In.
      split; [exact Hedge|]. cbn. apply Nat.eqb_refl.
    + apply filter_In. split; [exact Ht | apply Nat.eqb_refl].
Qed.

Lemma group_key_eqb_eq (a b : string * string * Z) :
  group_key_eqb a b = true <-> a = b.
Proof.
  destruct a as [[a1 a2] a3], b as [[b1 b2] b3]. unfold group_key_eqb. cbn.
  rewrite !andb_true_iff, !String.eqb_eq, Z.eqb_eq. split.
  - intros [[-> ->] ->]. reflexivity.
  - intros [= -> -> ->]. auto.
Qed.

(** [DISTINCT] under a test that decides equality drops no value. *)
Lemma in_distinct (A : Type) (eqb : A -> A -> bool) (x : A) (l : list A) :
  (forall a b, eqb a b = true <-> a = b) ->
  In x l -> In x (distinct eqb l).
Proof.
  intros Heq. induction l as [|y l IH]; intros Hin; [contradiction|].
  cbn [distinct]. destruct (eqb y x) eqn:E.
  - left. now apply Heq.
  - right. apply filter_In. split; [|now rewrite E].
    destruct Hin as [-> | Hin]; [|now apply IH].
    assert (eqb x x = true) by now apply Heq. congruence.
Qed.

(** X15.  What [load_syllabus] has loaded can be browsed.  On a backend
    that answers, after [load_syllabus] every subject of the syllabus is
    among the names [get_all_subjects] returns, and every topic listed
    under a subject is among the rows [get_topics_for_subject] returns for
    that subject; this holds whatever the graph held before. *)
Theorem loaded_syllabus_is_listed (syllabus_data : syllabus)
  (subject_name : string) (info : subject_info) (w : World) :
  healthy w = true ->
  In (subject_name, info) syllabus_data ->
  exists w1 names w2 rows w3,
    load_syllabus syllabus_data w = (Ok tt, w1) /\
    get_all_subjects w1 = (Ok names, w2) /\
    In subject_name names /\
    get_topics_for_subject subject_name w2 = (Ok rows, w3) /\
    forall topic,
      In topic (get (si_topics info) []) ->
      In (te_name topic) (map ts_name rows).
Proof.
  intros H Hin.
  destruct (load_syllabus_healthy syllabus_data w H) as (w1 & Hr1 & H1 & Hg1 & _).
  pose proof (syllabus_ops_settle syllabus_data (skeleton (graph w))) as Hall.
  rewrite <- (skeleton_apply_ops (syllabus_ops syllabus_data) (clock w))
    in Hall.
  rewrite <- Hg1 in Hall. rewrite Forall_forall in Hall.
  assert (Hq1 : get_all_subjects w1
                = (Ok (order_by String.leb (map s_name (subjects (graph w1)))),
                   advance 1 (graph w1) w1)).
  { unfold get_all_subjects, bind, ret.
    now rewrite (run_query_healthy _ cypher_all_subjects w1 H1). }
  assert (Hq2 : get_topics_for_subject subject_name (advance 1 (graph w1) w1)
                = (Ok (snd (cypher_topics_for_subject subject_name
                              (1 + clock w1) (graph w1))),
                   advance 1 (graph w1) (advance 1 (graph w1) w1))).
  { unfold get_topics_for_subject, bind, ret.
    now rewrite run_query_healthy by (apply healthy_advance; exact H1). }
  exists w1. do 4 eexists. split; [exact Hr1|]. split; [exact Hq1|].
  split; [|split; [exact Hq2|]]; cbn [snd cypher_topics_for_subject].
  - apply order_by_in.
    pose proof (Hall _ (in_syllabus_ops_subject _ _ _ Hin)) as Hs.
    cbn [settled] in Hs. apply subject_node_of_key in Hs as (s & Hs & <-).
    now apply in_map.
  - intros topic Ht.
    pose proof (Hall _ (in_syllabus_ops_topic _ _ topic _ Hin Ht)) as Hs.
    apply settled_topic_path in Hs as (t & Hpath & <-).
    apply in_map_iff.
    exists (mkTopicSummary (t_name t) (t_description t) (t_difficulty_level t)
              (length
                 (distinct Nat.eqb
                    (map q_id
                       (flat_map (questions_of (graph w1))
                          (filter
                             (fun t' => group_key_eqb (group_key t)
                                          (group_key t'))
                             (subject_topics (graph w1) subject_name))))))).
    split; [reflexivity|]. apply order_by_in.
    apply (in_map
             (fun key =>
                mkTopicSummary (fst (fst key)) (snd (fst key)) (snd key)
                  (length
                     (distinct Nat.eqb
                        (map q_id
                           (flat_map (questions_of (graph w1))
                              (filter
                                 (fun t' => group_key_eqb key (group_key t'))
                                 (subject_topics (graph w1) subject_name)))))))
             _ (group_key t)).
    apply in_distinct; [apply group_key_eqb_eq|]. now apply in_map.
Qed.

Lemma loaded_syllabus_is_listed_witness :
  healthy (world_of empty_graph) = true /\
  exists w1 names w2 rows w3,
    load_syllabus algorithms_syllabus (world_of empty_graph) = (Ok tt, w1) /\
    get_all_subjects w1 = (Ok names, w2) /\
    In "Algorithms"%string names /\
    get_topics_for_subject "Algorithms" w2 = (Ok rows, w3) /\
    forall topic,
      In topic [mkTopicEntry "Sorting" (Some "Various sorting algorithms"%string)
                  (Some 2%Z);
                mkTopicEntry "Searching" None None] ->
      In (te_name topic) (map ts_name rows).
Proof.
  split; [reflexivity|].
  apply (loaded_syllabus_is_listed algorithms_syllabus "Algorithms"
           (mkSubjectInfo (Some "Design and analysis of algorithms"%string)
              (Some [mkTopicEntry "Sorting"
                       (Some "Various sorting algorithms"%string) (Some 2%Z);
                     mkTopicEntry "Searching" None None]))
           (world_of empty_graph)).
  - reflexivity.
  - left. reflexivity.
Defined.

(** ** Loading a syllabus on a backend that fails *)

Lemma run_ops_app (a b : list syllabus_op) (w : World) :
  run_ops (a ++ b) w = (run_ops a ;; run_ops b) w.
Proof.
  revert w. induction a as [|o a IH]; intros w; [reflexivity|].
  cbn [app run_ops]. unfold bind.
  destruct (run_op o w) as [[[]|e] w1]; [|reflexivity].
  rewrite IH. reflexivity.
Qed.

Lemma load_topics_run_ops (subject_name : string) (l : list topic_entry)
  (w : World) :
  load_topics subject_name l w = run_ops (topic_ops subject_name l) w.
Proof.
  revert w. induction l as [|topic l IH]; intros w; [reflexivity|].
  cbn [load_topics topic_ops map run_ops run_op]. unfold bind, ret.
  destruct (create_topic subject_name (te_name topic)
              (get (te_description topic) EmptyString)
              (get (te_difficulty topic) 1%Z) w) as [[r|e] w1];
    [apply IH | reflexivity].
Qed.

(** The two loops of [load_syllabus] make the calls of [syllabus_ops] one
    after the other. *)
Lemma load_subjects_run_ops (l : syllabus) (w : World) :
  load_subjects l w = run_ops (syllabus_ops l) w.
Proof.
  revert w. induction l as [|[name info] l IH]; intros w; [reflexivity|].
  cbn [load_subjects syllabus_ops run_ops run_op]. unfold bind, ret.
  destruct (create_subject name (get (si_description info) EmptyString) w)
    as [[r|e] w1]; [|reflexivity].
  rewrite run_ops_app. unfold bind.
  rewrite load_topics_run_ops.
  destruct (run_ops (topic_ops name (get (si_topics info) [])) w1)
    as [[[]|e] w2]; [apply IH | reflexivity].
Qed.

Lemma run_op_ok (o : syllabus_op) (w : World) :
  next_ok w = true ->
  run_op o w =
    (Ok tt,
     mkWorld (apply_op (clock w) o (graph w)) (tl (faults w)) (S (clock w))
       (embed_calls w) (stdout w)).
Proof.
  intros H. destruct o; cbn [run_op apply_op];
    unfold create_subject, create_topic, bind, ret;
    rewrite run_query_ok by exact H; reflexivity.
Qed.

Lemma run_op_fault (o : syllabus_op) (w : World) :
  next_ok w = false ->
  run_op o w =
    (Raise BackendError,
     mkWorld (graph w) (tl (faults w)) (clock w) (embed_calls w)
       (stdout w ++ [QueryExecutionError])).
Proof.
  intros H. destruct o; cbn [run_op];
    unfold create_subject, create_topic, bind, ret;
    rewrite run_query_fault by exact H; reflexivity.
Qed.

(** The calls before the failing one are made; the failing one raises. *)
Lemma run_ops_fault (done : list syllabus_op) (o : syllabus_op)
  (rest : list syllabus_op) (later : list bool) :
  forall w : World,
  faults w = repeat false (length done) ++ true :: later ->
  run_ops (done ++ o :: rest) w =
    (Raise BackendError,
     mkWorld (apply_ops (clock w) done (graph w)) later
       (length done + clock w) (embed_calls w)
       (stdout w ++ [QueryExecutionError])).
Proof.
  induction done as [|o' done IH]; intros w Hf.
  - cbn [app run_ops length repeat] in *. unfold bind.
    rewrite run_op_fault by (unfold next_ok; now rewrite Hf).
    rewrite Hf. reflexivity.
  - cbn [app run_ops length repeat] in *. unfold bind.
    rewrite run_op_ok by (unfold next_ok; now rewrite Hf).
    rewrite IH by (cbn [faults]; now rewrite Hf).
    cbn [graph clock embed_calls stdout apply_ops].
    apply f_equal. f_equal. lia.
Qed.

(** X16.  [load_syllabus] has no handler.  When the backend answers the
    first calls of a load and refuses the next one, [load_syllabus] raises
    the backend's error at that call: what the earlier calls wrote stays in
    the graph, the remaining subjects and topics are not attempted, and the
    closing line with the counts is not printed. *)
Theorem load_syllabus_stops_at_failure (syllabus_data : syllabus)
  (done : list syllabus_op) (o : syllabus_op) (rest : list syllabus_op)
  (later : list bool) (w : World) :
  syllabus_ops syllabus_data = done ++ o :: rest ->
  faults w = repeat false (length done) ++ true :: later ->
  exists w1,
    load_syllabus syllabus_data w = (Raise BackendError, w1) /\
    graph w1 = apply_ops (clock w) done (graph w) /\
    faults w1 = later /\
    stdout w1 = stdout w ++ [LoadingSyllabus; QueryExecutionError].
Proof.
  intros Hops Hf. unfold load_syllabus, bind at 1. unfold print at 1.
  unfold bind at 1. rewrite load_subjects_run_ops, Hops.
  rewrite run_ops_fault with (later := later) by exact Hf.
  eexists. split; [reflexivity|]. cbn [graph faults stdout clock].
  rewrite <- app_assoc. auto.
Qed.

Lemma load_syllabus_stops_at_failure_witness :
  exists w1,
    load_syllabus algorithms_syllabus (mkWorld empty_graph [false; true] 0 [] [])
      = (Raise BackendError, w1) /\
    graph w1 = apply_ops 0 [OpSubject "Algorithms"
                              "Design and analysis of algorithms"]
                 empty_graph /\
    faults w1 = [] /\
    stdout w1 = [LoadingSyllabus; QueryExecutionError].
Proof.
  apply (load_syllabus_stops_at_failure algorithms_syllabus
           [OpSubject "Algorithms" "Design and analysis of algorithms"]
           (OpTopic "Algorithms" "Sorting" "Various sorting algorithms" 2)
           [OpTopic "Algorithms" "Searching" "" 1] []
           (mkWorld empty_graph [false; true] 0 [] [])).
  - reflexivity.
  - reflexivity.
Defined.

(** ** Questions for a loaded syllabus *)

Lemma apply_op_questions (now : timestamp) (o : syllabus_op) (g : Graph) :
  questions (apply_op now o g) = questions g.
Proof.
  destruct o as [n d | sn tn d df]; cbn [apply_op].
  - unfold cypher_create_subject. cbn [fst].
    destruct (existsb (subject_matches n) (subjects g)); reflexivity.
  - unfold cypher_create_topic.
    destruct (filter (subject_matches sn) (subjects g)); [reflexivity|].
    cbn [fst].
    destruct (existsb (topic_matches tn sn) (topics g)); reflexivity.
Qed.

Lemma apply_ops_questions (os : list syllabus_op) :
  forall (now : timestamp) (g : Graph),
  questions (apply_ops now os g) = questions g.
Proof.
  induction os as [|o os IH]; intros now g; [reflexivity|].
  cbn [apply_ops]. rewrite IH. apply apply_op_questions.
Qed.

Lemma settled_topic_exists (sn tn description : string) (difficulty : Z)
  (g : Graph) :
  settled (OpTopic sn tn description difficulty) (skeleton g) ->
  topic_exists g sn tn = true.
Proof.
  intros (_ & Ht & _). apply has_topic_key_existsb in Ht.
  unfold skeleton in Ht. cbn [sk_topics] in Ht. rewrite existsb_map in Ht.
  exact Ht.
Qed.

Lemma filter_none (A : Type) (f : A -> bool) (l : list A) :
  (forall x, In x l -> f x = false) -> filter f l = [].
Proof.
  induction l as [|x l IH]; intros H; [reflexivity|].
  cbn [filter]. rewrite (H x (or_introl eq_refl)).
  apply IH. intros y Hy. apply H. now right.
Qed.

(** X17.  Questions for a loaded syllabus all load.  On a backend that
    answers, with Topic keys unique, after [load_syllabus] a batch whose
    records all name a topic listed under their subject in that syllabus is
    loaded by [load_pyqs] without a failure: the closing line reports all N
    records loaded and none failed, and the graph holds N Question nodes
    more. *)
Theorem listed_questions_all_load (E : EmbeddingsGenerator)
  (syllabus_data : syllabus) (pyqs_data : list question_data) (w : World) :
  healthy w = true ->
  topic_keys_unique (graph w) ->
  (forall question, In question pyqs_data ->
     exists info topic,
       In (qd_subject question, info) syllabus_data /\
       In topic (get (si_topics info) []) /\
       te_name topic = qd_topic question) ->
  exists w1 w2,
    load_syllabus syllabus_data w = (Ok tt, w1) /\
    load_pyqs E pyqs_data w1 = (Ok tt, w2) /\
    last (stdout w2) LoadingPyqs = LoadedQuestions (length pyqs_data) 0 /\
    count_nodes Question (graph w2)
      = count_nodes Question (graph w) + length pyqs_data.
Proof.
  intros H Hu Hlisted.
  pose proof (load_syllabus_keeps_topics_unique syllabus_data w H Hu) as Hu1.
  destruct (load_syllabus_healthy syllabus_data w H) as (w1 & Hr1 & H1 & Hg1 & _).
  rewrite Hr1 in Hu1. cbn [snd] in Hu1.
  pose proof (syllabus_ops_settle syllabus_data (skeleton (graph w))) as Hall.
  rewrite <- (skeleton_apply_ops (syllabus_ops syllabus_data) (clock w))
    in Hall.
  rewrite <- Hg1 in Hall. rewrite Forall_forall in Hall.
  assert (Hnone : filter (precondition_fails (graph w1)) pyqs_data = []).
  { apply filter_none. intros question Hin.
    destruct (Hlisted question Hin) as (info & topic & Hs & Ht & Hn).
    pose proof (Hall _ (in_syllabus_ops_topic _ _ topic _ Hs Ht)) as Hset.
    apply settled_topic_exists in Hset. rewrite Hn in Hset.
    unfold precondition_fails. now rewrite Hset. }
  set (w0 := mkWorld (graph w1) (faults w1) (clock w1) (embed_calls w1)
               (stdout w1 ++ [LoadingPyqs])).
  destruct (load_pyqs_loop_healthy E pyqs_data w0 0 0 H1 Hu1)
    as (Hr & _ & Hl & _).
  cbn [graph w0] in Hr, Hl. rewrite Hnone in Hr, Hl. cbn [length] in Hr, Hl.
  rewrite Nat.sub_0_r in Hr, Hl. cbn [plus] in Hr.
  exists w1. rewrite load_pyqs_unfold. fold w0.
  destruct (load_pyqs_loop E pyqs_data 0 0 w0) as [r w2].
  cbn [fst snd] in Hr, Hl. subst r. eexists.
  split; [exact Hr1|]. split; [reflexivity|].
  cbn [fst snd stdout graph]. rewrite last_last. split; [reflexivity|].
  unfold count_nodes. rewrite Hl, Hg1, apply_ops_questions. reflexivity.
Qed.

Lemma listed_questions_all_load_witness :
  healthy (world_of empty_graph) = true /\
  topic_keys_unique (graph (world_of empty_graph)) /\
  exists w1 w2,
    load_syllabus algorithms_syllabus (world_of empty_graph) = (Ok tt, w1) /\
    load_pyqs unit_embedder [merge_sort_question; merge_sort_question] w1
      = (Ok tt, w2) /\
    last (stdout w2) LoadingPyqs = LoadedQuestions 2 0 /\
    count_nodes Question (graph w2)
      = count_nodes Question (graph (world_of empty_graph)) + 2.
Proof.
  split; [reflexivity|]. split; [apply empty_graph_topics_unique|].
  apply (listed_questions_all_load unit_embedder algorithms_syllabus
           [merge_sort_question; merge_sort_question] (world_of empty_graph)).
  - reflexivity.
  - apply empty_graph_topics_unique.
  - intros question [<- | [<- | []]];
      exists (mkSubjectInfo (Some "Design and analysis of algorithms"%string)
                (Some [mkTopicEntry "Sorting"
                         (Some "Various sorting algorithms"%string) (Some 2%Z);
                       mkTopicEntry "Searching" None None])),
             (mkTopicEntry "Sorting" (Some "Various sorting algorithms"%string)
                (Some 2%Z));
      (split; [left; reflexivity | split; [left; reflexivity | reflexivity]]).
Defined.

(** ** The combined search *)

Lemma distinct_in (A : Type) (eqb : A -> A -> bool) (x : A) (l : list A) :
  In x (distinct eqb l) -> In x l.
Proof.
  induction l as [|y l IH]; [auto|]. cbn [distinct].
  intros [-> | Hin]; [now left|]. right. apply IH.
  apply filter_In in Hin. tauto.
Qed.



(** ** The key invariant under every write *)

Section Preserves.
Variable P : Graph -> Prop.

Lemma preserves_ret (A : Type) (a : A) : preserves P (ret a).
Proof. intros w H. exact H. Qed.

Lemma preserves_print (msg : message) : preserves P (print msg).
Proof. intros w H. exact H. Qed.

Lemma preserves_bind (A B : Type) (m : M A) (k : A -> M B) :
  preserves P m -> (forall a, preserves P (k a)) -> preserves P (bind m k).
Proof.
  intros Hm Hk w H. unfold bind. specialize (Hm w H).
  destruct (m w) as [[a|e] w1]; cbn [snd] in *; [now apply Hk | exact Hm].
Qed.

Lemma preserves_try_except (A : Type) (m : M A) (h : exn -> M A) :
  preserves P m -> (forall e, preserves P (h e)) ->
  preserves P (try_except m h).
Proof.
  intros Hm Hh w H. unfold try_except. specialize (Hm w H).
  destruct (m w) as [[a|e] w1]; cbn [snd] in *; [exact Hm | now apply Hh].
Qed.

Lemma preserves_run_query (R : Type) (query : Cypher R) :
  (forall now g, P g -> P (fst (query now g))) -> preserves P (run_query query).
Proof.
  intros Hq w H. unfold run_query.
  destruct (faults w) as [|[|] rest]; cbn [snd graph];
    try exact H; specialize (Hq (clock w) (graph w) H);
    destruct (query (clock w) (graph w)); exact Hq.
Qed.

Lemma preserves_generate_embedding (E : EmbeddingsGenerator) (text : string) :
  preserves P (generate_embedding E text).
Proof.
  intros w H. destruct (generate_embedding_run E text w) as (out & ->).
  exact H.
Qed.

End Preserves.

Lemma apply_op_unique (now : timestamp) (o : syllabus_op) (g : Graph) :
  topic_keys_unique g -> topic_keys_unique (apply_op now o g).
Proof.
  rewrite !topic_keys_unique_skeleton, skeleton_apply_op.
  apply skel_op_unique.
Qed.

Lemma create_subject_unique (name description : string) :
  preserves topic_keys_unique (create_subject name description).
Proof.
  apply preserves_bind; [|intros; apply preserves_ret].
  apply preserves_run_query. intros now g.
  apply (apply_op_unique now (OpSubject name description)).
Qed.

Lemma create_topic_unique (subject_name topic_name description : string)
  (difficulty : Z) :
  preserves topic_keys_unique
    (create_topic subject_name topic_name description difficulty).
Proof.
  apply preserves_bind; [|intros; apply preserves_ret].
  apply preserves_run_query. intros now g.
  apply (apply_op_unique now
           (OpTopic subject_name topic_name description difficulty)).
Qed.

Lemma get_node_count_unique (l : label) :
  preserves topic_keys_unique (get_node_count l).
Proof.
  apply preserves_bind; [|intros; apply preserves_ret].
  apply preserves_run_query. intros now g H. exact H.
Qed.

Lemma load_syllabus_unique (syllabus_data : syllabus) :
  preserves topic_keys_unique (load_syllabus syllabus_data).
Proof.
  assert (Htopics : forall subject_name l,
            preserves topic_keys_unique (load_topics subject_name l)).
  { intros subject_name l. induction l as [|topic l IH];
      [apply preserves_ret|].
    apply preserves_bind; [apply create_topic_unique | intros _; exact IH]. }
  assert (Hsubjects : forall l, preserves topic_keys_unique (load_subjects l)).
  { intros l. induction l as [|[name info] l IH]; [apply preserves_ret|].
    apply preserves_bind; [apply create_subject_unique | intros _].
    apply preserves_bind; [apply Htopics | intros _; exact IH]. }
  apply preserves_bind; [apply preserves_print | intros _].
  apply preserves_bind; [apply Hsubjects | intros _].
  apply preserves_bind; [|intros; apply preserves_print].
  unfold get_graph_statistics.
  repeat (apply preserves_bind; [apply get_node_count_unique | intros ?]).
  apply preserves_ret.
Qed.

Lemma create_question_unique (E : EmbeddingsGenerator)
  (question : question_data) :
  preserves topic_keys_unique (create_question E question).
Proof.
  apply preserves_bind.
  - apply preserves_run_query. intros now g H. exact H.
  - intros [|t ts].
    + apply preserves_bind; [apply preserves_print | intros; apply preserves_ret].
    + apply preserves_bind; [apply preserves_generate_embedding | intros v].
      apply preserves_bind; [|intros; apply preserves_ret].
      apply preserves_run_query. intros now g H.
      unfold cypher_create_question.
      match goal with |- context [fold_left (create_question_row ?mk) ?l (?g0, [])] =>
        destruct (create_question_rows mk l g0 []) as (new & _ & _ & _ & _ & Hs)
      end.
      destruct Hs as (_ & Ht & _). unfold topic_keys_unique. rewrite Ht.
      exact H.
Qed.

Lemma load_pyqs_unique (E : EmbeddingsGenerator)
  (pyqs_data : list question_data) :
  preserves topic_keys_unique (load_pyqs E pyqs_data).
Proof.
  assert (Hloop : forall pyqs s f,
            preserves topic_keys_unique (load_pyqs_loop E pyqs s f)).
  { intros pyqs. induction pyqs as [|question rest IH]; intros s f;
      [apply preserves_ret|].
    apply preserves_bind.
    - apply preserves_try_except.
      + apply preserves_bind; [apply create_question_unique|].
        intros; apply preserves_ret.
      + intros _. apply preserves_bind; [apply preserves_print|].
        intros; apply preserves_ret.
    - intros [|]; apply IH. }
  apply preserves_bind; [apply preserves_print | intros _].
  apply preserves_bind; [apply Hloop | intros; apply preserves_print].
Qed.

Lemma create_chunk_unique (E : EmbeddingsGenerator) (chunk : chunk_data) :
  preserves topic_keys_unique (create_chunk E chunk).
Proof.
  apply preserves_bind.
  - destruct (cd_embedding chunk) as [[|x v]|];
      try apply preserves_generate_embedding. apply preserves_ret.
  - intros v. apply preserves_bind.
    + apply preserves_run_query. intros now g H. exact H.
    + intros [|t ts].
      * apply preserves_bind; [apply preserves_print|].
        intros; apply preserves_ret.
      * apply preserves_bind; [|intros; apply preserves_ret].
        apply preserves_run_query. intros now g H.
        unfold cypher_create_chunk.
        match goal with |- context [fold_left (create_chunk_row ?mk) ?l (?g0, [])] =>
          destruct (create_chunk_rows mk l g0 []) as (new & _ & _ & _ & _ & Hs)
        end.
        destruct Hs as (_ & Ht & _). unfold topic_keys_unique. rewrite Ht.
        exact H.
Qed.

Lemma create_concept_unique (name explanation topic_name subject_name : string) :
  preserves topic_keys_unique
    (create_concept name explanation topic_name subject_name).
Proof.
  apply preserves_bind; [|intros; apply preserves_ret].
  apply preserves_run_query. intros now g H.
  unfold cypher_create_concept.
  destruct (filter (topic_matches topic_name subject_name) (topics g));
    [exact H|].
  cbn [fst].
  destruct (existsb (concept_matches name topic_name subject_name)
              (concepts g)); exact H.
Qed.

Lemma record_attempt_unique (subject topic question_text : string)
  (is_correct : bool) :
  preserves topic_keys_unique
    (record_attempt subject topic question_text is_correct).
Proof.
  apply preserves_try_except; [|intros; apply preserves_print].
  apply preserves_bind; [|intros; apply preserves_ret].
  apply preserves_run_query. intros now g H.
  unfold cypher_record_attempt.
  destruct (fold_left (merge_attempted is_correct now)
              (attempt_rows g subject topic question_text) (attempted g, []));
    exact H.
Qed.

(** X19.  No write duplicates a topic.  If no two Topic nodes share the pair
    (name, subject), then this is still so after any call of the builder or
    of the tracker's [record_attempt], whether the backend answers, fails at
    once or fails part of the way through. *)
Theorem writes_keep_topic_keys_unique (w : World) :
  topic_keys_unique (graph w) ->
  (forall name description,
     topic_keys_unique (graph (snd (create_subject name description w)))) /\
  (forall subject_name topic_name description difficulty,
     topic_keys_unique
       (graph (snd (create_topic subject_name topic_name description
                      difficulty w)))) /\
  (forall syllabus_data,
     topic_keys_unique (graph (snd (load_syllabus syllabus_data w)))) /\
  (forall E question,
     topic_keys_unique (graph (snd (create_question E question w)))) /\
  (forall E pyqs_data,
     topic_keys_unique (graph (snd (load_pyqs E pyqs_data w)))) /\
  (forall E chunk,
     topic_keys_unique (graph (snd (create_chunk E chunk w)))) /\
  (forall name explanation topic_name subject_name,
     topic_keys_unique
       (graph (snd (create_concept name explanation topic_name subject_name
                      w)))) /\
  (forall subject topic question_text is_correct,
     topic_keys_unique
       (graph (snd (record_attempt subject topic question_text is_correct
                      w)))).
Proof.
  intros H. repeat split; intros.
  - now apply create_subject_unique.
  - now apply create_topic_unique.
  - now apply load_syllabus_unique.
  - now apply create_question_unique.
  - now apply load_pyqs_unique.
  - now apply create_chunk_unique.
  - now apply create_concept_unique.
  - now apply record_attempt_unique.
Qed.

Lemma writes_keep_topic_keys_unique_witness :
  topic_keys_unique (graph (mkWorld sorting_graph [false; false; true] 0 [] [])) /\
  topic_keys_unique
    (graph (snd (load_syllabus algorithms_syllabus
                   (mkWorld sorting_graph [false; false; true] 0 [] [])))).
Proof.
  assert (Hu : topic_keys_unique
                 (graph (mkWorld sorting_graph [false; false; true] 0 [] []))).
  { unfold topic_keys_unique. cbn.
    constructor; [intros [] | constructor]. }
  split; [exact Hu|].
  apply (writes_keep_topic_keys_unique
           (mkWorld sorting_graph [false; false; true] 0 [] []) Hu).
Defined.

(** ** Chunks *)

(** What [create_chunk] does before it looks for the topic. *)
Lemma create_chunk_embeds_first (E : EmbeddingsGenerator) (chunk : chunk_data)
  (w : World) :
  exists out,
    (match cd_embedding chunk with
     | Some (x :: v) => ret (x :: v)
     | _ => generate_embedding E (cd_text chunk)
     end) w
    = (Ok (chunk_embedding E chunk),
       mkWorld (graph w) (faults w) (clock w)
         (embed_calls w ++ chunk_embed_calls chunk) out) /\
    (out = stdout w \/ out = stdout w ++ [ErrorGeneratingEmbedding]).
Proof.
  unfold chunk_embedding, chunk_embed_calls.
  destruct (cd_embedding chunk) as [[|x v]|].
  - unfold generate_embedding, embedding_of, bind, log_embed, print, ret.
    destruct (is_blank (cd_text chunk)); [eexists; split; [reflexivity|auto]|].
    destruct (model_encode E (cd_text chunk));
      eexists; (split; [reflexivity|auto]).
  - exists (stdout w). rewrite app_nil_r. destruct w. split; [reflexivity|auto].
  - unfold generate_embedding, embedding_of, bind, log_embed, print, ret.
    destruct (is_blank (cd_text chunk)); [eexists; split; [reflexivity|auto]|].
    destruct (model_encode E (cd_text chunk));
      eexists; (split; [reflexivity|auto]).
Qed.

(** X20.  [create_chunk] embeds before it looks for the topic.  When no
    Topic node carries the record's (subject, topic) pair and the backend
    answers the look-up, [create_chunk] returns [None], leaves the graph as
    it was and ends by printing the missing topic; yet unless the record
    brought a non-empty embedding, the embedder has been handed the text.
    [create_question], which looks for the topic first, hands the embedder
    nothing in the same situation. *)
Theorem create_chunk_unknown_topic (E : EmbeddingsGenerator)
  (chunk : chunk_data) (question : question_data) (w : World) :
  next_ok w = true ->
  topic_exists (graph w) (cd_subject chunk) (cd_topic chunk) = false ->
  topic_exists (graph w) (qd_subject question) (qd_topic question) = false ->
  fst (create_chunk E chunk w) = Ok None /\
  graph (snd (create_chunk E chunk w)) = graph w /\
  last (stdout (snd (create_chunk E chunk w))) QueryExecutionError
    = TopicNotFound (cd_topic chunk) (cd_subject chunk) /\
  embed_calls (snd (create_chunk E chunk w))
    = embed_calls w ++ chunk_embed_calls chunk /\
  embed_calls (snd (create_question E question w)) = embed_calls w.
Proof.
  intros Hok Hc Hq. unfold topic_exists in Hc, Hq.
  apply existsb_false_filter in Hc, Hq.
  unfold create_chunk, create_question, bind.
  destruct (create_chunk_embeds_first E chunk w) as (out & -> & _).
  rewrite !run_query_ok by exact Hok.
  cbn [cypher_match_topic fst snd graph clock]. rewrite Hc, Hq.
  cbn [print ret fst snd graph stdout embed_calls].
  rewrite last_last. auto.
Qed.

Lemma create_chunk_unknown_topic_witness :
  next_ok (world_of sorting_graph) = true /\
  fst (create_chunk unit_embedder
         (mkChunkData "Paging swaps pages." "Operating Systems" "Memory"
            None None None None) (world_of sorting_graph)) = Ok None /\
  embed_calls
    (snd (create_chunk unit_embedder
            (mkChunkData "Paging swaps pages." "Operating Systems" "Memory"
               None None None None) (world_of sorting_graph)))
    = ["Paging swaps pages."%string] /\
  embed_calls (snd (create_question unit_embedder orphan_question
                      (world_of sorting_graph))) = [].
Proof.
  split; [reflexivity|].
  destruct (create_chunk_unknown_topic unit_embedder
              (mkChunkData "Paging swaps pages." "Operating Systems" "Memory"
                 None None None None) orphan_question
              (world_of sorting_graph) eq_refl eq_refl eq_refl)
    as (Hr & _ & _ & He & Hq).
  split; [exact Hr|]. split; [exact He | exact Hq].
Defined.

(** X21.  On a backend that answers, with the Topic keys unique and the
    record's topic present, [create_chunk] returns the node it created:
    exactly one Chunk node is added, of source type "textbook", with the
    record's text and the defaults source file "unknown", page 0 and index 0
    for the keys the record lacks; the node is the target of an
    [EXPLAINED_BY] relationship from the Topic node of the record's key; and
    the nodes of every other label are untouched. *)
Theorem create_chunk_creates_linked_node (E : EmbeddingsGenerator)
  (chunk : chunk_data) (w : World) :
  healthy w = true ->
  topic_keys_unique (graph w) ->
  topic_exists (graph w) (cd_subject chunk) (cd_topic chunk) = true ->
  exists node t,
    fst (create_chunk E chunk w) = Ok (Some node) /\
    chunks (graph (snd (create_chunk E chunk w)))
      = chunks (graph w) ++ [node] /\
    c_text node = cd_text chunk /\
    c_source_type node = "textbook"%string /\
    c_source_file node = get (cd_source_file chunk) "unknown"%string /\
    c_page_number node = get (cd_page_number chunk) 0%Z /\
    c_chunk_index node = get (cd_chunk_index chunk) 0%Z /\
    In t (topics (graph w)) /\
    topic_matches (cd_topic chunk) (cd_subject chunk) t = true /\
    In (t_id t, c_id node)
      (explained_by (graph (snd (create_chunk E chunk w)))) /\
    same_but_chunks (graph w) (graph (snd (create_chunk E chunk w))).
Proof.
  intros Hh Hu Hex.
  destruct (unique_topic_filter _ _ _ Hu Hex) as (t & Hf).
  assert (Ht : In t (filter (topic_matches (cd_topic chunk)
                               (cd_subject chunk)) (topics (graph w))))
    by (rewrite Hf; now left).
  apply filter_In in Ht as [Ht Hm].
  unfold create_chunk, bind.
  destruct (create_chunk_embeds_first E chunk w) as (out & -> & _).
  rewrite run_query_ok by (apply healthy_next_ok; exact Hh).
  cbn [cypher_match_topic fst snd graph clock]. rewrite Hf.
  rewrite run_query_ok by
    (apply healthy_next_ok; cbn [faults]; apply (healthy_tl _ w); exact Hh).
  cbn [graph clock faults embed_calls stdout].
  unfold cypher_create_chunk. rewrite Hf.
  eexists. exists t. cbn [fst snd graph ret fold_left create_chunk_row].
  repeat split; try reflexivity; try assumption.
  cbn. apply merge_edge_in.
Qed.

Lemma create_chunk_creates_linked_node_witness :
  healthy (world_of sorting_graph) = true /\
  exists node t,
    fst (create_chunk unit_embedder short_chunk (world_of sorting_graph))
      = Ok (Some node) /\
    c_source_type node = "textbook"%string /\
    c_source_file node = "unknown"%string /\
    In (t_id t, c_id node)
      (explained_by (graph (snd (create_chunk unit_embedder short_chunk
                                  (world_of sorting_graph))))).
Proof.
  split; [reflexivity|].
  assert (Hu : topic_keys_unique (graph (world_of sorting_graph))).
  { unfold topic_keys_unique. simpl.
    constructor; [intros [] | constructor]. }
  destruct (create_chunk_creates_linked_node unit_embedder short_chunk
              (world_of sorting_graph) eq_refl Hu eq_refl)
    as (node & t & Hr & _ & _ & Hty & Hsf & _ & _ & _ & _ & He & _).
  exists node, t. auto.
Defined.

(** ** Progress by topic *)

Lemma distinct_nodup (l : list nat) : NoDup (distinct Nat.eqb l).
Proof.
  induction l as [|x l IH]; cbn [distinct]; constructor.
  - intros Hin. apply filter_In in Hin as [_ Hx].
    rewrite Nat.eqb_refl in Hx. discriminate.
  - apply NoDup_filter. exact IH.
Qed.

Lemma attempt_paths_attempted (g : Graph) (t : TopicNode)
  (p : QuestionNode * Attempted) :
  In p (attempt_paths g t) ->
  In (snd p) (attempted g) /\ a_question (snd p) = q_id (fst p).
Proof.
  unfold attempt_paths. intros Hin.
  apply in_flat_map in Hin as (e & _ & Hin).
  destruct (Nat.eqb (fst e) (t_id t)); [|destruct Hin].
  apply in_flat_map in Hin as (q & _ & Hin).
  destruct (Nat.eqb (q_id q) (snd e)); [|destruct Hin].
  apply in_flat_map in Hin as (a & Ha & Hin).
  destruct (Nat.eqb (a_question a) (q_id q)) eqn:Hq; [|destruct Hin].
  apply in_map_iff in Hin as (u & <- & _). cbn [fst snd].
  apply Nat.eqb_eq in Hq. auto.
Qed.

Lemma attempt_paths_none (g : Graph) (t : TopicNode) :
  attempted g = [] -> attempt_paths g t = [].
Proof.
  intros Hnone. destruct (attempt_paths g t) as [|p l] eqn:E; [reflexivity|].
  destruct (attempt_paths_attempted g t p) as [Hin _];
    [rewrite E; now left|].
  rewrite Hnone in Hin. destruct Hin.
Qed.

(** X6.  [get_topic_progress] counts attempted questions only.  When the
    backend answers, the result has one row per Topic node of the subject,
    ordered by name.  The column [total_questions] counts the topic's
    questions that the default user has attempted, not the topic's
    questions: it is at most the number of [ATTEMPTED] relationships in the
    graph, and with no attempt recorded every row reports 0 questions, 0
    attempts, 0 correct and accuracy 0, however many questions the topic
    has. *)
Theorem topic_progress_counts_attempted (percentage : Z -> Z -> float)
  (on_error : exn -> M (list TopicProgress)) (subject : string) (w : World) :
  next_ok w = true ->
  exists rows,
    fst (get_topic_progress percentage on_error subject w) = Ok rows /\
    Permutation (map tp_topic rows)
      (map t_name
         (filter (fun t => String.eqb (t_subject t) subject)
            (topics (graph w)))) /\
    Sorted (fun a b => String.leb (tp_topic a) (tp_topic b) = true) rows /\
    Forall (fun r => tp_total_questions r <= length (attempted (graph w))) rows /\
    (attempted (graph w) = [] ->
     Forall (fun r => tp_total_questions r = 0 /\ tp_attempts r = 0%Z /\
                      tp_correct r = 0%Z /\ tp_accuracy r = 0%float) rows).
Proof.
  intros Hok. unfold get_topic_progress, try_except.
  rewrite run_query_ok by exact Hok. cbn [fst snd cypher_topic_progress].
  eexists. split; [reflexivity|]. split; [|split; [|split]].
  - eapply Permutation_trans;
      [apply Permutation_map; apply order_by_perm|].
    rewrite map_map. cbn [tp_topic]. apply Permutation_refl.
  - apply order_by_sorted. intros a b. apply String.leb_total.
  - apply Forall_forall. intros r Hr. apply order_by_in in Hr.
    apply in_map_iff in Hr as (t & <- & _). cbn [tp_total_questions].
    rewrite <- (length_map a_question (attempted (graph w))).
    apply NoDup_incl_length; [apply distinct_nodup|].
    intros id Hid. apply distinct_in in Hid.
    apply in_map_iff in Hid as (p & <- & Hp).
    apply attempt_paths_attempted in Hp as [Hin Hq]. rewrite <- Hq.
    now apply in_map.
  - intros Hnone. apply Forall_forall. intros r Hr. apply order_by_in in Hr.
    apply in_map_iff in Hr as (t & <- & _).
    rewrite (attempt_paths_none _ t Hnone). cbn. auto.
Qed.

Lemma topic_progress_counts_attempted_witness :
  next_ok (world_of (with_attempted [] practice_graph)) = true /\
  exists rows,
    fst (get_topic_progress (fun _ _ => 0%float) (fun _ => ret []) "Algorithms"
           (world_of (with_attempted [] practice_graph))) = Ok rows /\
    Forall (fun r => tp_total_questions r = 0 /\ tp_attempts r = 0%Z /\
                     tp_correct r = 0%Z /\ tp_accuracy r = 0%float) rows /\
    length (topic_questions practice_graph "Algorithms" "Sorting") = 3.
Proof.
  split; [reflexivity|].
  destruct (topic_progress_counts_attempted (fun _ _ => 0%float)
              (fun _ => ret []) "Algorithms"
              (world_of (with_attempted [] practice_graph)) eq_refl)
    as (rows & Hr & _ & _ & _ & Hzero).
  exists rows. split; [exact Hr|]. split; [apply Hzero; reflexivity|].
  reflexivity.
Defined.
